(** * DOCUMIND PDF-RAG server: ingestion and grounded-query pipelines

  A shallow embedding of the Python server under [src/server-python]:
  the embedding gateway ([app/services/embeddings.py]), the vector store
  gateway ([app/services/vector_store.py]), the generation gateway
  ([app/services/llm.py]), the Celery ingestion task
  ([workers/document_tasks.py]) and the FastAPI endpoints ([app/main.py]).

  Conventions.
  - Python [dict]s used as JSON payloads are [gmap string pvalue]; the
    in-memory registry [documents_db] is an insertion-ordered association
    list, because [list_documents] iterates over it.
  - Python [float]s are only carried around and compared by this code, never
    computed with; they are modelled as rationals [Q].
  - Code that raises is a computation in the monad [M]: it threads the
    [world] (the Qdrant collection), returns [inl e] for a raised
    exception [e], and logs the calls it makes to external collaborators.
  - The external collaborators (Nomic, Qdrant scoring and failures,
    LangChain splitter, OpenRouter, uuid4, number formatting) are the
    fields of the class [Env].
  - A character of a [string] stands for the Python character with the same
    code point (below 256); [String.length] is [len]. *)

From Stdlib Require Import Ascii QArith Sorted.
From stdpp Require Import base option list strings gmap pretty.

Local Open Scope string_scope.
Local Open Scope list_scope.

(** ** Python preliminaries *)

Module Py.

(** "\n" *)
Definition nl : string := String "010"%char EmptyString.

(** Exceptions raised inside the services. *)
Inductive exn :=
| Exception (msg : string)
| ValueError (msg : string)
| KeyError (key : string)
| IndexError (msg : string)
| ValidationError (msg : string).

(** [str(e)]: the message; for a [KeyError] the repr of the key. *)
Definition str (e : exn) : string :=
  match e with
  | Exception m | ValueError m | IndexError m | ValidationError m => m
  | KeyError k => "'" ++ k ++ "'"
  end.

(** Truthiness of a [str] and of an [Optional[str]]. *)
Definition truthy_str (s : string) : bool :=
  match s with EmptyString => false | String _ _ => true end.

Definition truthy_opt_str (o : option string) : bool :=
  match o with None => false | Some s => truthy_str s end.

(** JSON-like values stored in payloads and metadata dicts. *)
Inductive pvalue :=
| VStr (s : string)
| VInt (n : Z).

#[global] Instance pvalue_eq_dec : EqDecision pvalue.
Proof. solve_decision. Defined.

(** [{**a, **b}]: keys of [b] override keys of [a]. *)
Definition dict_merge (a b : gmap string pvalue) : gmap string pvalue := b ∪ a.

End Py.
Export Py.

(** A vector of floats. *)
Abbreviation vector := (list Q).

(** ** app/models.py *)

Module Models.

Inductive ProcessingStatus := UPLOADING | PROCESSING | COMPLETED | FAILED.

#[global] Instance ProcessingStatus_eq_dec : EqDecision ProcessingStatus.
Proof. solve_decision. Defined.

(** The [str] value of each member of the [str, Enum] class. *)
Definition status_value (s : ProcessingStatus) : string :=
  match s with
  | UPLOADING => "uploading"
  | PROCESSING => "processing"
  | COMPLETED => "completed"
  | FAILED => "failed"
  end.

Record ChatMessage := { role : string; content : string }.

Record DocumentResponse := {
  dr_id : string;
  dr_filename : string;
  dr_size : nat;
  dr_uploaded_at : nat;
  dr_status : ProcessingStatus;
  dr_pages : option pvalue;
  dr_error : option string
}.

Record ChatRequest := {
  message : string;
  document_id : string;
  conversation_history : option (list ChatMessage)
}.

Record SourceDocument := {
  sd_content : string;
  page_number : option Z;
  confidence_score : Q
}.

Record ChatResponse := {
  response : string;
  sources : list SourceDocument;
  cr_document_id : string
  (* processing_time: wall-clock seconds, not modelled *)
}.

Record SearchRequest := {
  query : string;
  sr_document_id_filter : option string;
  limit : nat
}.

Record SearchResult := {
  sr_content : string;
  sr_document_id : string;
  sr_filename : string;
  sr_page_number : option Z;
  sr_confidence_score : Q
}.

Record SearchResponse := {
  results : list SearchResult;
  sr_query : string;
  total_results : nat
  (* processing_time: wall-clock seconds, not modelled *)
}.

End Models.
Export Models.

(** ** External collaborators *)

Inductive task_type := search_document | search_query.

(** What [nomic.embed.text] can hand back. *)
Inductive nomic_response :=
| NomicRaises (e : exn)
| NomicFalsy                       (* [None] or an empty dict *)
| NomicNoEmbeddings                (* a dict without the 'embeddings' key *)
| NomicEmbeddings (embeddings : list vector).

(** What [client.chat.completions.create] can hand back: an exception or the
  message contents of [response.choices]. *)
Inductive llm_response :=
| LLMRaises (e : exn)
| LLMChoices (choices : list string).

Class Env := {
(** [embed.text(texts, model=..., task_type=...)] *)
nomic_embed_text : list string -> string -> task_type -> nomic_response;
(** Qdrant's cosine similarity of a stored vector to the query vector *)
similarity : vector -> vector -> Q;
(** [RecursiveCharacterTextSplitter(chunk_size, chunk_overlap, ...).split_text] *)
split_text : string -> list string;
(** the [n]-th value drawn from [uuid4()] *)
uuid4 : nat -> string;
(** the OpenRouter chat completion call *)
llm_create : list ChatMessage -> llm_response;
(** [f"{x:.2f}"] *)
format_2f : Q -> string;
(** [f"{status}"] for a stored processing status *)
format_status : ProcessingStatus -> string;
(** the exception, if any, that [client.search] raises for this query
    vector *)
qdrant_search_raises : vector -> option exn;
(** the exception, if any, that [client.upsert(points=batch)] raises for a
    batch of points with these ids *)
qdrant_upsert_raises : list string -> option exn;
(** the exception, if any, that [client.scroll] raises when it is asked for
    the points of this document id *)
qdrant_scroll_raises : string -> option exn;
(** the exception, if any, that [client.delete] raises for these point ids *)
qdrant_delete_raises : list string -> option exn
}.

(** ** The Qdrant collection (external vector database) *)

Module Qdrant.

Record PointStruct := {
  id : string;
  vector_ : vector;
  payload : gmap string pvalue
}.

Record ScoredPoint := {
  sp_payload : gmap string pvalue;
  score : Q
}.

(** [models.FieldCondition(key=k, match=models.MatchValue(value=v))] *)
Record FieldCondition := { key : string; match_value : string }.

(** [models.Filter(must=[...])] *)
Record Filter := { must : list FieldCondition }.

Definition condition_holds (p : gmap string pvalue) (c : FieldCondition) : bool :=
  bool_decide (p !! key c = Some (VStr (match_value c))).

Definition filter_holds (f : option Filter) (p : gmap string pvalue) : bool :=
  match f with
  | None => true
  | Some f => forallb (condition_holds p) (must f)
  end.

(** Insertion by descending score. [sort_desc] inserts the later points
    first, so [x] stays in front of the points that score the same: ties keep
    the stored order. *)
Fixpoint insert_desc (x : ScoredPoint) (l : list ScoredPoint) : list ScoredPoint :=
  match l with
  | [] => [x]
  | y :: l' => if Qle_bool (score y) (score x) then x :: y :: l'
               else y :: insert_desc x l'
  end.

Definition sort_desc (l : list ScoredPoint) : list ScoredPoint :=
  foldr insert_desc [] l.

(** [client.search(query_vector, query_filter, limit, score_threshold)]:
    the points passing the filter, scored against the query, kept when the
    score reaches the threshold, best first, at most [limit] of them. *)
Definition search `{Env} (points : list PointStruct) (query_vector : vector)
    (query_filter : option Filter) (limit : nat) (score_threshold : Q)
    : list ScoredPoint :=
  let candidates := List.filter (fun p => filter_holds query_filter (payload p)) points in
  let scored := map (fun p => {| sp_payload := payload p;
                                 score := similarity (vector_ p) query_vector |}) candidates in
  let kept := List.filter (fun s => Qle_bool score_threshold (score s)) scored in
  take limit (sort_desc kept).

(** [client.scroll(scroll_filter=f, limit=10000)[0]] *)
Definition scroll (points : list PointStruct) (f : Filter) : list PointStruct :=
  take 10000 (List.filter (fun p => filter_holds (Some f) (payload p)) points).

(** [client.upsert]: a point replaces the stored point with its id, or is
    added. *)
Fixpoint upsert_one (p : PointStruct) (points : list PointStruct) : list PointStruct :=
  match points with
  | [] => [p]
  | q :: rest => if String.eqb (id q) (id p) then p :: rest
                 else q :: upsert_one p rest
  end.

Definition upsert (points batch : list PointStruct) : list PointStruct :=
  fold_left (fun acc p => upsert_one p acc) batch points.

(** [client.delete(points_selector=PointIdsList(points=ids))] *)
Definition delete_points (points : list PointStruct) (ids : list string)
    : list PointStruct :=
  List.filter (fun p => bool_decide (id p ∉ ids)) points.

(** [a] scores at least as high as [b]. *)
Definition scores_no_less (a b : ScoredPoint) : Prop := (score b <= score a)%Q.

End Qdrant.

(** ** The world the services act on, and the monad of code that may raise *)

Module Eff.
Import Qdrant.

(** Arguments of [current_task.update_state(state="PROGRESS", meta=...)] and
    of the dict a task returns. *)
Record task_meta := {
  tm_status : ProcessingStatus;
  tm_progress : nat;
  tm_message : string;
  tm_document_id : string;
  tm_pages : option pvalue;
  tm_chunks : option nat;
  tm_error : option string;
  tm_text_length : option pvalue;
  tm_metadata : option (gmap string pvalue)
}.

(** Calls that leave the process, in the order they are made. *)
Inductive event :=
| NomicEmbedText (texts : list string) (model : string) (task : task_type)
| QdrantSearch (query_vector : vector) (query_filter : option Filter)
    (limit : nat) (score_threshold : Q)
| QdrantScroll (scroll_filter : Filter)
| QdrantUpsert (batch : list PointStruct)
| LLMCreate (messages : list ChatMessage)
| UpdateState (meta : task_meta)
| DeleteFile (file_path : string).

Record world := {
  points : list PointStruct;     (* the Qdrant collection *)
  uuid_count : nat               (* how many uuid4() values were drawn *)
}.

(** A computation runs from a world and ends with a value or a raised
    exception, the world it leaves, and the calls it made, oldest first. *)
Definition M (A : Type) : Type := world -> (exn + A) * world * list event.

Definition ret {A} (a : A) : M A := fun w => (inr a, w, []).

Definition raise {A} (e : exn) : M A := fun w => (inl e, w, []).

Definition bind {A B} (m : M A) (k : A -> M B) : M B :=
  fun w => match m w with
           | (inr a, w', t) =>
               match k a w' with
               | (r, w'', t') => (r, w'', t ++ t')
               end
           | (inl e, w', t) => (inl e, w', t)
           end.

Definition emit (e : event) : M unit := fun w => (inr tt, w, [e]).

Definition get_points : M (list PointStruct) := fun w => (inr (points w), w, []).

Definition set_points (ps : list PointStruct) : M unit :=
  fun w => (inr tt, {| points := ps; uuid_count := uuid_count w |}, []).

(** [str(uuid4())] *)
Definition fresh_uuid `{Env} : M string :=
  fun w => (inr (uuid4 (uuid_count w)),
            {| points := points w; uuid_count := S (uuid_count w) |}, []).

(** A [for] loop whose body may raise. *)
Fixpoint for_each {A} (l : list A) (body : A -> M unit) : M unit :=
  match l with
  | [] => ret tt
  | x :: l' => bind (body x) (fun _ => for_each l' body)
  end.

(** A list comprehension / accumulating loop whose body may raise. *)
Fixpoint map_m {A B} (f : A -> M B) (l : list A) : M (list B) :=
  match l with
  | [] => ret []
  | x :: l' => bind (f x) (fun y => bind (map_m f l') (fun ys => ret (y :: ys)))
  end.

(** [m] keeps the invariant [I] of the stored points, however it ends, and
    what it returns satisfies [Q]. *)
Definition preserves {A} (I : list PointStruct -> Prop) (m : M A) (Q : A -> Prop) : Prop :=
  forall w, I (points w) ->
    I (points (m w).1.2) /\ forall a, (m w).1.1 = inr a -> Q a.

(** A computation that neither changes the world nor calls out. *)
Definition silent {A} (m : M A) : Prop := forall w, exists r, m w = (r, w, []).

End Eff.
Export Eff.

Notation "'let*' x := m 'in' k" := (bind m (fun x => k))
  (at level 10, x name, m at level 100, k at level 200).
Notation "m ;;; k" := (bind m (fun _ => k))
  (at level 100, k at level 200, right associativity).

(** ** app/services/embeddings.py *)

Module EmbeddingService.

(** [self.model] and [self.dimension], set in [__init__]. *)
Definition model : string := "nomic-embed-text-v1".
Definition dimension : nat := 768.

(** The loop validating embedding dimensions: the index and the length of
    the first vector whose length is not [dimension]. *)
Fixpoint first_bad_dimension (i : nat) (embeddings : list vector) : option (nat * nat) :=
  match embeddings with
  | [] => None
  | embedding :: rest =>
      if bool_decide (length embedding = dimension) then first_bad_dimension (S i) rest
      else Some (i, length embedding)
  end.

Definition unexpected_dimension_msg (i n : nat) : string :=
  "Unexpected embedding dimension for text " ++ pretty i ++ ": " ++ pretty n
    ++ " != " ++ pretty dimension.

Definition generation_failed (inner : string) : exn :=
  Exception ("Nomic embedding generation failed: " ++ inner).

(** The one provider call [_generate_embeddings_sync] makes. *)
Definition document_call (texts : list string) : event :=
  NomicEmbedText texts model search_document.

(** [_generate_embeddings_sync]: one provider call with the document task
    type, then validation of every returned vector. *)
Definition _generate_embeddings_sync `{Env} (texts : list string) : M (list vector) :=
  emit (document_call texts) ;;;
  match nomic_embed_text texts model search_document with
  | NomicRaises e => raise (generation_failed (str e))
  | NomicFalsy | NomicNoEmbeddings =>
      raise (generation_failed "Invalid response from Nomic API")
  | NomicEmbeddings embeddings =>
      match first_bad_dimension 0 embeddings with
      | Some (i, n) => raise (generation_failed (unexpected_dimension_msg i n))
      | None => ret embeddings
      end
  end.

(** [get_embeddings]: nothing is sent for an empty list; exceptions are
    logged and re-raised. *)
Definition get_embeddings `{Env} (texts : list string) : M (list vector) :=
  match texts with
  | [] => ret []
  | _ => _generate_embeddings_sync texts
  end.

Definition query_generation_failed (inner : string) : exn :=
  Exception ("Nomic query embedding generation failed: " ++ inner).

(** [_generate_query_embedding_sync]: the query task type. *)
Definition _generate_query_embedding_sync `{Env} (query : string) : M vector :=
  emit (NomicEmbedText [query] model search_query) ;;;
  match nomic_embed_text [query] model search_query with
  | NomicRaises e => raise (query_generation_failed (str e))
  | NomicFalsy | NomicNoEmbeddings | NomicEmbeddings [] =>
      raise (query_generation_failed "Invalid response from Nomic API")
  | NomicEmbeddings (embedding :: _) =>
      if bool_decide (length embedding = dimension) then ret embedding
      else raise (query_generation_failed
                    ("Unexpected embedding dimension: " ++ pretty (length embedding)
                       ++ " != " ++ pretty dimension))
  end.

Definition get_query_embedding `{Env} (query : string) : M vector :=
  _generate_query_embedding_sync query.

(** What [health_check] returns. *)
Inductive health :=
| Healthy (model : string) (dimension : nat)
| Unhealthy (error : string).

(** [health_check]; [api_key] is [settings.nomic_api_key]. Every exception is
    turned into an unhealthy status. *)
Definition health_check `{Env} (api_key : option string) (w : world)
    : health * world * list event :=
  if truthy_opt_str api_key
  then
    match get_embeddings ["health check"] w with
    | (inl e, w', t) => (Unhealthy (str e), w', t)
    | (inr test_embedding, w', t) =>
        match test_embedding with
        | [embedding] =>
            if bool_decide (length embedding = dimension)
            then (Healthy model dimension, w', t)
            else (Unhealthy ("Wrong embedding dimension: " ++ pretty (length embedding)),
                  w', t)
        | _ => (Unhealthy "Invalid embedding response", w', t)
        end
    end
  else (Unhealthy "API key not configured", w, []).

End EmbeddingService.

(** ** app/services/vector_store.py *)

Module VectorStoreService.
Import Qdrant EmbeddingService.

(** The payload written for chunk [i]: the five fixed keys, overridden by
    whatever keys the caller's [metadata] has ([**(metadata or {})] comes
    last in the dict display). *)
Definition point_metadata (document_id filename : string) (i : nat) (chunk : string)
    (metadata : option (gmap string pvalue)) : gmap string pvalue :=
  dict_merge
    (<["document_id" := VStr document_id]>
       (<["filename" := VStr filename]>
          (<["chunk_index" := VInt (Z.of_nat i)]>
             (<["content" := VStr chunk]>
                (<["chunk_size" := VInt (Z.of_nat (String.length chunk))]> ∅)))))
    (default ∅ metadata).

(** The loop over [enumerate(zip(chunks, embeddings))]. *)
Fixpoint build_points `{Env} (document_id filename : string)
    (metadata : option (gmap string pvalue)) (i : nat)
    (pairs : list (string * vector)) : M (list PointStruct) :=
  match pairs with
  | [] => ret []
  | (chunk, embedding) :: rest =>
      let* point_id := fresh_uuid in
      let* more := build_points document_id filename metadata (S i) rest in
      ret ({| id := point_id; vector_ := embedding;
              payload := point_metadata document_id filename i chunk metadata |} :: more)
  end.

(** [points[i:i + batch_size] for i in range(0, len(points), batch_size)] *)
Fixpoint batches {A} (fuel batch_size : nat) (l : list A) : list (list A) :=
  match fuel, l with
  | S fuel', _ :: _ => take batch_size l :: batches fuel' batch_size (drop batch_size l)
  | _, _ => []
  end.

(** [self.client.upsert(collection_name=..., points=batch)]: the call may
    raise, and then stores nothing. *)
Definition client_upsert `{Env} (batch : list PointStruct) : M unit :=
  emit (QdrantUpsert batch) ;;;
  match qdrant_upsert_raises (map id batch) with
  | Some e => raise e
  | None =>
      let* stored := get_points in
      set_points (upsert stored batch)
  end.

(** [process_document]: split, embed, build the points, upsert them in
    batches of 100; returns the number of chunks. An exception of any step
    is logged and re-raised, so a failed upsert ends the loop. *)
Definition process_document `{Env} (document_id text filename : string)
    (metadata : option (gmap string pvalue)) : M nat :=
  let chunks := split_text text in
  match chunks with
  | [] => ret 0
  | _ =>
      let* embeddings := get_embeddings chunks in
      let* points := build_points document_id filename metadata 0 (zip chunks embeddings) in
      let batch_size := 100 in
      for_each (batches (length points) batch_size points) client_upsert ;;;
      ret (length chunks)
  end.

(** One entry of the list [search_similar] returns. *)
Record hit := {
  h_content : pvalue;
  h_document_id : pvalue;
  h_filename : pvalue;
  h_chunk_index : pvalue;
  h_score : Q;
  h_metadata : gmap string pvalue
}.

(** [payload[k]] *)
Definition subscript (p : gmap string pvalue) (k : string) : M pvalue :=
  match p !! k with
  | Some v => ret v
  | None => raise (KeyError k)
  end.

Definition format_result (result : ScoredPoint) : M hit :=
  let* c := subscript (sp_payload result) "content" in
  let* d := subscript (sp_payload result) "document_id" in
  let* f := subscript (sp_payload result) "filename" in
  let* i := subscript (sp_payload result) "chunk_index" in
  ret {| h_content := c; h_document_id := d; h_filename := f; h_chunk_index := i;
         h_score := score result;
         h_metadata :=
           filter (fun kv => kv.1 ∉ ["content"; "document_id"; "filename"; "chunk_index"])
                  (sp_payload result) |}.

(** A formatted result repeats the payload of the scored point. *)
Definition formats (result : ScoredPoint) (h : hit) : Prop :=
  sp_payload result !! "content" = Some (h_content h) /\
  sp_payload result !! "document_id" = Some (h_document_id h) /\
  sp_payload result !! "filename" = Some (h_filename h) /\
  sp_payload result !! "chunk_index" = Some (h_chunk_index h) /\
  h_score h = score result /\
  (forall k, h_metadata h !! k =
     if bool_decide (k ∈ ["content"; "document_id"; "filename"; "chunk_index"])
     then None else sp_payload result !! k).

(** The search filter prepared by [search_similar]: [if document_id:]. *)
Definition search_filter (document_id : option string) : option Filter :=
  match document_id with
  | Some d =>
      if truthy_str d
      then Some {| must := [ {| key := "document_id"; match_value := d |} ] |}
      else None
  | None => None
  end.

(** [search_similar]: an exception of any step, the Qdrant search included,
    is logged and re-raised. *)
Definition search_similar `{Env} (query : string) (document_id : option string)
    (limit : nat) (score_threshold : Q) : M (list hit) :=
  let* query_embedding := get_embeddings [query] in
  match query_embedding with
  | [] => raise (IndexError "list index out of range")
  | q0 :: _ =>
      emit (QdrantSearch q0 (search_filter document_id) limit score_threshold) ;;;
      match qdrant_search_raises q0 with
      | Some e => raise e
      | None =>
          let* stored := get_points in
          map_m format_result
            (search stored q0 (search_filter document_id) limit score_threshold)
      end
  end.

Definition document_filter (document_id : string) : Filter :=
  {| must := [ {| key := "document_id"; match_value := document_id |} ] |}.

(** [get_document_stats]: only the chunk count is read by the callers. An
    exception of the scroll is caught and answered with a count of 0. *)
Definition get_document_stats `{Env} (document_id : string) : M nat :=
  emit (QdrantScroll (document_filter document_id)) ;;;
  match qdrant_scroll_raises document_id with
  | Some _ => ret 0
  | None =>
      let* stored := get_points in
      ret (length (scroll stored (document_filter document_id)))
  end.

(** No stored payload has the key "page_number". *)
Definition no_page_number (stored : list PointStruct) : Prop :=
  Forall (fun p => payload p !! "page_number" = None) stored.

(** [self.client.delete(points_selector=PointIdsList(points=point_ids))]:
    the call may raise, and then deletes nothing. The call is not logged. *)
Definition client_delete `{Env} (point_ids : list string) : M unit :=
  match qdrant_delete_raises point_ids with
  | Some e => raise e
  | None =>
      let* stored := get_points in
      set_points (delete_points stored point_ids)
  end.

(** [delete_document]: scroll for the document's points (at most 10000),
    delete them by id, return how many. An exception of the scroll or of
    the delete is logged and re-raised. *)
Definition delete_document `{Env} (document_id : string) : M nat :=
  emit (QdrantScroll (document_filter document_id)) ;;;
  match qdrant_scroll_raises document_id with
  | Some e => raise e
  | None =>
      let* stored := get_points in
      match scroll stored (document_filter document_id) with
      | [] => ret 0
      | found =>
          let point_ids := map id found in
          client_delete point_ids ;;;
          ret (length point_ids)
      end
  end.

(** The points handed to [client.upsert] by the calls logged in [t]. *)
Definition upserted (t : list event) : list PointStruct :=
  concat (map (fun e => match e with QdrantUpsert batch => batch | _ => [] end) t).

(** Every stored vector has the configured dimension. *)
Definition dimension_ok (stored : list PointStruct) : Prop :=
  Forall (fun p => length (vector_ p) = dimension) stored.

(** The points of a document. *)
Definition of_document (document_id : string) (p : PointStruct) : bool :=
  filter_holds (Some (document_filter document_id)) (payload p).

(** The points [build_points] makes, the first with the [n]-th uuid. *)
Fixpoint make_points `{Env} (document_id filename : string)
    (metadata : option (gmap string pvalue)) (n i : nat)
    (pairs : list (string * vector)) : list PointStruct :=
  match pairs with
  | [] => []
  | (chunk, embedding) :: rest =>
      {| id := uuid4 n; vector_ := embedding;
         payload := point_metadata document_id filename i chunk metadata |}
        :: make_points document_id filename metadata (S n) (S i) rest
  end.

(** The first upsert call of the loop over [bs] that raises: how many calls
    before it went through, and the exception. *)
Fixpoint first_failed_upsert `{Env} (bs : list (list PointStruct)) : option (nat * exn) :=
  match bs with
  | [] => None
  | batch :: rest =>
      match qdrant_upsert_raises (map id batch) with
      | Some e => Some (0, e)
      | None =>
          match first_failed_upsert rest with
          | Some (k, e) => Some (S k, e)
          | None => None
          end
      end
  end.

(** No upsert call of the loop over the batches of [made] raises. *)
Definition upserts_succeed `{Env} (made : list PointStruct) : Prop :=
  Forall (fun batch => qdrant_upsert_raises (map id batch) = None)
    (batches (length made) 100 made).

(** The exception, if any, that Qdrant raises while the points of a document
    are deleted from [stored]: by the scroll, or by the delete, which is
    called only when the scroll found points. *)
Definition deletion_error `{Env} (document_id : string) (stored : list PointStruct)
    : option exn :=
  match qdrant_scroll_raises document_id with
  | Some e => Some e
  | None =>
      match scroll stored (document_filter document_id) with
      | [] => None
      | found => qdrant_delete_raises (map id found)
      end
  end.

(** The caller's metadata overrides none of the five keys of a payload. *)
Definition keeps_chunk_keys (metadata : option (gmap string pvalue)) : Prop :=
  forall k, k ∈ ["document_id"; "filename"; "chunk_index"; "content"; "chunk_size"] ->
    default ∅ metadata !! k = None.

End VectorStoreService.

(** ** app/services/llm.py *)

Module LLMService.

Definition no_context : string := "No relevant context found in the document.".

(** [page_info]: the page is shown when [doc.page_number] is truthy. *)
Definition page_info (doc : SourceDocument) : string :=
  match page_number doc with
  | Some n => if bool_decide (n = 0%Z) then "" else " (Page " ++ pretty n ++ ")"
  | None => ""
  end.

Definition excerpt `{Env} (i : nat) (doc : SourceDocument) : string :=
  nl ++ "--- Excerpt " ++ pretty i ++ page_info doc
     ++ " [Relevance: " ++ format_2f (confidence_score doc) ++ "]" ++ " ---" ++ nl
     ++ sd_content doc ++ nl.

(** The loop over [enumerate(context_documents, 1)], joined. *)
Fixpoint excerpts `{Env} (i : nat) (docs : list SourceDocument) : string :=
  match docs with
  | [] => ""
  | doc :: rest => excerpt i doc ++ excerpts (S i) rest
  end.

(** [_build_context] *)
Definition _build_context `{Env} (context_documents : list SourceDocument)
    (document_filename : option string) : string :=
  match context_documents with
  | [] => no_context
  | _ =>
      (if truthy_opt_str document_filename
       then "Document: " ++ default "" document_filename ++ nl else "")
      ++ "Relevant excerpts from the document:" ++ nl
      ++ excerpts 1 context_documents
  end.

Definition system_prompt : string :=
  "You are DOCUMIND, an intelligent document analysis assistant. Your role is to help users understand and extract information from their documents through natural conversation."
  ++ nl ++ nl ++ "Guidelines:"
  ++ nl ++ "1. Answer questions based ONLY on the provided document context"
  ++ nl ++ "2. If information isn't in the context, clearly state that you cannot find it in the document"
  ++ nl ++ "3. Provide specific references to page numbers when available"
  ++ nl ++ "4. Be concise but comprehensive in your responses"
  ++ nl ++ "5. Maintain a helpful and professional tone"
  ++ nl ++ "6. If asked about topics not covered in the document, politely redirect to document-related questions"
  ++ nl ++ nl ++ "Always base your responses on the document content provided in the context.".

Definition user_message (context query : string) : string :=
  "Context from document:" ++ nl ++ context ++ nl ++ nl
  ++ "User question: " ++ query ++ nl ++ nl
  ++ "Please answer the question based on the provided context.".

(** [conversation_history[-10:]] *)
Definition last_ten {A} (l : list A) : list A := drop (length l - 10) l.

(** [_build_messages] *)
Definition _build_messages (query context : string)
    (conversation_history : option (list ChatMessage)) : list ChatMessage :=
  [ {| role := "system"; content := system_prompt |} ]
  ++ last_ten (default [] conversation_history)
  ++ [ {| role := "user"; content := user_message context query |} ].

(** [generate_response]: build the context and the messages, call the
    provider, fail when it returns no choice. *)
Definition generate_response `{Env} (query : string)
    (context_documents : list SourceDocument)
    (conversation_history : option (list ChatMessage))
    (document_filename : option string) : M string :=
  let context := _build_context context_documents document_filename in
  let messages := _build_messages query context conversation_history in
  emit (LLMCreate messages) ;;;
  match llm_create messages with
  | LLMRaises e => raise e
  | LLMChoices [] => raise (ValueError "No response generated from LLM")
  | LLMChoices (assistant_response :: _) => ret assistant_response
  end.

(** The loop of [summarize_document] that combines chunks up to
    [max_content_length]. *)
Definition max_content_length : nat := 15000.

Fixpoint combine_chunks (combined_content : string) (document_chunks : list string)
    : string :=
  match document_chunks with
  | [] => combined_content
  | chunk :: rest =>
      if (max_content_length <? String.length combined_content + String.length chunk)%nat
      then combined_content
      else combine_chunks (combined_content ++ chunk ++ nl ++ nl) rest
  end.

Definition summary_messages (combined_content filename : string) : list ChatMessage :=
  [ {| role := "system";
       content := "You are a document analysis assistant. Create a comprehensive summary of the provided document content." |};
    {| role := "user";
       content :=
         "Please provide a comprehensive summary of this document: " ++ filename
         ++ nl ++ nl ++ "Document content:" ++ nl ++ combined_content
         ++ nl ++ nl ++ "Create a summary that includes:"
         ++ nl ++ "1. Main topic/purpose"
         ++ nl ++ "2. Key points and findings"
         ++ nl ++ "3. Important details"
         ++ nl ++ "4. Structure/organization"
         ++ nl ++ nl ++ "Keep the summary informative but concise." |} ].

(** [summarize_document]: it never raises. *)
Definition summarize_document `{Env} (document_chunks : list string) (filename : string)
    (w : world) : string * world * list event :=
  let messages := summary_messages (combine_chunks "" document_chunks) filename in
  (match llm_create messages with
   | LLMRaises _ => "Error generating summary."
   | LLMChoices [] => "Unable to generate summary."
   | LLMChoices (summary :: _) => summary
   end, w, [LLMCreate messages]).

(** Chunks, each followed by a blank line. *)
Fixpoint with_breaks (chunks : list string) : string :=
  match chunks with
  | [] => ""
  | chunk :: rest => chunk ++ nl ++ nl ++ with_breaks rest
  end.

End LLMService.

(** ** app/services/document_processor.py *)

Module DocumentProcessor.

(** What [PdfReader] exposes of a file that could be opened and parsed. *)
Record pdf_file := {
  pages : list string;                    (* [page.extract_text()] per page *)
  info : option (gmap string pvalue);     (* [pdf_reader.metadata] *)
  file_size : nat
}.

(** [c.isspace()], which decides what [str.strip()] removes: among the code
    points below 256 these are U+0009..U+000D, U+001C..U+001F, the space,
    U+0085 (next line) and U+00A0 (no-break space). *)
Definition is_space (c : ascii) : bool :=
  let n := nat_of_ascii c in
  bool_decide (n = 32 \/ (9 <= n /\ n <= 13) \/ (28 <= n /\ n <= 31)
               \/ n = 133 \/ n = 160).

(** [page_text.strip()] is falsy: the page holds whitespace only. *)

Fixpoint blank (s : string) : bool :=
  match s with
  | EmptyString => true
  | String c s' => is_space c && blank s'
  end.

(** The loop over [enumerate(pdf_reader.pages)]. *)
Fixpoint text_parts (page_num : nat) (ps : list string) : list string :=
  match ps with
  | [] => []
  | page_text :: rest =>
      if blank page_text then text_parts (S page_num) rest
      else ("[Page " ++ pretty (page_num + 1) ++ "]" ++ nl ++ page_text ++ nl)%string
             :: text_parts (S page_num) rest
  end.

(** [sep.join(parts)] *)
Fixpoint join (sep : string) (parts : list string) : string :=
  match parts with
  | [] => ""
  | [x] => x
  | x :: rest => x ++ sep ++ join sep rest
  end.

Definition info_get (i : gmap string pvalue) (k : string) : pvalue :=
  default (VStr "") (i !! k).

(** [_extract_text_sync] on a readable file. *)
Definition _extract_text_sync (file_path : string) (pdf : pdf_file)
    : string * gmap string pvalue :=
  let full_text := join nl (text_parts 0 (pages pdf)) in
  let metadata : gmap string pvalue :=
    <["page_count" := VInt (Z.of_nat (length (pages pdf)))]>
      (<["text_length" := VInt (Z.of_nat (String.length full_text))]>
         (<["file_size" := VInt (Z.of_nat (file_size pdf))]>
            (<["file_path" := VStr file_path]> ∅))) in
  let metadata :=
    match info pdf with
    | Some i =>
        if bool_decide (i = ∅) then metadata
        else dict_merge metadata
               (<["title" := info_get i "/Title"]>
                  (<["author" := info_get i "/Author"]>
                     (<["subject" := info_get i "/Subject"]>
                        (<["creator" := info_get i "/Creator"]> ∅))))
    | None => metadata
    end in
  (full_text, metadata).

(** [extract_text_from_pdf]: opening or parsing the file may fail. *)
Definition extract_text_from_pdf (file_path : string) (opened : exn + pdf_file)
    : M (string * gmap string pvalue) :=
  match opened with
  | inl e => raise (Exception ("PDF processing error: " ++ str e))
  | inr pdf => ret (_extract_text_sync file_path pdf)
  end.

End DocumentProcessor.

(** ** workers/document_tasks.py, and how Celery runs the task *)

Module DocumentTasks.
Import DocumentProcessor.

(** [@celery_app.task(bind=True, max_retries=3)] *)
Definition max_retries : nat := 3.

(** What one execution of the task finds outside the process. *)
Record attempt_env := {
  doc_processor_init : option exn;      (* [os.makedirs] raised *)
  vector_store_init : option exn;       (* connecting to Qdrant raised *)
  opened : exn + pdf_file;              (* opening and parsing [file_path] *)
  request_id : string                   (* [current_task.request.id] *)
}.

Definition initialize (failure : option exn) : M unit :=
  match failure with
  | Some e => raise e
  | None => ret tt
  end.

Definition progress_meta (progress : nat) (message document_id : string)
    (pages : option pvalue) (chunks : option nat) : task_meta :=
  {| tm_status := PROCESSING; tm_progress := progress; tm_message := message;
     tm_document_id := document_id; tm_pages := pages; tm_chunks := chunks;
     tm_error := None; tm_text_length := None; tm_metadata := None |}.

(** [pdf_metadata.get(k, 0)] *)
Definition get_or_zero (pdf_metadata : gmap string pvalue) (k : string) : pvalue :=
  default (VInt 0) (pdf_metadata !! k).

(** [{**(metadata or {}), **pdf_metadata, "processing_timestamp": ...}] *)
Definition combine_metadata (metadata : option (gmap string pvalue))
    (pdf_metadata : gmap string pvalue) (request_id : string) : gmap string pvalue :=
  dict_merge (dict_merge (default ∅ metadata) pdf_metadata)
             {[ "processing_timestamp" := VStr request_id ]}.

(** The four [update_state] calls. *)
Definition extracting (document_id : string) : event :=
  UpdateState (progress_meta 10 "Extracting text from PDF..." document_id None None).

Definition extracted (document_id : string) (pdf_metadata : gmap string pvalue) : event :=
  UpdateState (progress_meta 30 "Text extracted successfully. Generating embeddings..."
                 document_id (Some (get_or_zero pdf_metadata "page_count")) None).

Definition storing (document_id : string) (pdf_metadata : gmap string pvalue) : event :=
  UpdateState (progress_meta 50 "Storing document chunks in vector database..."
                 document_id (Some (get_or_zero pdf_metadata "page_count")) None).

Definition finalizing (document_id : string) (pdf_metadata : gmap string pvalue)
    (chunks_count : nat) : event :=
  UpdateState (progress_meta 90 "Finalizing document processing..."
                 document_id (Some (get_or_zero pdf_metadata "page_count"))
                 (Some chunks_count)).

(** The dict returned on success. *)
Definition success_result (document_id : string) (pdf_metadata : gmap string pvalue)
    (combined_metadata : gmap string pvalue) (chunks_count : nat) : task_meta :=
  {| tm_status := COMPLETED; tm_progress := 100;
     tm_message := "Document processed successfully";
     tm_document_id := document_id;
     tm_pages := Some (get_or_zero pdf_metadata "page_count");
     tm_chunks := Some chunks_count; tm_error := None;
     tm_text_length := Some (get_or_zero pdf_metadata "text_length");
     tm_metadata := Some combined_metadata |}.

(** The body of the [try] block of [_process_document]. *)
Definition try_block `{Env} (env : attempt_env) (document_id file_path filename : string)
    (metadata : option (gmap string pvalue)) : M task_meta :=
  initialize (doc_processor_init env) ;;;
  initialize (vector_store_init env) ;;;
  emit (extracting document_id) ;;;
  let* extraction := extract_text_from_pdf file_path (opened env) in
  let extracted_text := extraction.1 in
  let pdf_metadata := extraction.2 in
  emit (extracted document_id pdf_metadata) ;;;
  let combined_metadata := combine_metadata metadata pdf_metadata (request_id env) in
  emit (storing document_id pdf_metadata) ;;;
  let* chunks_count :=
    VectorStoreService.process_document document_id extracted_text filename
      (Some combined_metadata) in
  emit (finalizing document_id pdf_metadata chunks_count) ;;;
  ret (success_result document_id pdf_metadata combined_metadata chunks_count).

Definition error_result (e : exn) (document_id : string) : task_meta :=
  {| tm_status := FAILED; tm_progress := 0;
     tm_message := "Processing failed: " ++ str e;
     tm_document_id := document_id; tm_pages := None; tm_chunks := None;
     tm_error := Some (str e); tm_text_length := None; tm_metadata := None |}.

(** How one execution of the task ends. *)
Inductive task_outcome :=
| Returned (result : task_meta)
| RetryRaised (countdown : nat)              (* [raise self.retry(countdown=...)] *)
| Raised (e : exn).

(** [self.retry(countdown=c)] at [self.request.retries = retries]: Celery
    refuses when the next retry count would exceed [max_retries]. *)
Definition self_retry (retries countdown : nat) : task_outcome :=
  if (max_retries <? retries + 1)%nat
  then Raised (Exception "MaxRetriesExceededError")
  else RetryRaised countdown.

(** The [except Exception as e] block: build [error_result], delete the
    uploaded file (a failure to delete is only logged), then retry or
    return. *)
Definition except_block (retries : nat) (e : exn) (document_id file_path : string)
    : task_outcome * list event :=
  (if (retries <? max_retries)%nat
   then self_retry retries (60 * (retries + 1))
   else Returned (error_result e document_id),
   [DeleteFile file_path]).

(** The task [process_document] executed with [self.request.retries = retries]. *)
Definition process_document `{Env} (env : attempt_env) (retries : nat)
    (document_id file_path filename : string) (metadata : option (gmap string pvalue))
    (w : world) : task_outcome * world * list event :=
  match try_block env document_id file_path filename metadata w with
  | (inr result, w', t) => (Returned result, w', t)
  | (inl e, w', t) =>
      let (outcome, t') := except_block retries e document_id file_path in
      (outcome, w', t ++ t')
  end.

(** What [celery_app.AsyncResult(task_id)] shows. *)
Inductive async_result :=
| PENDING
| PROGRESS (meta : task_meta)
| RETRY
| SUCCESS (result : task_meta)
| FAILURE (info : exn).

(** The job as the worker sees it: the same task identity is delivered again
    after each retry request, with the retry count incremented. [envs n] is
    what the execution with retry count [n] finds. *)
Record job := {
  executions : nat;              (* how many times the task body ran *)
  final : async_result;
  after : world;
  trace : list event
}.

Fixpoint deliver `{Env} (fuel : nat) (envs : nat -> attempt_env) (retries : nat)
    (document_id file_path filename : string) (metadata : option (gmap string pvalue))
    (w : world) : job :=
  match fuel with
  | 0 => {| executions := 0; final := RETRY; after := w; trace := [] |}
  | S fuel' =>
      match process_document (envs retries) retries document_id file_path filename metadata w with
      | (Returned result, w', t) =>
          {| executions := 1; final := SUCCESS result; after := w'; trace := t |}
      | (Raised e, w', t) =>
          {| executions := 1; final := FAILURE e; after := w'; trace := t |}
      | (RetryRaised _, w', t) =>
          let j := deliver fuel' envs (S retries) document_id file_path filename metadata w' in
          {| executions := S (executions j); final := final j; after := after j;
             trace := t ++ trace j |}
      end
  end.

(** [process_document.delay(...)] run to its end: the first delivery has
    [retries = 0]; [max_retries + 1] deliveries always suffice. *)
Definition run_job `{Env} (envs : nat -> attempt_env)
    (document_id file_path filename : string) (metadata : option (gmap string pvalue))
    (w : world) : job :=
  deliver (S max_retries) envs 0 document_id file_path filename metadata w.

(** The progress percentages one execution reports, in order: the meta of
    every [update_state] call, then the [progress] of the dict it returned,
    if it returned one. *)
Definition progress_of_event (e : event) : list nat :=
  match e with
  | UpdateState meta => [tm_progress meta]
  | _ => []
  end.

Definition updates (l : list event) : list nat := concat (map progress_of_event l).

Definition reported_progress (r : task_outcome * world * list event) : list nat :=
  updates r.2 ++
  match r.1.1 with
  | Returned result => [tm_progress result]
  | _ => []
  end.

(** A computation that makes no [update_state] call. *)
Definition quiet {A} (m : M A) : Prop := forall w, updates (m w).2 = [].

(** *** [cleanup_document] *)

(** What one execution of [cleanup_document] finds outside the process. *)
Record cleanup_env := {
  cl_vector_store_init : option exn;
  cl_doc_processor_init : option exn;
  cl_delete_file : option exn              (* [os.remove] raised *)
}.

(** The dict [cleanup_document] returns. *)
Inductive cleanup_result :=
| CleanedUp (message : string) (deleted_chunks : nat) (file_deleted : bool)
| CleanupFailed (message : string) (error : string).

(** The [try] block of [_cleanup_document]. *)
Definition cleanup_block `{Env} (env : cleanup_env) (document_id : string)
    (file_path : option string) : M cleanup_result :=
  initialize (cl_vector_store_init env) ;;;
  let* deleted_chunks := VectorStoreService.delete_document document_id in
  (if truthy_opt_str file_path
   then initialize (cl_doc_processor_init env) ;;;
        emit (DeleteFile (default "" file_path)) ;;;
        initialize (cl_delete_file env)
   else ret tt) ;;;
  ret (CleanedUp ("Cleaned up document " ++ document_id) deleted_chunks
         (truthy_opt_str file_path)).

(** The task [cleanup_document]: every exception becomes an error dict. *)
Definition cleanup_document `{Env} (env : cleanup_env) (document_id : string)
    (file_path : option string) (w : world) : cleanup_result * world * list event :=
  match cleanup_block env document_id file_path w with
  | (inr result, w', t) => (result, w', t)
  | (inl e, w', t) => (CleanupFailed ("Cleanup failed: " ++ str e) (str e), w', t)
  end.

(** *** The uploaded files on disk *)

(** What one execution finds outside the process, the file apart. *)
Record attempt_io := {
  io_doc_processor_init : option exn;
  io_vector_store_init : option exn;
  io_remove_fails : bool;                  (* [os.remove] raises *)
  io_request_id : string
}.

(** [open(file_path, 'rb')] and [PdfReader(f)] on a disk that maps a path to
    what the reader makes of the file there. *)
Definition open_pdf (files : gmap string (exn + pdf_file)) (file_path : string)
    : exn + pdf_file :=
  match files !! file_path with
  | Some r => r
  | None => inl (Exception ("[Errno 2] No such file or directory: '" ++ file_path ++ "'"))
  end.

Definition env_on (files : gmap string (exn + pdf_file)) (io : attempt_io)
    (file_path : string) : attempt_env :=
  {| doc_processor_init := io_doc_processor_init io;
     vector_store_init := io_vector_store_init io;
     opened := open_pdf files file_path;
     request_id := io_request_id io |}.

(** The disk after one execution: a failed execution removes the uploaded
    file, unless the removal itself fails. *)
Definition disk_after `{Env} (files : gmap string (exn + pdf_file)) (io : attempt_io)
    (document_id file_path filename : string) (metadata : option (gmap string pvalue))
    (w : world) : gmap string (exn + pdf_file) :=
  match (try_block (env_on files io file_path) document_id file_path filename metadata w).1.1 with
  | inl _ => if io_remove_fails io then files else delete file_path files
  | inr _ => files
  end.

(** [deliver], with every execution reading the file from the disk the
    earlier executions left. *)
Fixpoint deliver_on_disk `{Env} (fuel : nat) (ios : nat -> attempt_io)
    (files : gmap string (exn + pdf_file)) (retries : nat)
    (document_id file_path filename : string) (metadata : option (gmap string pvalue))
    (w : world) : job :=
  match fuel with
  | 0 => {| executions := 0; final := RETRY; after := w; trace := [] |}
  | S fuel' =>
      match process_document (env_on files (ios retries) file_path) retries
              document_id file_path filename metadata w with
      | (Returned result, w', t) =>
          {| executions := 1; final := SUCCESS result; after := w'; trace := t |}
      | (Raised e, w', t) =>
          {| executions := 1; final := FAILURE e; after := w'; trace := t |}
      | (RetryRaised _, w', t) =>
          let files' := disk_after files (ios retries) document_id file_path filename
                          metadata w in
          let j := deliver_on_disk fuel' ios files' (S retries) document_id file_path
                     filename metadata w' in
          {| executions := S (executions j); final := final j; after := after j;
             trace := t ++ trace j |}
      end
  end.

(** The paths handed to [delete_file] by the calls logged in [t]. *)
Definition deleted_files (t : list event) : list string :=
  concat (map (fun e => match e with DeleteFile file_path => [file_path] | _ => [] end) t).

(** A computation that deletes no file. *)
Definition keeps_files {A} (m : M A) : Prop := forall w, deleted_files (m w).2 = [].

End DocumentTasks.

(** ** app/main.py *)

Module App.
Import DocumentTasks VectorStoreService LLMService.

Record HTTPException := { status_code : nat; detail : string }.

(** One value of [documents_db]. The keys "pages" and "error" are absent
    until written; [.get] then gives [None]. *)
Record doc_info := {
  di_id : string;
  di_filename : string;
  di_size : nat;
  di_uploaded_at : nat;
  di_status : ProcessingStatus;
  di_file_path : string;
  di_task_id : option string;
  di_pages : option pvalue;
  di_error : option string
}.

(** [documents_db]: a dict, in insertion order. *)
Abbreviation documents_db := (list (string * doc_info)).

(** [documents_db.get(k)] / [k in documents_db] *)
Fixpoint db_get (db : documents_db) (k : string) : option doc_info :=
  match db with
  | [] => None
  | (k', v) :: rest => if String.eqb k' k then Some v else db_get rest k
  end.

(** [documents_db[k] = v]: an existing key keeps its place. *)
Fixpoint db_set (db : documents_db) (k : string) (v : doc_info) : documents_db :=
  match db with
  | [] => [(k, v)]
  | (k', v') :: rest => if String.eqb k' k then (k, v) :: rest
                        else (k', v') :: db_set rest k v
  end.

(** [del documents_db[k]] *)
Fixpoint db_del (db : documents_db) (k : string) : documents_db :=
  match db with
  | [] => []
  | (k', v') :: rest => if String.eqb k' k then rest else (k', v') :: db_del rest k
  end.

Definition document_response (d : doc_info) : DocumentResponse :=
  {| dr_id := di_id d; dr_filename := di_filename d; dr_size := di_size d;
     dr_uploaded_at := di_uploaded_at d; dr_status := di_status d;
     dr_pages := di_pages d; dr_error := di_error d |}.

Definition with_status (d : doc_info) (st : ProcessingStatus) : doc_info :=
  {| di_id := di_id d; di_filename := di_filename d; di_size := di_size d;
     di_uploaded_at := di_uploaded_at d; di_status := st;
     di_file_path := di_file_path d; di_task_id := di_task_id d;
     di_pages := di_pages d; di_error := di_error d |}.

Definition with_task_id (d : doc_info) (t : string) : doc_info :=
  {| di_id := di_id d; di_filename := di_filename d; di_size := di_size d;
     di_uploaded_at := di_uploaded_at d; di_status := di_status d;
     di_file_path := di_file_path d; di_task_id := Some t;
     di_pages := di_pages d; di_error := di_error d |}.

Definition with_pages (d : doc_info) (pg : option pvalue) : doc_info :=
  {| di_id := di_id d; di_filename := di_filename d; di_size := di_size d;
     di_uploaded_at := di_uploaded_at d; di_status := di_status d;
     di_file_path := di_file_path d; di_task_id := di_task_id d;
     di_pages := pg; di_error := di_error d |}.

Definition with_error (d : doc_info) (err : string) : doc_info :=
  {| di_id := di_id d; di_filename := di_filename d; di_size := di_size d;
     di_uploaded_at := di_uploaded_at d; di_status := di_status d;
     di_file_path := di_file_path d; di_task_id := di_task_id d;
     di_pages := di_pages d; di_error := Some err |}.

(** [upload_document]. [saved] is what [save_uploaded_file] did (the new
    document id and file path, or an exception), [enqueued] what
    [process_document.delay] did (the task id, or an exception such as an
    unreachable broker); [now1], [now2] are the two [datetime.utcnow()]. *)
Definition upload_document (db : documents_db) (filename : string) (size now1 now2 : nat)
    (saved : exn + string * string) (enqueued : exn + string)
    : documents_db * (HTTPException + DocumentResponse) :=
  match saved with
  | inl e => (db, inl {| status_code := 400; detail := str e |})
  | inr (document_id, file_path) =>
      let entry :=
        {| di_id := document_id; di_filename := filename; di_size := size;
           di_uploaded_at := now1; di_status := UPLOADING; di_file_path := file_path;
           di_task_id := None; di_pages := None; di_error := None |} in
      let db1 := db_set db document_id entry in
      match enqueued with
      | inl e => (db1, inl {| status_code := 400; detail := str e |})
      | inr task_id =>
          let db2 := db_set db1 document_id (with_task_id entry task_id) in
          let db3 := db_set db2 document_id
                       (with_status (with_task_id entry task_id) PROCESSING) in
          (db3, inr {| dr_id := document_id; dr_filename := filename; dr_size := size;
                       dr_uploaded_at := now2; dr_status := PROCESSING;
                       dr_pages := None; dr_error := None |})
      end
  end.

(** The refresh [get_document_status] does while the document is
    PROCESSING and has a task id. *)
Definition refresh (d : doc_info) (results : string -> async_result) : doc_info :=
  if bool_decide (di_status d = PROCESSING) && truthy_opt_str (di_task_id d)
  then
    match results (default "" (di_task_id d)) with
    | SUCCESS task_result =>
        with_pages (with_status d (tm_status task_result)) (tm_pages task_result)
    | FAILURE info => with_error (with_status d FAILED) (str info)
    | _ => d
    end
  else d.

(** [get_document_status]; [results] is the Celery result backend. *)
Definition get_document_status (db : documents_db) (document_id : string)
    (results : string -> async_result)
    : documents_db * (HTTPException + DocumentResponse) :=
  match db_get db document_id with
  | None => (db, inl {| status_code := 404; detail := "Document not found" |})
  | Some d =>
      let d' := refresh d results in
      (db_set db document_id d', inr (document_response d'))
  end.

(** Insertion keeping [uploaded_at] descending. [list_documents] inserts
    the later entries first, so [x] stays in front of the entries uploaded at
    the same time: [sort(key=..., reverse=True)] is stable. *)
Fixpoint insert_newest (x : DocumentResponse) (l : list DocumentResponse)
    : list DocumentResponse :=
  match l with
  | [] => [x]
  | y :: l' => if (dr_uploaded_at y <=? dr_uploaded_at x)%nat then x :: y :: l'
               else y :: insert_newest x l'
  end.

(** [list_documents] *)
Definition list_documents (db : documents_db) : list DocumentResponse :=
  foldr insert_newest [] (map (fun kv => document_response kv.2) db).

(** [SourceDocument(content=..., page_number=..., confidence_score=...)] from
    one search result; pydantic rejects a content that is not a string. A
    page number stored as a string is rejected here too (pydantic would
    accept a numeric string; nothing in the repository stores one). *)
Definition source_document (result : hit) : M SourceDocument :=
  match h_content result with
  | VStr c =>
      match h_metadata result !! "page_number" with
      | None =>
          ret {| sd_content := c; page_number := None; confidence_score := h_score result |}
      | Some (VInt n) =>
          ret {| sd_content := c; page_number := Some n; confidence_score := h_score result |}
      | Some (VStr _) => raise (ValidationError "page_number")
      end
  | VInt _ => raise (ValidationError "content")
  end.

(** What [chat_with_document] does once the document is known to be
    COMPLETED. *)
Definition chat_body `{Env} (request : ChatRequest) (d : doc_info) : M ChatResponse :=
  let* doc_stats := get_document_stats (document_id request) in
  let* search_results :=
    search_similar (message request) (Some (document_id request)) 5 (1 # 2) in
  let* source_docs := map_m source_document search_results in
  let* llm_result :=
    generate_response (message request) source_docs (conversation_history request)
      (Some (di_filename d)) in
  ret {| response := llm_result; sources := source_docs;
         cr_document_id := document_id request |}.

(** The citation [s] is built from the hit [h]: its content and score, and
    the "page_number" entry of its metadata. *)
Definition cites (h : hit) (s : SourceDocument) : Prop :=
  h_content h = VStr (sd_content s) /\
  confidence_score s = h_score h /\
  page_number s = match h_metadata h !! "page_number" with
                  | Some (VInt n) => Some n
                  | _ => None
                  end.

Definition not_ready `{Env} (st : ProcessingStatus) : HTTPException :=
  {| status_code := 400;
     detail := "Document is not ready for chat. Status: " ++ format_status st |}.

(** [chat_with_document] *)
Definition chat_with_document `{Env} (db : documents_db) (request : ChatRequest)
    (w : world) : (HTTPException + ChatResponse) * world * list event :=
  match db_get db (document_id request) with
  | None => (inl {| status_code := 404; detail := "Document not found" |}, w, [])
  | Some d =>
      if bool_decide (di_status d = COMPLETED)
      then
        match chat_body request d w with
        | (inr r, w', t) => (inr r, w', t)
        | (inl e, w', t) =>
            (inl {| status_code := 500; detail := "Failed to process chat request" |}, w', t)
        end
      else (inl (not_ready (di_status d)), w, [])
  end.

(** The [SearchResult] made of one formatted result; pydantic rejects
    fields that are not strings (and, as in [source_document], a page number
    stored as a string). *)
Definition search_result (result : hit) : M SearchResult :=
  match h_content result, h_document_id result, h_filename result with
  | VStr c, VStr d, VStr f =>
      match h_metadata result !! "page_number" with
      | None =>
          ret {| sr_content := c; sr_document_id := d; sr_filename := f;
                 sr_page_number := None; sr_confidence_score := h_score result |}
      | Some (VInt n) =>
          ret {| sr_content := c; sr_document_id := d; sr_filename := f;
                 sr_page_number := Some n; sr_confidence_score := h_score result |}
      | Some (VStr _) => raise (ValidationError "page_number")
      end
  | _, _, _ => raise (ValidationError "results")
  end.

Definition search_body `{Env} (request : SearchRequest) : M SearchResponse :=
  let* search_results :=
    search_similar (query request) (sr_document_id_filter request) (limit request)
      (6 # 10) in
  let* formatted_results := map_m search_result search_results in
  ret {| results := formatted_results; sr_query := query request;
         total_results := length formatted_results |}.

(** [search_documents] *)
Definition search_documents `{Env} (request : SearchRequest) (w : world)
    : (HTTPException + SearchResponse) * world * list event :=
  match search_body request w with
  | (inr r, w', t) => (inr r, w', t)
  | (inl e, w', t) =>
      (inl {| status_code := 500; detail := "Failed to process search request" |}, w', t)
  end.

(** The cleanup a deletion schedules:
    [cleanup_document.delay(document_id=..., file_path=...)]. *)
Record scheduled_cleanup := {
  sc_document_id : string;
  sc_file_path : option string
}.

(** [delete_document] (the endpoint): the record is removed at once, the
    cleanup runs later. *)
Definition delete_document (db : documents_db) (document_id : string)
    : documents_db * (HTTPException + string * scheduled_cleanup) :=
  match db_get db document_id with
  | None => (db, inl {| status_code := 404; detail := "Document not found" |})
  | Some d =>
      (db_del db document_id,
       inr (("Document " ++ document_id ++ " deleted successfully")%string,
            {| sc_document_id := document_id; sc_file_path := Some (di_file_path d) |}))
  end.

(** The keys of the registry: a dict has each key once. *)
Definition keys (db : documents_db) : list string := map fst db.

(** Each key occurs once, and each record is stored under its own id. *)
Definition well_keyed (db : documents_db) : Prop :=
  NoDup (keys db) /\ Forall (fun kv => di_id kv.2 = kv.1) db.

(** [uploaded_at] of [a] is not before that of [b]. *)
Definition not_older (a b : DocumentResponse) : Prop :=
  dr_uploaded_at b <= dr_uploaded_at a.

(** The responses uploaded at time [n], in the order of [l]. *)
Definition uploaded_at_time (n : nat) (l : list DocumentResponse) : list DocumentResponse :=
  List.filter (fun r => dr_uploaded_at r =? n)%nat l.

(** The result [a] is at least as relevant as [b]. *)
Definition no_less_relevant (a b : SearchResult) : Prop :=
  (sr_confidence_score b <= sr_confidence_score a)%Q.

(** The search result [r] is made of the hit [h]. *)
Definition shows (h : hit) (r : SearchResult) : Prop :=
  h_content h = VStr (sr_content r) /\
  h_document_id h = VStr (sr_document_id r) /\
  h_filename h = VStr (sr_filename r) /\
  sr_confidence_score r = h_score h.

End App.

(** ** Concrete collaborators and runs of the model *)

Module Fixtures.
Import Qdrant EmbeddingService VectorStoreService DocumentProcessor DocumentTasks App.

Definition zeros : vector := repeat (0 # 1) 768.

(** A provider that answers every text with a 768-dimensional vector, a
    splitter that keeps a non-empty text in one chunk, a collection that
    scores every point 0.9, a model that always answers. *)
Definition well_behaved : Env := {|
  nomic_embed_text := fun texts _ _ => NomicEmbeddings (map (fun _ => zeros) texts);
  similarity := fun _ _ => 9 # 10;
  split_text := fun text => if truthy_str text then [text] else [];
  uuid4 := fun n => ("uuid-" ++ pretty n)%string;
  llm_create := fun _ => LLMChoices ["Within 30 days."];
  format_2f := fun _ => "0.90";
  format_status := status_value;
  qdrant_search_raises := fun _ => None;
  qdrant_upsert_raises := fun _ => None;
  qdrant_scroll_raises := fun _ => None;
  qdrant_delete_raises := fun _ => None
|}.


(** A provider whose second vector has the wrong dimension. *)
Definition drifted : Env := {|
  nomic_embed_text := fun _ _ _ =>
    NomicEmbeddings [zeros; [0 # 1; 0 # 1; 0 # 1]];
  similarity := fun _ _ => 9 # 10;
  split_text := fun text => [text];
  uuid4 := fun n => ("uuid-" ++ pretty n)%string;
  llm_create := fun _ => LLMChoices ["answer"];
  format_2f := fun _ => "0.90";
  format_status := status_value;
  qdrant_search_raises := fun _ => None;
  qdrant_upsert_raises := fun _ => None;
  qdrant_scroll_raises := fun _ => None;
  qdrant_delete_raises := fun _ => None
|}.

Definition empty_world : world := {| points := []; uuid_count := 0 |}.

(** An execution that finds a file [PdfReader] cannot parse. *)
Definition unreadable : attempt_env := {|
  doc_processor_init := None;
  vector_store_init := None;
  opened := inl (Exception "EOF marker not found");
  request_id := "task-1"
|}.

(** An execution that finds a one-page PDF. *)
Definition one_page : attempt_env := {|
  doc_processor_init := None;
  vector_store_init := None;
  opened := inr {| pages := ["Invoices are due within 30 days."]; info := None;
                   file_size := 1024 |};
  request_id := "task-1"
|}.

(** The metadata [upload_document] passes to the task. *)
Definition uploaded_by_user : option (gmap string pvalue) :=
  Some {[ "uploaded_by" := VStr "user" ]}.

(** The collection after two documents were ingested. *)
Definition after_a : world :=
  (@process_document well_behaved one_page 0 "doc-a" "/uploads/a.pdf" "a.pdf"
     uploaded_by_user empty_world).1.2.

Definition two_documents : world :=
  (@process_document well_behaved one_page 0 "doc-b" "/uploads/b.pdf" "b.pdf"
     uploaded_by_user after_a).1.2.

(** A search restricted to the first of them. *)
Definition search_a : (exn + list hit) * world * list event :=
  @search_similar well_behaved "When are invoices due?" (Some "doc-a") 5 (1 # 2)
    two_documents.

Definition hits_a : list hit :=
  match search_a.1.1 with
  | inr hits => hits
  | inl _ => []
  end.

(** The registry with the first document COMPLETED, and with it still
    PROCESSING. *)
Definition entry_a (st : ProcessingStatus) : doc_info :=
  {| di_id := "doc-a"; di_filename := "a.pdf"; di_size := 1024; di_uploaded_at := 1;
     di_status := st; di_file_path := "/uploads/a.pdf"; di_task_id := Some "task-1";
     di_pages := None; di_error := None |}.

Definition request_a : ChatRequest :=
  {| message := "When are invoices due?"; document_id := "doc-a";
     conversation_history := None |}.

Definition chat_a : (HTTPException + ChatResponse) * world * list event :=
  @chat_with_document well_behaved [("doc-a", entry_a COMPLETED)] request_a after_a.

Definition answer_a : ChatResponse :=
  match chat_a.1.1 with
  | inr resp => resp
  | inl _ => {| response := ""; sources := []; cr_document_id := "" |}
  end.



(** A job every execution of which finds the unreadable file. *)
Definition always_unreadable : nat -> attempt_env := fun _ => unreadable.

Definition failing_job : job :=
  @run_job well_behaved always_unreadable "doc-a" "/uploads/a.pdf" "a.pdf"
    uploaded_by_user empty_world.

(** The last execution of that job. *)
Definition last_execution : task_outcome * world * list event :=
  @process_document well_behaved unreadable 3 "doc-a" "/uploads/a.pdf" "a.pdf"
    uploaded_by_user empty_world.

(** The text of the one-page document, its only chunk and the point stored
    for it. *)
Definition invoice_text : string := "Invoices are due within 30 days.".

Definition stored_point : PointStruct :=
  {| id := "uuid-0"; vector_ := zeros;
     payload := @point_metadata "doc-a" "a.pdf" 0 invoice_text uploaded_by_user |}.

(** The first execution of the job for "doc-a" and the result it returns. *)
Definition first_execution : task_outcome * world * list event :=
  @process_document well_behaved one_page 0 "doc-a" "/uploads/a.pdf" "a.pdf"
    uploaded_by_user empty_world.

Definition result_a : task_meta :=
  match first_execution.1.1 with
  | Returned result => result
  | _ => error_result (Exception "no result") "doc-a"
  end.

(** A result backend that holds this result for every task id. *)
Definition finished : string -> async_result := fun _ => SUCCESS result_a.

(** A cleanup whose [os.remove] fails. *)
Definition cleanup_file_locked : cleanup_env :=
  {| cl_vector_store_init := None; cl_doc_processor_init := None;
     cl_delete_file := Some (Exception "Permission denied") |}.

(** A splitter that makes one chunk of every character. *)
Definition letters (text : string) : list string :=
  (fun c => String c EmptyString) <$> String.list_ascii_of_string text.

(** A provider that answers every batch with a single vector. *)
Definition short_answer : Env := {|
  nomic_embed_text := fun _ _ _ => NomicEmbeddings [zeros];
  similarity := fun _ _ => 9 # 10;
  split_text := letters;
  uuid4 := fun n => ("uuid-" ++ pretty n)%string;
  llm_create := fun _ => LLMChoices ["answer"];
  format_2f := fun _ => "0.90";
  format_status := status_value;
  qdrant_search_raises := fun _ => None;
  qdrant_upsert_raises := fun _ => None;
  qdrant_scroll_raises := fun _ => None;
  qdrant_delete_raises := fun _ => None
|}.

(** A collection that refuses the batch starting with the 101st point. *)
Definition second_batch_fails : Env := {|
  nomic_embed_text := fun texts _ _ => NomicEmbeddings (map (fun _ => zeros) texts);
  similarity := fun _ _ => 9 # 10;
  split_text := letters;
  uuid4 := fun n => ("uuid-" ++ pretty n)%string;
  llm_create := fun _ => LLMChoices ["answer"];
  format_2f := fun _ => "0.90";
  format_status := status_value;
  qdrant_search_raises := fun _ => None;
  qdrant_upsert_raises := fun ids =>
    match ids with
    | first :: _ => if String.eqb first "uuid-100" then Some (Exception "timed out")
                    else None
    | [] => None
    end;
  qdrant_scroll_raises := fun _ => None;
  qdrant_delete_raises := fun _ => None
|}.

(** A text of 250 characters: three batches. *)
Definition long_text : string := String.string_of_list_ascii (replicate 250 "a"%char).

Definition stored_long : (exn + nat) * world * list event :=
  @VectorStoreService.process_document second_batch_fails "doc-a" long_text "a.pdf"
    uploaded_by_user empty_world.

(** A collection that cannot be reached. *)
Definition qdrant_down : Env := {|
  nomic_embed_text := fun texts _ _ => NomicEmbeddings (map (fun _ => zeros) texts);
  similarity := fun _ _ => 9 # 10;
  split_text := fun text => if truthy_str text then [text] else [];
  uuid4 := fun n => ("uuid-" ++ pretty n)%string;
  llm_create := fun _ => LLMChoices ["answer"];
  format_2f := fun _ => "0.90";
  format_status := status_value;
  qdrant_search_raises := fun _ => Some (Exception "Connection refused");
  qdrant_upsert_raises := fun _ => Some (Exception "Connection refused");
  qdrant_scroll_raises := fun _ => Some (Exception "Connection refused");
  qdrant_delete_raises := fun _ => Some (Exception "Connection refused")
|}.

(** A page that holds one no-break space. *)
Definition blank_page_pdf : pdf_file :=
  {| pages := [String (ascii_of_nat 160) EmptyString]; info := None; file_size := 512 |}.

(** The search endpoint asked about the first document. *)
Definition search_request_a : SearchRequest :=
  {| query := "When are invoices due?"; sr_document_id_filter := Some "doc-a";
     limit := 5 |}.

Definition searched_a : (HTTPException + SearchResponse) * world * list event :=
  @search_documents well_behaved search_request_a two_documents.

Definition response_a : SearchResponse :=
  match searched_a.1.1 with
  | inr resp => resp
  | inl _ => {| results := []; sr_query := ""; total_results := 0 |}
  end.

(** A disk holding one file that [PdfReader] cannot parse, and executions
    that meet no other failure. *)
Definition disk_unreadable : gmap string (exn + pdf_file) :=
  {[ "/uploads/a.pdf" := inl (Exception "EOF marker not found") ]}.

Definition io_ok : attempt_io :=
  {| io_doc_processor_init := None; io_vector_store_init := None;
     io_remove_fails := false; io_request_id := "task-1" |}.

Definition first_failure : exn :=
  match (@try_block well_behaved (env_on disk_unreadable io_ok "/uploads/a.pdf") "doc-a"
           "/uploads/a.pdf" "a.pdf" uploaded_by_user empty_world).1.1 with
  | inl e => e
  | inr _ => Exception "no failure"
  end.

End Fixtures.

(** * Properties *)

(** ** The monad *)

Section Monad.
Context {A B : Type}.

Lemma bind_ret (a : A) (k : A -> M B) (w : world) :
  bind (ret a) k w = k a w.
Proof. unfold bind, ret. by destruct (k a w) as [[r w'] t]. Qed.

Lemma bind_raise (e : exn) (k : A -> M B) (w : world) :
  bind (raise e) k w = (inl e, w, []).
Proof. reflexivity. Qed.

Lemma bind_emit (ev : event) (k : unit -> M B) (w : world) :
  bind (emit ev) k w = let '(r, w', t) := k tt w in (r, w', ev :: t).
Proof. unfold bind, emit. by destruct (k tt w) as [[r w'] t]. Qed.

End Monad.

(** ** Embedding gateway *)

Section Embeddings.
Context `{Env}.
Import EmbeddingService.

Lemma first_bad_dimension_None (i : nat) (embeddings : list vector) :
  first_bad_dimension i embeddings = None <->
  Forall (fun v => length v = dimension) embeddings.
Proof.
  revert i. induction embeddings as [|v rest IH]; intros i; simpl.
  - split; [constructor | done].
  - case_bool_decide as Hv.
    + rewrite IH. split; [by constructor | by inversion 1].
    + split; [done | inversion 1; contradiction].
Qed.

Lemma first_bad_dimension_Some (i j n : nat) (embeddings : list vector) :
  first_bad_dimension i embeddings = Some (j, n) ->
  exists v, embeddings !! (j - i) = Some v /\ length v = n /\ n <> dimension /\ i <= j
            /\ Forall (fun v => length v = dimension) (take (j - i) embeddings).
Proof.
  revert i. induction embeddings as [|v rest IH]; intros i; simpl; [done|].
  case_bool_decide as Hv.
  - intros Hr. destruct (IH _ Hr) as (v' & Hl & Hn & Hne & Hle & Hpre).
    replace (j - i) with (S (j - S i)) by lia. simpl.
    exists v'. repeat split; try done; try lia. by constructor.
  - intros [= <- <-]. exists v. rewrite Nat.sub_diag. simpl.
    repeat split; try done; constructor.
Qed.

Lemma generate_embeddings_sync_run (texts : list string) (w : world) :
  _generate_embeddings_sync texts w =
  (match nomic_embed_text texts model search_document with
   | NomicRaises e => inl (generation_failed (str e))
   | NomicFalsy | NomicNoEmbeddings => inl (generation_failed "Invalid response from Nomic API")
   | NomicEmbeddings embeddings =>
       match first_bad_dimension 0 embeddings with
       | Some (i, n) => inl (generation_failed (unexpected_dimension_msg i n))
       | None => inr embeddings
       end
   end, w, [document_call texts]).
Proof.
  unfold _generate_embeddings_sync. rewrite bind_emit.
  destruct (nomic_embed_text texts model search_document) as [e| | |embeddings]; try done.
  by destruct (first_bad_dimension 0 embeddings) as [[i n]|].
Qed.

Lemma get_embeddings_nonempty (texts : list string) (w : world) :
  texts <> [] -> get_embeddings texts w = _generate_embeddings_sync texts w.
Proof. by destruct texts. Qed.

(** Whatever [get_embeddings] returns has the configured dimension. *)
Lemma get_embeddings_dimension (texts : list string) (w w' : world)
    (out : list vector) (t : list event) :
  get_embeddings texts w = (inr out, w', t) ->
  Forall (fun v => length v = dimension) out.
Proof.
  destruct texts as [|x texts]; [by intros [= <- _ _]|].
  rewrite get_embeddings_nonempty by done. rewrite generate_embeddings_sync_run.
  destruct (nomic_embed_text _ _ _) as [e| | |embeddings]; try done.
  destruct (first_bad_dimension 0 embeddings) as [[i n]|] eqn:Hb; [done|].
  intros [= <- _ _]. by apply first_bad_dimension_None in Hb.
Qed.

(** C6. Every vector of the provider's answer to a batch is checked against
    the configured dimension, 768: when all have it the answer is returned
    as it is (nothing is cut or padded); when one does not, the whole batch
    fails with the error naming the first offending vector and its length. *)
Theorem embeddings_dimension_validated (texts : list string)
    (embeddings : list vector) (w : world) :
  texts <> [] ->
  nomic_embed_text texts model search_document = NomicEmbeddings embeddings ->
  dimension = 768 /\
  ((Forall (fun v => length v = dimension) embeddings /\
    get_embeddings texts w = (inr embeddings, w, [document_call texts]))
   \/
   (exists i v, embeddings !! i = Some v /\ length v <> dimension /\
      get_embeddings texts w =
        (inl (Exception ("Nomic embedding generation failed: "
                ++ "Unexpected embedding dimension for text " ++ pretty i ++ ": "
                ++ pretty (length v) ++ " != " ++ pretty 768)),
         w, [document_call texts]))).
Proof.
  intros Hne Hresp. split; [done|].
  rewrite get_embeddings_nonempty by done. rewrite generate_embeddings_sync_run, Hresp.
  destruct (first_bad_dimension 0 embeddings) as [[i n]|] eqn:Hb.
  - right. destruct (first_bad_dimension_Some _ _ _ _ Hb) as (v & Hl & Hn & Hd & _ & _).
    rewrite Nat.sub_0_r in Hl. exists i, v. subst n. by repeat split.
  - left. by apply first_bad_dimension_None in Hb.
Qed.

Lemma get_query_embedding_trace (query : string) (w : world) :
  (get_query_embedding query w).2 = [NomicEmbedText [query] model search_query].
Proof.
  unfold get_query_embedding, _generate_query_embedding_sync. rewrite bind_emit.
  destruct (nomic_embed_text [query] model search_query) as [e| | |[|v vs]]; try done.
  by case_bool_decide.
Qed.

(** C9, as amended. [get_embeddings] makes one provider call that carries
    the texts in input order and hands back the provider's answer as it is:
    the same vectors, in the same order, as many as the provider returned.
    The output is in one-to-one, order-preserving correspondence with the
    input texts when the provider's answer is ([f] gives the vector of a
    text); the number of vectors is not checked against the number of
    texts. An empty input gives an empty output and no call is made. *)
Theorem get_embeddings_relays_provider_answer (texts : list string) (w : world) :
  get_embeddings [] w = (inr [], w, []) /\
  (texts <> [] ->
     (get_embeddings texts w).2 = [document_call texts] /\
     (get_embeddings texts w).1.2 = w /\
     forall out, (get_embeddings texts w).1.1 = inr out <->
       nomic_embed_text texts model search_document = NomicEmbeddings out /\
       Forall (fun v => length v = dimension) out) /\
  (forall f : string -> vector,
     nomic_embed_text texts model search_document = NomicEmbeddings (f <$> texts) ->
     (forall out w' t, get_embeddings texts w = (inr out, w', t) ->
        length out = length texts /\ (forall i, out !! i = f <$> texts !! i)) /\
     (texts <> [] -> Forall (fun v => length v = dimension) (f <$> texts) ->
        get_embeddings texts w = (inr (f <$> texts), w, [document_call texts]))).
Proof.
  split; [done|]. split.
  - intros Hne. rewrite get_embeddings_nonempty by done.
    rewrite generate_embeddings_sync_run. cbn [fst snd].
    split; [done|]. split; [done|]. intros out.
    destruct (nomic_embed_text texts model search_document)
      as [e| | |embeddings]; try (split; [done | by intros [? _]]).
    destruct (first_bad_dimension 0 embeddings) as [[i n]|] eqn:Hb.
    + split; [done|]. intros [[= ->] Hdim].
      apply (first_bad_dimension_None 0) in Hdim. congruence.
    + apply first_bad_dimension_None in Hb. split.
      * by intros [= <-].
      * by intros [[= ->] _].
  - intros f Hresp. split.
    + intros out w' t. destruct texts as [|x texts]; [by intros [= <- _ _]|].
      rewrite get_embeddings_nonempty by done.
      rewrite generate_embeddings_sync_run, Hresp.
      destruct (first_bad_dimension 0 _) as [[i n]|]; [done|].
      intros [= <- _ _]. split; [by rewrite <- (length_fmap f (x :: texts))|].
      intros i. by rewrite <- (list_lookup_fmap f (x :: texts)).
    + intros Hne Hdim. rewrite get_embeddings_nonempty by done.
      rewrite generate_embeddings_sync_run, Hresp.
      apply (first_bad_dimension_None 0) in Hdim. by rewrite Hdim.
Qed.

End Embeddings.

(** ** Vector store gateway *)

Section VectorStore.
Context `{Env}.
Import Qdrant EmbeddingService VectorStoreService.

Lemma client_upsert_run (batch : list PointStruct) (w : world) :
  client_upsert batch w =
  match qdrant_upsert_raises (map id batch) with
  | Some e => (inl e, w, [QdrantUpsert batch])
  | None =>
      (inr tt, {| points := upsert (points w) batch; uuid_count := uuid_count w |},
       [QdrantUpsert batch])
  end.
Proof.
  unfold client_upsert. rewrite bind_emit.
  by destruct (qdrant_upsert_raises (map id batch)).
Qed.

Lemma silent_ret {A} (a : A) : silent (ret a).
Proof. intros w. by eexists. Qed.

Lemma silent_raise {A} (e : exn) : silent (raise (A:=A) e).
Proof. intros w. by eexists. Qed.

Lemma silent_bind {A B} (m : M A) (k : A -> M B) :
  silent m -> (forall a, silent (k a)) -> silent (bind m k).
Proof.
  intros Hm Hk w. unfold bind. destruct (Hm w) as [[e|a] ->]; [by eexists|].
  destruct (Hk a w) as [r ->]. by eexists.
Qed.

Lemma silent_map_m {A B} (f : A -> M B) (l : list A) :
  (forall x, silent (f x)) -> silent (map_m f l).
Proof.
  intros Hf. induction l as [|x l IH]; simpl; [apply silent_ret|].
  apply silent_bind; [done|]. intros y.
  apply silent_bind; [done|]. intros ys. apply silent_ret.
Qed.

Lemma silent_subscript (p : gmap string pvalue) (k : string) : silent (subscript p k).
Proof. unfold subscript. destruct (p !! k); [apply silent_ret | apply silent_raise]. Qed.

Lemma silent_format_result (result : ScoredPoint) : silent (format_result result).
Proof.
  unfold format_result.
  repeat (apply silent_bind; [apply silent_subscript | intros ?]).
  apply silent_ret.
Qed.

(** What [search_similar] does, step by step. *)
Lemma search_similar_run (query : string) (document_id : option string)
    (limit : nat) (score_threshold : Q) (w : world) :
  search_similar query document_id limit score_threshold w =
  match get_embeddings [query] w with
  | (inl e, w', t) => (inl e, w', t)
  | (inr [], w', t) => (inl (IndexError "list index out of range"), w', t)
  | (inr (q0 :: _), w', t) =>
      (match qdrant_search_raises q0 with
       | Some e => inl e
       | None =>
           (map_m format_result
              (search (points w') q0 (search_filter document_id) limit score_threshold)
              w').1.1
       end,
       w',
       t ++ [QdrantSearch q0 (search_filter document_id) limit score_threshold])
  end.
Proof.
  unfold search_similar, bind at 1.
  destruct (get_embeddings [query] w) as [[[e|[|q0 qs]] w'] t]; try done.
  - unfold raise. by rewrite app_nil_r.
  - rewrite bind_emit. destruct (qdrant_search_raises q0) as [e|]; [done|].
    unfold bind, get_points.
    destruct (silent_map_m format_result
                (search (points w') q0 (search_filter document_id) limit score_threshold)
                silent_format_result w') as [r ->].
    simpl. done.
Qed.

(** The embedding call made for a query carries the document task type. *)
Lemma get_embeddings_query_trace (query : string) (w : world) :
  (get_embeddings [query] w).2 = [document_call [query]]
  /\ (get_embeddings [query] w).1.2 = w.
Proof. simpl. by rewrite generate_embeddings_sync_run. Qed.

(** C3. Every search embeds the question with one provider call whose task
    type is [search_document], the task type of ingestion, and never with
    [search_query]: [get_query_embedding] is not on the query path. *)
Theorem search_similar_embeds_query_as_document (query : string)
    (document_id : option string) (limit : nat) (score_threshold : Q) (w : world) :
  let t := (search_similar query document_id limit score_threshold w).2 in
  (exists rest, t = NomicEmbedText [query] model search_document :: rest) /\
  (forall texts m, NomicEmbedText texts m search_query ∉ t) /\
  (get_query_embedding query w).2 = [NomicEmbedText [query] model search_query].
Proof.
  simpl. rewrite search_similar_run.
  destruct (get_embeddings_query_trace query w) as [Ht Hw].
  destruct (get_embeddings [query] w) as [[[e|[|q0 qs]] w'] t]; simpl in *; subst t.
  - split; [by eexists|]. split; [|by apply get_query_embedding_trace].
    intros texts m Hin. by apply list_elem_of_singleton in Hin.
  - split; [by eexists|]. split; [|by apply get_query_embedding_trace].
    intros texts m Hin. by apply list_elem_of_singleton in Hin.
  - split; [by eexists|]. split; [|by apply get_query_embedding_trace].
    intros texts m Hin. simpl in Hin.
    apply elem_of_cons in Hin as [Hin|Hin]; [done|].
    by apply list_elem_of_singleton in Hin.
Qed.

Lemma insert_desc_Forall (P : ScoredPoint -> Prop) (x : ScoredPoint) (l : list ScoredPoint) :
  P x -> Forall P l -> Forall P (insert_desc x l).
Proof.
  intros Hx. induction 1 as [|y l Hy Hl IH]; simpl.
  - by repeat constructor.
  - destruct (Qle_bool (score y) (score x)); by repeat constructor.
Qed.

Lemma sort_desc_Forall (P : ScoredPoint -> Prop) (l : list ScoredPoint) :
  Forall P l -> Forall P (sort_desc l).
Proof.
  induction 1 as [|x l Hx Hl IH]; simpl; [constructor|].
  by apply insert_desc_Forall.
Qed.

Lemma Forall_List_filter {A} (P : A -> Prop) (g : A -> bool) (l : list A) :
  Forall P l -> Forall P (List.filter g l).
Proof.
  induction 1 as [|x l Hx Hl IH]; simpl; [constructor|].
  destruct (g x); by try constructor.
Qed.

Lemma List_filter_Forall {A} (g : A -> bool) (l : list A) :
  Forall (fun x => g x = true) (List.filter g l).
Proof.
  induction l as [|x l IH]; simpl; [constructor|].
  destruct (g x) eqn:Hg; by try constructor.
Qed.

(** Every scored point Qdrant returns passes the query filter. *)
Lemma search_respects_filter (stored : list PointStruct) (query_vector : vector)
    (query_filter : option Filter) (limit : nat) (score_threshold : Q) :
  Forall (fun s => filter_holds query_filter (sp_payload s) = true)
         (search stored query_vector query_filter limit score_threshold).
Proof.
  unfold search. apply Forall_take, sort_desc_Forall, Forall_List_filter.
  apply Forall_fmap. apply (List_filter_Forall (fun p => filter_holds query_filter (payload p))).
Qed.

(** And reaches the score threshold. *)
Lemma search_respects_threshold (stored : list PointStruct) (query_vector : vector)
    (query_filter : option Filter) (limit : nat) (score_threshold : Q) :
  Forall (fun s => Qle_bool score_threshold (score s) = true)
         (search stored query_vector query_filter limit score_threshold).
Proof.
  unfold search. apply Forall_take, sort_desc_Forall.
  apply (List_filter_Forall (fun s => Qle_bool score_threshold (score s))).
Qed.

Lemma search_length (stored : list PointStruct) (query_vector : vector)
    (query_filter : option Filter) (limit : nat) (score_threshold : Q) :
  length (search stored query_vector query_filter limit score_threshold) <= limit.
Proof. unfold search. rewrite length_take. lia. Qed.

Lemma format_result_inr (result : ScoredPoint) (w w' : world) (h : hit) (t : list event) :
  format_result result w = (inr h, w', t) -> formats result h.
Proof.
  unfold format_result, bind, subscript, ret, raise.
  destruct (sp_payload result !! "content") as [c|] eqn:Hc; [|done].
  destruct (sp_payload result !! "document_id") as [d|] eqn:Hd; [|done].
  destruct (sp_payload result !! "filename") as [f|] eqn:Hf; [|done].
  destruct (sp_payload result !! "chunk_index") as [i|] eqn:Hi; [|done].
  intros [= <- _ _]. repeat split; try done. simpl.
  intros k. rewrite map_lookup_filter.
  destruct (sp_payload result !! k) as [v|] eqn:Hk; simpl.
  - case_bool_decide as Hin; simpl.
    + rewrite option_guard_False; [done|]. simpl. by intros ?.
    + by rewrite option_guard_True.
  - by case_bool_decide.
Qed.

Lemma map_m_format_result_inr (results : list ScoredPoint) (w w' : world)
    (hits : list hit) (t : list event) :
  map_m format_result results w = (inr hits, w', t) -> Forall2 formats results hits.
Proof.
  revert hits w w' t. induction results as [|r results IH]; intros hits w w' t; simpl.
  - intros [= <- _ _]. constructor.
  - unfold bind at 1.
    destruct (format_result r w) as [[[e|h] w1] t1] eqn:Hr; [done|].
    unfold bind at 1.
    destruct (map_m format_result results w1) as [[[e|hs] w2] t2] eqn:Hrs; [done|].
    simpl. intros [= <- _ _]. constructor; [by eapply format_result_inr | by eapply IH].
Qed.

(** The hits of a successful search are the formatted results of the Qdrant
    search made on the stored points. *)
Lemma search_similar_inr (query : string) (document_id : option string)
    (limit : nat) (score_threshold : Q) (w w' : world) (hits : list hit) (t : list event) :
  search_similar query document_id limit score_threshold w = (inr hits, w', t) ->
  w' = w /\
  exists q0, Forall2 formats
     (search (points w) q0 (search_filter document_id) limit score_threshold) hits.
Proof.
  rewrite search_similar_run.
  destruct (get_embeddings_query_trace query w) as [_ Hw].
  destruct (get_embeddings [query] w) as [[[e|[|q0 qs]] w1] t1]; simpl in *; try done.
  subst w1. destruct (qdrant_search_raises q0) as [e|]; [done|].
  intros [= Hm <- _]. split; [done|]. exists q0.
  destruct (map_m format_result _ w) as [[r w2] t2] eqn:Hrun. simpl in Hm. subst r.
  by eapply map_m_format_result_inr.
Qed.

Lemma filtered_hits_document_id (document_id : string)
    (results : list ScoredPoint) (hits : list hit) :
  document_id <> "" ->
  Forall (fun s => filter_holds (search_filter (Some document_id)) (sp_payload s) = true)
         results ->
  Forall2 formats results hits ->
  Forall (fun h => h_document_id h = VStr document_id) hits.
Proof.
  intros Hne Hflt Hfmt. revert Hflt.
  induction Hfmt as [|r h rs hs Hrh _ IH]; intros Hflt; [constructor|].
  inversion Hflt as [|? ? Hr Hrest]; subst. constructor; [|by apply IH].
  destruct Hrh as (_ & Hd & _). destruct document_id as [|c d]; [done|].
  simpl in Hr. rewrite andb_true_r in Hr. unfold condition_holds in Hr.
  apply bool_decide_eq_true in Hr. simpl in Hr. congruence.
Qed.

(** C1. When [search_similar] is given a document id for which it sets the
    search filter (a non-empty one), every hit it returns carries exactly
    that document id. *)
Theorem search_similar_respects_document_filter (query document_id : string)
    (limit : nat) (score_threshold : Q) (w w' : world) (hits : list hit)
    (t : list event) :
  document_id <> "" ->
  search_similar query (Some document_id) limit score_threshold w = (inr hits, w', t) ->
  search_filter (Some document_id) <> None /\
  Forall (fun h => h_document_id h = VStr document_id) hits.
Proof.
  intros Hne Hrun. split; [by destruct document_id|].
  apply search_similar_inr in Hrun as (_ & q0 & Hfmt).
  eapply filtered_hits_document_id; [done | apply search_respects_filter | done].
Qed.

(** An empty document id is falsy: no filter is set and the search runs over
    the whole collection. *)
Lemma search_filter_empty_id : search_filter (Some "") = None.
Proof. reflexivity. Qed.

End VectorStore.

(** ** Generation gateway and the chat endpoint *)

Section Chat.
Context `{Env}.
Import Qdrant VectorStoreService LLMService DocumentTasks App.

Lemma generate_response_run (query : string) (context_documents : list SourceDocument)
    (conversation_history : option (list ChatMessage)) (document_filename : option string)
    (w : world) :
  let messages :=
    _build_messages query (_build_context context_documents document_filename)
      conversation_history in
  generate_response query context_documents conversation_history document_filename w =
  (match llm_create messages with
   | LLMRaises e => inl e
   | LLMChoices [] => inl (ValueError "No response generated from LLM")
   | LLMChoices (assistant_response :: _) => inr assistant_response
   end, w, [LLMCreate messages]).
Proof.
  simpl. unfold generate_response. rewrite bind_emit.
  by destruct (llm_create _) as [e|[|a l]].
Qed.

Lemma get_document_stats_run (document_id : string) (w : world) :
  get_document_stats document_id w =
  (inr (match qdrant_scroll_raises document_id with
        | Some _ => 0
        | None => length (scroll (points w) (document_filter document_id))
        end), w,
   [QdrantScroll (document_filter document_id)]).
Proof.
  unfold get_document_stats. rewrite bind_emit.
  by destruct (qdrant_scroll_raises document_id).
Qed.

(** C2. A chat request for a known document whose status is not COMPLETED
    is answered with the 400 error that carries the current status, the
    world is left as it was and no call to the index, the embedding provider
    or the model has been made. *)
Theorem chat_rejects_document_not_completed (db : documents_db) (request : ChatRequest)
    (d : doc_info) (w : world) :
  db_get db (document_id request) = Some d ->
  di_status d <> COMPLETED ->
  chat_with_document db request w =
  (inl {| status_code := 400;
          detail := "Document is not ready for chat. Status: "
                      ++ format_status (di_status d) |}, w, []).
Proof.
  intros Hd Hst. unfold chat_with_document. rewrite Hd.
  by rewrite bool_decide_eq_false_2.
Qed.


End Chat.

(** ** The document registry and the upload and status endpoints *)

Section Registry.
Import DocumentTasks App.

Lemma db_get_set_eq (db : documents_db) (k : string) (v : doc_info) :
  db_get (db_set db k v) k = Some v.
Proof.
  induction db as [|[k' v'] db IH]; simpl.
  - by rewrite String.eqb_refl.
  - destruct (String.eqb k' k) eqn:Hk; simpl.
    + by rewrite String.eqb_refl.
    + by rewrite Hk.
Qed.

Lemma db_get_set_ne (db : documents_db) (k k' : string) (v : doc_info) :
  k <> k' -> db_get (db_set db k v) k' = db_get db k'.
Proof.
  intros Hne. induction db as [|[k0 v0] db IH]; simpl.
  - by apply String.eqb_neq in Hne as ->.
  - destruct (String.eqb k0 k) eqn:Hk; simpl.
    + apply String.eqb_eq in Hk as ->. by apply String.eqb_neq in Hne as ->.
    + by rewrite IH.
Qed.

Lemma db_set_elem (db : documents_db) (k : string) (v : doc_info) :
  (k, v) ∈ db_set db k v.
Proof.
  induction db as [|[k' v'] db IH]; simpl.
  - apply list_elem_of_singleton. done.
  - destruct (String.eqb k' k); [apply elem_of_cons; by left | apply elem_of_cons; by right].
Qed.

Lemma insert_newest_elem (x y : DocumentResponse) (l : list DocumentResponse) :
  x ∈ insert_newest y l <-> x = y \/ x ∈ l.
Proof.
  induction l as [|z l IH]; simpl.
  - rewrite list_elem_of_singleton. split; [by left | intros [?|Hin]; [done|]].
    by apply not_elem_of_nil in Hin.
  - destruct (dr_uploaded_at z <=? dr_uploaded_at y)%nat.
    + rewrite !elem_of_cons. tauto.
    + rewrite !elem_of_cons, IH. tauto.
Qed.

(** [list_documents] shows exactly the values of the registry. *)
Lemma list_documents_elem (db : documents_db) (x : DocumentResponse) :
  x ∈ list_documents db <-> exists k d, (k, d) ∈ db /\ x = document_response d.
Proof.
  unfold list_documents. induction db as [|[k d] db IH]; simpl.
  - split; [by intros ?%not_elem_of_nil | by intros (? & ? & ?%not_elem_of_nil & _)].
  - rewrite insert_newest_elem, IH. split.
    + intros [->|(k' & d' & Hin & ->)].
      * exists k, d. split; [apply elem_of_cons; by left | done].
      * exists k', d'. split; [apply elem_of_cons; by right | done].
    + intros (k' & d' & Hin & ->). apply elem_of_cons in Hin as [[= -> ->]|Hin].
      * by left.
      * right. by exists k', d'.
Qed.

(** Upload as intended: when the task is enqueued the registry holds the
    document as PROCESSING and the response says so. *)
Lemma upload_document_enqueued (db : documents_db) (filename : string)
    (size now1 now2 : nat) (document_id file_path task_id : string) :
  let r := upload_document db filename size now1 now2
             (inr (document_id, file_path)) (inr task_id) in
  (exists d, db_get r.1 document_id = Some d /\ di_status d = PROCESSING /\
             di_task_id d = Some task_id /\ di_error d = None /\ di_pages d = None) /\
  (exists resp, r.2 = inr resp /\ dr_id resp = document_id /\ dr_status resp = PROCESSING).
Proof.
  simpl. split.
  - eexists. rewrite db_get_set_eq. by repeat split.
  - eexists. by repeat split.
Qed.

(** The status endpoint never writes UPLOADING itself, as long as no task
    result carries that status. *)
Lemma refresh_not_uploading (d : doc_info) (results : string -> async_result) :
  di_status d <> UPLOADING ->
  (forall task_id result, results task_id = SUCCESS result ->
     tm_status result <> UPLOADING) ->
  di_status (refresh d results) <> UPLOADING.
Proof.
  intros Hd Hres. unfold refresh.
  destruct (bool_decide (di_status d = PROCESSING) && truthy_opt_str (di_task_id d));
    [|done].
  destruct (results (default "" (di_task_id d))) as [| | |result|info] eqn:Hr;
    simpl; try done.
  by eapply Hres.
Qed.

(** C10. When [process_document.delay] raises, [upload_document] answers 400
    and the record it had just written stays in the registry with status
    UPLOADING: the status endpoint and the document list both show it. *)
Theorem upload_leaves_uploading_record_when_enqueue_fails (db : documents_db)
    (filename : string) (size now1 now2 : nat) (document_id file_path : string)
    (e : exn) (results : string -> async_result) :
  let r := upload_document db filename size now1 now2
             (inr (document_id, file_path)) (inl e) in
  r.2 = inl {| status_code := 400; detail := str e |} /\
  (exists d, db_get r.1 document_id = Some d /\ di_status d = UPLOADING) /\
  (exists resp, (get_document_status r.1 document_id results).2 = inr resp /\
                dr_id resp = document_id /\ dr_status resp = UPLOADING) /\
  (exists resp, resp ∈ list_documents r.1 /\
                dr_id resp = document_id /\ dr_status resp = UPLOADING).
Proof.
  simpl. split; [done|]. split; [|split].
  - eexists. by rewrite db_get_set_eq.
  - unfold get_document_status. rewrite db_get_set_eq. eexists. by repeat split.
  - eexists. split.
    + apply list_documents_elem. eexists _, _. split; [apply db_set_elem | reflexivity].
    + by split.
Qed.

End Registry.

(** ** The ingestion task *)

Section Ingestion.
Context `{Env}.
Import Qdrant EmbeddingService DocumentProcessor DocumentTasks.

Lemma updates_app (t1 t2 : list event) : updates (t1 ++ t2) = updates t1 ++ updates t2.
Proof. unfold updates. by rewrite map_app, concat_app. Qed.

Lemma quiet_ret {A} (a : A) : quiet (ret a).
Proof. by intros w. Qed.

Lemma quiet_raise {A} (e : exn) : quiet (raise (A:=A) e).
Proof. by intros w. Qed.

Lemma quiet_bind {A B} (m : M A) (k : A -> M B) :
  quiet m -> (forall a, quiet (k a)) -> quiet (bind m k).
Proof.
  intros Hm Hk w. unfold bind. specialize (Hm w).
  destruct (m w) as [[[e|a] w1] t1]; [done|].
  specialize (Hk a w1). destruct (k a w1) as [[r w2] t2]. simpl in *.
  by rewrite updates_app, Hm, Hk.
Qed.

Lemma quiet_get_embeddings (texts : list string) : quiet (get_embeddings texts).
Proof.
  intros w. destruct texts as [|x texts]; [done|].
  rewrite get_embeddings_nonempty by done. by rewrite generate_embeddings_sync_run.
Qed.

Lemma quiet_build_points (document_id filename : string)
    (metadata : option (gmap string pvalue)) (i : nat) (pairs : list (string * vector)) :
  quiet (VectorStoreService.build_points document_id filename metadata i pairs).
Proof.
  revert i. induction pairs as [|[chunk embedding] rest IH]; intros i; simpl.
  - apply quiet_ret.
  - apply quiet_bind; [by intros w|]. intros point_id.
    apply quiet_bind; [apply IH|]. intros more. apply quiet_ret.
Qed.

Lemma quiet_client_upsert (batch : list PointStruct) :
  quiet (VectorStoreService.client_upsert batch).
Proof.
  intros w. rewrite client_upsert_run.
  by destruct (qdrant_upsert_raises (map id batch)).
Qed.

Lemma quiet_for_each {A} (l : list A) (body : A -> M unit) :
  (forall x, quiet (body x)) -> quiet (for_each l body).
Proof.
  intros Hb. induction l as [|x l IH]; simpl; [apply quiet_ret|].
  apply quiet_bind; [done|]. by intros _.
Qed.

Lemma quiet_store (document_id text filename : string)
    (metadata : option (gmap string pvalue)) :
  quiet (VectorStoreService.process_document document_id text filename metadata).
Proof.
  unfold VectorStoreService.process_document.
  destruct (split_text text) as [|c cs]; [apply quiet_ret|].
  apply quiet_bind; [apply quiet_get_embeddings|]. intros embeddings.
  apply quiet_bind; [apply quiet_build_points|]. intros pts.
  apply quiet_bind; [apply quiet_for_each, quiet_client_upsert|]. intros _.
  apply quiet_ret.
Qed.

(** The [try] block, step by step. *)
Lemma try_block_run (env : attempt_env) (document_id file_path filename : string)
    (metadata : option (gmap string pvalue)) (w : world) :
  try_block env document_id file_path filename metadata w =
  match doc_processor_init env, vector_store_init env, opened env with
  | Some e, _, _ => (inl e, w, [])
  | None, Some e, _ => (inl e, w, [])
  | None, None, inl e =>
      (inl (Exception ("PDF processing error: " ++ str e)), w, [extracting document_id])
  | None, None, inr pdf =>
      let text := (_extract_text_sync file_path pdf).1 in
      let pdf_metadata := (_extract_text_sync file_path pdf).2 in
      let combined := combine_metadata metadata pdf_metadata (request_id env) in
      match VectorStoreService.process_document document_id text filename
              (Some combined) w with
      | (inl e, w', t) =>
          (inl e, w',
           extracting document_id :: extracted document_id pdf_metadata
             :: storing document_id pdf_metadata :: t)
      | (inr chunks_count, w', t) =>
          (inr (success_result document_id pdf_metadata combined chunks_count), w',
           extracting document_id :: extracted document_id pdf_metadata
             :: storing document_id pdf_metadata
             :: t ++ [finalizing document_id pdf_metadata chunks_count])
      end
  end.
Proof.
  unfold try_block.
  destruct (doc_processor_init env) as [e1|]; simpl initialize; [done|].
  rewrite bind_ret.
  destruct (vector_store_init env) as [e2|]; simpl initialize; [done|].
  rewrite bind_ret, bind_emit.
  destruct (opened env) as [e3|pdf]; simpl extract_text_from_pdf; [done|].
  rewrite bind_ret, !bind_emit. unfold bind at 1. simpl.
  by destruct (VectorStoreService.process_document _ _ _ _ w) as [[[e|n] w'] t].
Qed.

(** How the [try] block ends: with the COMPLETED result after the four
    updates 10, 30, 50, 90, or with an exception after none of them, after
    the first, or after the first three. *)
Lemma try_block_cases (env : attempt_env) (document_id file_path filename : string)
    (metadata : option (gmap string pvalue)) (w : world) :
  let r := try_block env document_id file_path filename metadata w in
  (exists result, r.1.1 = inr result /\ tm_status result = COMPLETED /\
      tm_progress result = 100 /\ updates r.2 = [10; 30; 50; 90]) \/
  (exists e, r.1.1 = inl e /\
      (updates r.2 = [] \/ updates r.2 = [10] \/ updates r.2 = [10; 30; 50])).
Proof.
  simpl. rewrite try_block_run.
  destruct (doc_processor_init env) as [e1|]; [right; eauto|].
  destruct (vector_store_init env) as [e2|]; [right; eauto|].
  destruct (opened env) as [e3|pdf]; [right; eexists; split; [done|]; by right; left|].
  simpl.
  pose proof (quiet_store document_id (_extract_text_sync file_path pdf).1 filename
    (Some (combine_metadata metadata (_extract_text_sync file_path pdf).2 (request_id env)))
    w) as Hq.
  destruct (VectorStoreService.process_document _ _ _ _ w) as [[[e|n] w'] t]; simpl in *.
  - right. eexists. split; [done|]. right; right.
    change (extracting document_id :: extracted document_id ?p :: storing document_id ?q :: t)
      with ([extracting document_id; extracted document_id p; storing document_id q] ++ t).
    by rewrite updates_app, Hq.
  - left. eexists. repeat split.
    change (extracting document_id :: extracted document_id ?p :: storing document_id ?q
              :: t ++ [?f])
      with ([extracting document_id; extracted document_id p; storing document_id q]
              ++ t ++ [f]).
    by rewrite !updates_app, Hq.
Qed.

Lemma process_document_run (env : attempt_env) (retries : nat)
    (document_id file_path filename : string) (metadata : option (gmap string pvalue))
    (w : world) :
  process_document env retries document_id file_path filename metadata w =
  match try_block env document_id file_path filename metadata w with
  | (inr result, w', t) => (Returned result, w', t)
  | (inl e, w', t) =>
      (if (retries <? max_retries)%nat then RetryRaised (60 * (retries + 1))
       else Returned (error_result e document_id),
       w', t ++ [DeleteFile file_path])
  end.
Proof.
  unfold process_document, except_block, self_retry.
  destruct (try_block _ _ _ _ _ w) as [[[e|result] w'] t]; [|done].
  destruct (retries <? max_retries)%nat eqn:Hlt; [|done].
  apply Nat.ltb_lt in Hlt.
  by replace (max_retries <? retries + 1)%nat with false
    by (symmetry; apply Nat.ltb_ge; lia).
Qed.

(** C8 (as the code has it). In every execution of the task the progress of
    the [update_state] calls strictly increases; an execution that returns
    the COMPLETED result reports 10, 30, 50, 90, 100; an execution that
    returns the FAILED result, which happens only when the retries are used
    up, reports progress 0 in it. *)
Theorem progress_increases_until_failure_result (env : attempt_env) (retries : nat)
    (document_id file_path filename : string) (metadata : option (gmap string pvalue))
    (w : world) :
  let r := process_document env retries document_id file_path filename metadata w in
  StronglySorted lt (updates r.2) /\
  StronglySorted le (updates r.2) /\
  (forall result, r.1.1 = Returned result ->
     (tm_status result = COMPLETED /\ reported_progress r = [10; 30; 50; 90; 100] /\
      StronglySorted le (reported_progress r))
     \/ (tm_status result = FAILED /\ tm_progress result = 0 /\ max_retries <= retries)).
Proof.
  simpl. rewrite process_document_run. unfold reported_progress.
  pose proof (try_block_cases env document_id file_path filename metadata w) as Hc.
  simpl in Hc.
  destruct (try_block _ _ _ _ _ w) as [[[e|result] w'] t]; simpl in *.
  - destruct Hc as [(? & [=] & _)|(e' & _ & Ht)].
    rewrite updates_app, app_nil_r.
    split; [|split].
    + destruct Ht as [->|[->| ->]]; repeat constructor.
    + destruct Ht as [->|[->| ->]]; repeat constructor.
    + intros result. destruct (retries <? max_retries)%nat eqn:Hlt; [done|].
      intros [= <-]. right. apply Nat.ltb_ge in Hlt. by repeat split.
  - destruct Hc as [(r' & [= <-] & Hst & Hp & Ht)|(? & [=] & _)].
    rewrite Ht. split; [|split].
    + repeat constructor.
    + repeat constructor.
    + intros ? [= <-]. left. rewrite Hp. repeat split; [done|].
      repeat constructor.
Qed.

(** A result the task returns is COMPLETED or FAILED. *)
Lemma process_document_result_status (env : attempt_env) (retries : nat)
    (document_id file_path filename : string) (metadata : option (gmap string pvalue))
    (w : world) (result : task_meta) :
  (process_document env retries document_id file_path filename metadata w).1.1
    = Returned result ->
  tm_status result = COMPLETED \/ tm_status result = FAILED.
Proof.
  rewrite process_document_run.
  pose proof (try_block_cases env document_id file_path filename metadata w) as Hc.
  simpl in Hc.
  destruct (try_block _ _ _ _ _ w) as [[[e|r] w'] t]; simpl in *.
  - destruct (retries <? max_retries)%nat; [done|]. intros [= <-]. by right.
  - intros [= <-]. destruct Hc as [(r' & [= <-] & Hst & _)|(? & [=] & _)]. by left.
Qed.

(** The retry count bounds the number of executions, whatever they find:
    from retry count [retries] on, at most [max_retries - retries + 1]
    executions happen. *)
Lemma deliver_executions (fuel : nat) (envs : nat -> attempt_env) (retries : nat)
    (document_id file_path filename : string) (metadata : option (gmap string pvalue))
    (w : world) :
  executions (deliver fuel envs retries document_id file_path filename metadata w)
    <= S (max_retries - retries).
Proof.
  revert retries w. induction fuel as [|fuel IH]; intros retries w; simpl; [lia|].
  rewrite process_document_run.
  destruct (try_block _ _ _ _ _ w) as [[[e|result] w'] t]; simpl; [|lia].
  destruct (retries <? max_retries)%nat eqn:Hlt; simpl; [|lia].
  apply Nat.ltb_lt in Hlt. specialize (IH (S retries) w'). lia.
Qed.

(** With enough deliveries the job ends, and it ends in state SUCCESS: the
    task never lets an exception other than the retry request escape. *)
Lemma deliver_ends (fuel : nat) (envs : nat -> attempt_env) (retries : nat)
    (document_id file_path filename : string) (metadata : option (gmap string pvalue))
    (w : world) :
  max_retries - retries < fuel ->
  exists result,
    final (deliver fuel envs retries document_id file_path filename metadata w)
      = SUCCESS result.
Proof.
  revert retries w. induction fuel as [|fuel IH]; intros retries w Hf; simpl; [lia|].
  rewrite process_document_run.
  destruct (try_block _ _ _ _ _ w) as [[[e|result] w'] t]; simpl; [|by eexists].
  destruct (retries <? max_retries)%nat eqn:Hlt; simpl; [|by eexists].
  apply Nat.ltb_lt in Hlt. apply IH. lia.
Qed.

(** Retrying never exceeds [max_retries] = 3: a job is executed at most four
    times, and always ends. *)
Lemma run_job_bounded (envs : nat -> attempt_env)
    (document_id file_path filename : string) (metadata : option (gmap string pvalue))
    (w : world) :
  let j := run_job envs document_id file_path filename metadata w in
  executions j <= S max_retries /\ max_retries = 3 /\ exists result, final j = SUCCESS result.
Proof.
  simpl. unfold run_job. split; [|split; [done|]].
  - etrans; [apply deliver_executions|]. lia.
  - apply deliver_ends. lia.
Qed.

(** When every execution fails, all the retries are used and the job ends
    with the FAILED result that carries the last error. *)
Lemma deliver_all_fail (fuel : nat) (envs : nat -> attempt_env) (retries : nat)
    (document_id file_path filename : string) (metadata : option (gmap string pvalue))
    (w : world) :
  (forall n w0, exists e,
      (try_block (envs n) document_id file_path filename metadata w0).1.1 = inl e) ->
  retries <= max_retries ->
  max_retries - retries < fuel ->
  let j := deliver fuel envs retries document_id file_path filename metadata w in
  executions j = S (max_retries - retries) /\
  exists e, final j = SUCCESS (error_result e document_id).
Proof.
  intros Hfail. revert retries w.
  induction fuel as [|fuel IH]; intros retries w Hr Hf; simpl; [lia|].
  rewrite process_document_run. destruct (Hfail retries w) as [e He].
  destruct (try_block _ _ _ _ _ w) as [[[e'|result] w'] t]; simpl in *; [|done].
  destruct (retries <? max_retries)%nat eqn:Hlt; simpl.
  - apply Nat.ltb_lt in Hlt.
    destruct (IH (S retries) w') as [Hex Hfin]; [lia | lia |].
    split; [unfold max_retries in *; lia | done].
  - apply Nat.ltb_ge in Hlt. split; [unfold max_retries in *; lia | by eexists].
Qed.

End Ingestion.

(** ** What the status endpoint shows of a job whose retries are used up *)

Section Exhaustion.
Context `{Env}.
Import DocumentTasks App.

(** C4 (divergence). Upload a document, let every execution of its job
    fail: the job is executed [max_retries + 1] = 4 times, that is retried 3
    times and not more, and ends with the FAILED result, whose "error" is
    the text of the last exception; the status endpoint then shows the
    document as FAILED, but with no error: it copies "status" and "pages"
    from the result and leaves "error" unset. *)
Theorem exhausted_job_status_reports_no_error (envs : nat -> attempt_env)
    (db : documents_db) (filename : string) (size now1 now2 : nat)
    (document_id file_path task_id : string) (metadata : option (gmap string pvalue))
    (w : world) :
  task_id <> "" ->
  (forall n w0, exists e,
      (try_block (envs n) document_id file_path filename metadata w0).1.1 = inl e) ->
  let db1 := (upload_document db filename size now1 now2
                (inr (document_id, file_path)) (inr task_id)).1 in
  let j := run_job envs document_id file_path filename metadata w in
  executions j = 4 /\
  (exists e, final j = SUCCESS (error_result e document_id) /\
             tm_error (error_result e document_id) = Some (str e)) /\
  (forall results, results task_id = final j ->
     exists resp, (get_document_status db1 document_id results).2 = inr resp /\
                  dr_status resp = FAILED /\ dr_error resp = None).
Proof.
  intros Htid Hfail. cbv zeta.
  destruct (deliver_all_fail (S max_retries) envs 0 document_id file_path filename
              metadata w Hfail) as [Hex [e Hfin]]; [unfold max_retries; lia.. |].
  cbv zeta in Hex, Hfin. unfold run_job. split; [done|]. split; [by exists e|].
  intros results Hres. unfold get_document_status, upload_document. cbn [fst].
  rewrite db_get_set_eq. unfold refresh.
  destruct task_id as [|c tid]; [done|]. simpl.
  rewrite Hres, Hfin. eexists. by repeat split.
Qed.

End Exhaustion.

(** ** Page numbers of citations *)

Section PageNumbers.
Context `{Env}.
Import Qdrant EmbeddingService VectorStoreService DocumentProcessor DocumentTasks App.

Lemma preserves_ret {A} (I : list PointStruct -> Prop) (a : A) (Q : A -> Prop) :
  Q a -> preserves I (ret a) Q.
Proof. intros Ha w Hw. split; [done|]. by intros ? [= <-]. Qed.

Lemma preserves_bind {A B} (I : list PointStruct -> Prop) (m : M A) (k : A -> M B)
    (Q : A -> Prop) (R : B -> Prop) :
  preserves I m Q -> (forall a, Q a -> preserves I (k a) R) -> preserves I (bind m k) R.
Proof.
  intros Hm Hk w Hw. unfold bind. destruct (Hm w Hw) as [Hw1 Ha].
  destruct (m w) as [[[e|a] w1] t1]; simpl in *; [by split|].
  destruct (Hk a (Ha a eq_refl) w1 Hw1) as [Hw2 Hb].
  by destruct (k a w1) as [[r w2] t2].
Qed.

Lemma preserves_weaken {A} (I : list PointStruct -> Prop) (m : M A) (Q Q' : A -> Prop) :
  (forall a, Q a -> Q' a) -> preserves I m Q -> preserves I m Q'.
Proof. intros HQ Hm w Hw. destruct (Hm w Hw) as [? Ha]. split; [done | eauto]. Qed.

Lemma preserves_get_embeddings (I : list PointStruct -> Prop) (texts : list string) :
  preserves I (get_embeddings texts) (fun _ => True).
Proof.
  intros w Hw. destruct texts as [|x texts]; [by split|].
  rewrite get_embeddings_nonempty by done. by rewrite generate_embeddings_sync_run.
Qed.

Lemma point_metadata_page_number (document_id filename : string) (i : nat)
    (chunk : string) (metadata : option (gmap string pvalue)) :
  default ∅ metadata !! "page_number" = None ->
  point_metadata document_id filename i chunk metadata !! "page_number" = None.
Proof.
  intros Hmd. unfold point_metadata, dict_merge.
  apply lookup_union_None. split; [done|].
  by rewrite !lookup_insert_ne, lookup_empty.
Qed.

Lemma preserves_build_points (I : list PointStruct -> Prop)
    (document_id filename : string) (metadata : option (gmap string pvalue))
    (i : nat) (pairs : list (string * vector)) :
  default ∅ metadata !! "page_number" = None ->
  preserves I (build_points document_id filename metadata i pairs) no_page_number.
Proof.
  intros Hmd. revert i. induction pairs as [|[chunk embedding] rest IH]; intros i; simpl.
  - apply preserves_ret. constructor.
  - apply (preserves_bind I _ _ (fun _ => True)); [by intros w Hw|]. intros point_id _.
    apply (preserves_bind I _ _ no_page_number); [apply IH|]. intros more Hmore.
    apply preserves_ret. constructor; [|done]. simpl.
    by apply point_metadata_page_number.
Qed.

Lemma upsert_one_no_page_number (p : PointStruct) (stored : list PointStruct) :
  payload p !! "page_number" = None -> no_page_number stored ->
  no_page_number (upsert_one p stored).
Proof.
  intros Hp. induction 1 as [|q stored Hq Hs IH]; simpl.
  - by repeat constructor.
  - destruct (String.eqb (id q) (id p)); by constructor.
Qed.

Lemma upsert_no_page_number (stored batch : list PointStruct) :
  no_page_number batch -> no_page_number stored -> no_page_number (upsert stored batch).
Proof.
  unfold upsert. intros Hb. revert stored.
  induction Hb as [|p batch Hp Hb IH]; intros stored Hs; simpl; [done|].
  apply IH. by apply upsert_one_no_page_number.
Qed.

Lemma preserves_client_upsert (batch : list PointStruct) :
  no_page_number batch -> preserves no_page_number (client_upsert batch) (fun _ => True).
Proof.
  intros Hb w Hw. split; [|done]. rewrite client_upsert_run.
  destruct (qdrant_upsert_raises (map id batch)); [done|].
  by apply upsert_no_page_number.
Qed.

Lemma batches_Forall {A} (P : A -> Prop) (fuel batch_size : nat) (l : list A) :
  Forall P l -> Forall (Forall P) (batches fuel batch_size l).
Proof.
  revert l. induction fuel as [|fuel IH]; intros l Hl; simpl; [constructor|].
  destruct l as [|x l]; [constructor|].
  constructor; [by apply Forall_take | by apply IH, Forall_drop].
Qed.

Lemma preserves_for_each {A} (I : list PointStruct -> Prop) (l : list A)
    (body : A -> M unit) (P : A -> Prop) :
  Forall P l -> (forall x, P x -> preserves I (body x) (fun _ => True)) ->
  preserves I (for_each l body) (fun _ => True).
Proof.
  intros Hl Hb. induction Hl as [|x l Hx Hl IH]; simpl; [by apply preserves_ret|].
  apply (preserves_bind I _ _ (fun _ => True)); [by apply Hb | by intros _ _].
Qed.

(** Storing a document whose metadata has no "page_number" key writes no
    payload with that key. *)
Lemma preserves_store (document_id text filename : string)
    (metadata : option (gmap string pvalue)) :
  default ∅ metadata !! "page_number" = None ->
  preserves no_page_number
    (VectorStoreService.process_document document_id text filename metadata)
    (fun _ => True).
Proof.
  intros Hmd. unfold VectorStoreService.process_document.
  destruct (split_text text) as [|c cs]; [by apply preserves_ret|].
  apply (preserves_bind _ _ _ (fun _ => True)); [apply preserves_get_embeddings|].
  intros embeddings _.
  apply (preserves_bind _ _ _ no_page_number); [by apply preserves_build_points|].
  intros pts Hpts.
  apply (preserves_bind _ _ _ (fun _ => True)); [|intros; by apply preserves_ret].
  apply (preserves_for_each _ _ _ no_page_number); [by apply batches_Forall|].
  apply preserves_client_upsert.
Qed.

(** The metadata of a parsed PDF has no "page_number" key, nor has the
    metadata the task combines from it. *)
Lemma extract_text_sync_page_number (file_path : string) (pdf : pdf_file) :
  (_extract_text_sync file_path pdf).2 !! "page_number" = None.
Proof.
  unfold _extract_text_sync. simpl.
  destruct (info pdf) as [i|]; [case_bool_decide|]; unfold dict_merge;
    rewrite ?lookup_union, !lookup_insert_ne, ?lookup_empty; done.
Qed.

Lemma combine_metadata_page_number (metadata : option (gmap string pvalue))
    (file_path : string) (pdf : pdf_file) (request_id : string) :
  default ∅ metadata !! "page_number" = None ->
  combine_metadata metadata (_extract_text_sync file_path pdf).2 request_id
    !! "page_number" = None.
Proof.
  intros Hmd. unfold combine_metadata, dict_merge.
  rewrite !lookup_union, Hmd, extract_text_sync_page_number.
  by rewrite lookup_singleton_ne.
Qed.

(** One execution of the ingestion task keeps the collection free of
    "page_number" keys. *)
Lemma process_document_no_page_number (env : attempt_env) (retries : nat)
    (document_id file_path filename : string) (metadata : option (gmap string pvalue))
    (w : world) :
  default ∅ metadata !! "page_number" = None ->
  no_page_number (points w) ->
  no_page_number
    (points (process_document env retries document_id file_path filename metadata w).1.2).
Proof.
  intros Hmd Hw. rewrite process_document_run, try_block_run.
  destruct (doc_processor_init env); [done|].
  destruct (vector_store_init env); [done|].
  destruct (opened env) as [e|pdf]; [done|]. simpl.
  pose proof (preserves_store document_id (_extract_text_sync file_path pdf).1 filename
    (Some (combine_metadata metadata (_extract_text_sync file_path pdf).2 (request_id env))))
    as Hst.
  destruct (Hst (combine_metadata_page_number _ _ _ _ Hmd) w Hw) as [Hw' _].
  by destruct (VectorStoreService.process_document _ _ _ _ w) as [[[e|n] w'] t].
Qed.

Lemma search_payload_Forall (P : gmap string pvalue -> Prop)
    (stored : list PointStruct) (query_vector : vector)
    (query_filter : option Filter) (limit : nat) (score_threshold : Q) :
  Forall (fun p => P (payload p)) stored ->
  Forall (fun s => P (sp_payload s))
         (search stored query_vector query_filter limit score_threshold).
Proof.
  intros Hs. unfold search. apply Forall_take, sort_desc_Forall, Forall_List_filter.
  apply Forall_fmap. by apply Forall_List_filter.
Qed.

Lemma source_document_inr (h : hit) (w w' : world) (s : SourceDocument) (t : list event) :
  source_document h w = (inr s, w', t) -> cites h s.
Proof.
  unfold source_document, cites.
  destruct (h_content h) as [c|n]; [|done].
  destruct (h_metadata h !! "page_number") as [[x|n]|]; [done| |];
    by intros [= <- _ _].
Qed.

Lemma map_m_source_document_inr (hits : list hit) (w w' : world)
    (docs : list SourceDocument) (t : list event) :
  map_m source_document hits w = (inr docs, w', t) -> Forall2 cites hits docs.
Proof.
  revert docs w w' t. induction hits as [|h hits IH]; intros docs w w' t; simpl.
  - intros [= <- _ _]. constructor.
  - unfold bind at 1.
    destruct (source_document h w) as [[[e|s] w1] t1] eqn:Hs; [done|].
    unfold bind at 1.
    destruct (map_m source_document hits w1) as [[[e|ss] w2] t2] eqn:Hss; [done|].
    simpl. intros [= <- _ _]. constructor; [by eapply source_document_inr | by eapply IH].
Qed.

(** What a successful chat answer is made of: the document is COMPLETED,
    the search for the message within the document succeeded, and the
    sources are the citations of its hits, one for one, in order. *)
Lemma chat_with_document_inr (db : documents_db) (request : ChatRequest)
    (w w' : world) (resp : ChatResponse) (t : list event) :
  chat_with_document db request w = (inr resp, w', t) ->
  exists d hits t1,
    db_get db (document_id request) = Some d /\ di_status d = COMPLETED /\
    search_similar (message request) (Some (document_id request)) 5 (1 # 2) w
      = (inr hits, w, t1) /\
    Forall2 cites hits (sources resp).
Proof.
  unfold chat_with_document.
  destruct (db_get db (document_id request)) as [d|]; [|done].
  case_bool_decide as Hst; [|done].
  unfold chat_body. unfold bind at 1. rewrite get_document_stats_run.
  unfold bind at 1.
  destruct (search_similar _ _ _ _ w) as [[[e|hits] w1] t1] eqn:Hsearch; [done|].
  pose proof Hsearch as Hw1. apply search_similar_inr in Hw1 as [-> _].
  unfold bind at 1.
  destruct (map_m source_document hits w) as [[[e|docs] w2] t2] eqn:Hdocs; [done|].
  unfold bind at 1. rewrite generate_response_run.
  destruct (llm_create _) as [e|[|a l]]; [done..|].
  simpl. intros [= <- _ _]. exists d, hits, t1. repeat split; try done.
  by eapply map_m_source_document_inr.
Qed.

(** Over a collection without "page_number" keys, every citation of a chat
    answer has no page number. *)
Lemma chat_sources_without_page_number (db : documents_db) (request : ChatRequest)
    (w w' : world) (resp : ChatResponse) (t : list event) :
  no_page_number (points w) ->
  chat_with_document db request w = (inr resp, w', t) ->
  Forall (fun s => page_number s = None) (sources resp).
Proof.
  intros Hw Hchat.
  apply chat_with_document_inr in Hchat as (d & hits & t1 & _ & _ & Hsearch & Hcites).
  apply search_similar_inr in Hsearch as (_ & q0 & Hfmt).
  pose proof (search_payload_Forall (fun p => p !! "page_number" = None) (points w) q0
                (search_filter (Some (document_id request))) 5 (1 # 2) Hw) as Hres.
  revert Hres Hcites. generalize (sources resp).
  induction Hfmt as [|r h rs hs Hrh _ IH]; intros docs Hres Hcites.
  - inversion Hcites. constructor.
  - inversion Hcites as [|? s ? ss Hhs Hrest]; subst.
    inversion Hres as [|? ? Hr Hrs]; subst.
    constructor; [|by apply IH].
    destruct Hrh as (_ & _ & _ & _ & _ & Hmeta). destruct Hhs as (_ & _ & ->).
    rewrite Hmeta. rewrite bool_decide_eq_false_2; [by rewrite Hr|].
    rewrite !elem_of_cons, elem_of_nil. by intros [|[|[|[|]]]].
Qed.

(** C5 (divergence). A document is ingested by the task with the metadata
    the upload endpoint passes, into a collection that has no "page_number"
    key; whatever chat answer is then given, each of its citations is built
    from one search hit and carries the hit's content and score, but none
    carries a page number: ingestion never writes the key the citation
    reads. *)
Theorem chat_citations_carry_no_page_number (env : attempt_env) (retries : nat)
    (document_id file_path filename : string) (db : documents_db)
    (request : ChatRequest) (w w' : world) (resp : ChatResponse) (t : list event) :
  no_page_number (points w) ->
  let ingested :=
    (process_document env retries document_id file_path filename
       (Some {[ "uploaded_by" := VStr "user" ]}) w).1.2 in
  chat_with_document db request ingested = (inr resp, w', t) ->
  (exists hits, Forall2 cites hits (sources resp)) /\
  Forall (fun s => page_number s = None) (sources resp).
Proof.
  intros Hw ingested Hchat. split.
  - apply chat_with_document_inr in Hchat as (d & hits & t1 & _ & _ & _ & Hcites).
    by exists hits.
  - eapply chat_sources_without_page_number; [|done].
    by apply process_document_no_page_number.
Qed.

End PageNumbers.

(** * The theorems at concrete inputs *)

Section Runs.
Import Qdrant EmbeddingService VectorStoreService LLMService DocumentProcessor
  DocumentTasks App Fixtures.

Example hits_a_shape :
  map (fun h => (h_content h, h_document_id h, h_metadata h !! "page_number")) hits_a
  = [(VStr ("[Page 1]" ++ nl ++ "Invoices are due within 30 days." ++ nl),
      VStr "doc-a", None)].
Proof. vm_compute. reflexivity. Qed.

(** C1 at a collection holding two documents: the search restricted to
    "doc-a" returns one hit, of "doc-a". *)
Lemma search_similar_respects_document_filter_witness :
  "doc-a" <> "" /\
  search_a = (inr hits_a, two_documents, search_a.2) /\
  length (points two_documents) = 2 /\ length hits_a = 1 /\
  search_filter (Some "doc-a") <> None /\
  Forall (fun h => h_document_id h = VStr "doc-a") hits_a.
Proof.
  assert (H1 : "doc-a" <> "") by done.
  assert (H2 : search_a = (inr hits_a, two_documents, search_a.2))
    by (vm_compute; reflexivity).
  split; [exact H1|]. split; [exact H2|].
  split; [vm_compute; reflexivity|]. split; [vm_compute; reflexivity|].
  exact (@search_similar_respects_document_filter well_behaved _ _ _ _ _ _ _ _ H1 H2).
Defined.

(** C2 at a document still PROCESSING. *)
Lemma chat_rejects_document_not_completed_witness :
  db_get [("doc-a", entry_a PROCESSING)] (document_id request_a)
    = Some (entry_a PROCESSING) /\
  di_status (entry_a PROCESSING) <> COMPLETED /\
  @chat_with_document well_behaved [("doc-a", entry_a PROCESSING)] request_a two_documents
    = (inl {| status_code := 400;
              detail := "Document is not ready for chat. Status: processing" |},
       two_documents, []).
Proof.
  assert (H1 : db_get [("doc-a", entry_a PROCESSING)] (document_id request_a)
               = Some (entry_a PROCESSING)) by reflexivity.
  assert (H2 : di_status (entry_a PROCESSING) <> COMPLETED) by done.
  split; [exact H1|]. split; [exact H2|].
  exact (@chat_rejects_document_not_completed well_behaved _ _ _ two_documents H1 H2).
Defined.

(** C6 at a batch of two texts whose second vector has three components. *)
Lemma embeddings_dimension_validated_witness :
  ["a"; "b"] <> [] /\
  @nomic_embed_text drifted ["a"; "b"] model search_document
    = NomicEmbeddings [zeros; [0 # 1; 0 # 1; 0 # 1]] /\
  dimension = 768 /\
  exists i v, [zeros; [0 # 1; 0 # 1; 0 # 1]] !! i = Some v /\ length v <> dimension /\
    @get_embeddings drifted ["a"; "b"] empty_world
      = (inl (Exception ("Nomic embedding generation failed: "
                ++ "Unexpected embedding dimension for text " ++ pretty i ++ ": "
                ++ pretty (length v) ++ " != " ++ pretty 768)),
         empty_world, [document_call ["a"; "b"]]).
Proof.
  assert (H1 : ["a"; "b"] <> ([] : list string)) by done.
  assert (H2 : @nomic_embed_text drifted ["a"; "b"] model search_document
               = NomicEmbeddings [zeros; [0 # 1; 0 # 1; 0 # 1]]) by reflexivity.
  split; [exact H1|]. split; [exact H2|].
  destruct (@embeddings_dimension_validated drifted _ _ empty_world H1 H2)
    as [Hdim [[Hall _]|Hbad]].
  - exfalso. inversion Hall as [|? ? _ Hrest]; subst.
    inversion Hrest as [|? ? Hlen _]; subst. vm_compute in Hlen. discriminate Hlen.
  - split; [exact Hdim | exact Hbad].
Defined.

Example drifted_batch_fails :
  @get_embeddings drifted ["a"; "b"] empty_world
  = (inl (Exception "Nomic embedding generation failed: Unexpected embedding dimension for text 1: 3 != 768"),
     empty_world, [document_call ["a"; "b"]]).
Proof. vm_compute. reflexivity. Qed.


(** C9 as stated fails when the provider answers two texts with one
    vector: [get_embeddings] returns that one vector. *)
Lemma get_embeddings_accepts_short_answer :
  @get_embeddings short_answer ["a"; "b"] empty_world
    = (inr [zeros], empty_world, [document_call ["a"; "b"]]) /\
  length [zeros] <> length ["a"; "b"].
Proof. split; [vm_compute; reflexivity | simpl; lia]. Qed.

Example get_embeddings_relays_two_vectors :
  @get_embeddings well_behaved [] empty_world = (inr [], empty_world, []) /\
  @get_embeddings well_behaved ["a"; "b"] empty_world
    = (inr [zeros; zeros], empty_world, [document_call ["a"; "b"]]).
Proof. split; vm_compute; reflexivity. Qed.

(** C4 at a job whose file cannot be parsed: four executions, the FAILED
    result with the parser's message, and a status response without it. *)
Lemma exhausted_job_status_reports_no_error_witness :
  "task-1" <> "" /\
  (forall n w0, exists e,
      (@try_block well_behaved (always_unreadable n) "doc-a" "/uploads/a.pdf" "a.pdf"
         uploaded_by_user w0).1.1 = inl e) /\
  executions failing_job = 4 /\
  final failing_job
    = SUCCESS (error_result (Exception "PDF processing error: EOF marker not found")
                 "doc-a") /\
  exists resp,
    (get_document_status
       (upload_document [] "a.pdf" 1024 1 2 (inr ("doc-a", "/uploads/a.pdf"))
          (inr "task-1")).1
       "doc-a" (fun _ => final failing_job)).2 = inr resp /\
    dr_status resp = FAILED /\ dr_error resp = None.
Proof.
  assert (H1 : "task-1" <> "") by done.
  assert (H2 : forall n w0, exists e,
      (@try_block well_behaved (always_unreadable n) "doc-a" "/uploads/a.pdf" "a.pdf"
         uploaded_by_user w0).1.1 = inl e) by (intros n w0; eexists; reflexivity).
  split; [exact H1|]. split; [exact H2|].
  destruct (@exhausted_job_status_reports_no_error well_behaved always_unreadable
              [] "a.pdf" 1024 1 2 "doc-a" "/uploads/a.pdf" "task-1" uploaded_by_user
              empty_world H1 H2) as (Hex & _ & Hstatus).
  split; [exact Hex|]. split; [vm_compute; reflexivity|].
  exact (Hstatus (fun _ => final failing_job) eq_refl).
Defined.

(** C5 at a one-page document: the chat answer cites the chunk, whose text
    starts with the page marker, without a page number. *)
Lemma chat_citations_carry_no_page_number_witness :
  no_page_number (points empty_world) /\
  chat_a = (inr answer_a, after_a, chat_a.2) /\
  sources answer_a
    = [ {| sd_content := "[Page 1]" ++ nl ++ "Invoices are due within 30 days." ++ nl;
           page_number := None; confidence_score := 9 # 10 |} ] /\
  Forall (fun s => page_number s = None) (sources answer_a).
Proof.
  assert (H1 : no_page_number (points empty_world)) by constructor.
  assert (H2 : chat_a = (inr answer_a, after_a, chat_a.2)) by (vm_compute; reflexivity).
  split; [exact H1|]. split; [exact H2|]. split; [vm_compute; reflexivity|].
  exact (proj2 (@chat_citations_carry_no_page_number well_behaved one_page 0 "doc-a"
                  "/uploads/a.pdf" "a.pdf" [("doc-a", entry_a COMPLETED)] request_a
                  empty_world after_a answer_a chat_a.2 H1 H2)).
Defined.

(** C8 as stated fails at the last execution of a failing job: it reports
    progress 10 and then returns the FAILED result, whose progress is 0. *)
Lemma progress_drops_in_failed_result :
  reported_progress last_execution = [10; 0] /\
  ~ StronglySorted le (reported_progress last_execution).
Proof.
  assert (Hr : reported_progress last_execution = [10; 0]) by (vm_compute; reflexivity).
  split; [exact Hr|]. rewrite Hr. intros Hs.
  inversion Hs as [|? ? _ Hall]; subst.
  inversion Hall as [|? ? Hle _]; subst. lia.
Qed.

End Runs.

(** * Further properties of the services *)

(** ** Storing and deleting chunks *)

Section Storing.
Context `{Env}.
Import Qdrant EmbeddingService VectorStoreService.

Lemma build_points_run (document_id filename : string)
    (metadata : option (gmap string pvalue)) (i : nat)
    (pairs : list (string * vector)) (w : world) :
  build_points document_id filename metadata i pairs w =
  (inr (make_points document_id filename metadata (uuid_count w) i pairs),
   {| points := points w; uuid_count := uuid_count w + length pairs |}, []).
Proof.
  revert i w. induction pairs as [|[chunk embedding] rest IH]; intros i w; simpl.
  - destruct w. by rewrite Nat.add_0_r.
  - unfold bind at 1. unfold fresh_uuid at 1. unfold bind at 1. rewrite IH. simpl.
    do 3 f_equal. lia.
Qed.

Lemma upsert_app (stored b1 b2 : list PointStruct) :
  upsert stored (b1 ++ b2) = upsert (upsert stored b1) b2.
Proof. unfold upsert. by rewrite fold_left_app. Qed.

Lemma first_failed_upsert_None (bs : list (list PointStruct)) :
  first_failed_upsert bs = None <->
  Forall (fun batch => qdrant_upsert_raises (map id batch) = None) bs.
Proof.
  induction bs as [|b bs IH]; simpl; [by split|].
  destruct (qdrant_upsert_raises (map id b)) as [e|] eqn:Hb.
  - split; [done|]. inversion 1; congruence.
  - destruct (first_failed_upsert bs) as [[k e]|].
    + split; [done|]. inversion 1 as [|? ? _ Hbs]; subst. by apply IH in Hbs.
    + split; [|done]. intros _. constructor; [done | by apply IH].
Qed.

Lemma first_failed_upsert_Some (bs : list (list PointStruct)) (k : nat) (e : exn) :
  first_failed_upsert bs = Some (k, e) ->
  exists batch, bs !! k = Some batch /\ qdrant_upsert_raises (map id batch) = Some e /\
                take (S k) bs = take k bs ++ [batch].
Proof.
  revert k. induction bs as [|b bs IH]; intros k; simpl; [done|].
  destruct (qdrant_upsert_raises (map id b)) as [e'|] eqn:Hb.
  - intros [= <- <-]. by exists b.
  - destruct (first_failed_upsert bs) as [[k' e']|]; [|done].
    intros [= <- <-]. destruct (IH k' eq_refl) as (batch & Hl & Hr & Ht).
    exists batch. split; [done|]. split; [done|].
    cbn [take app]. by rewrite <- Ht.
Qed.

(** The upsert loop: the calls up to the first that raises are made, and the
    batches before it are stored. *)
Lemma for_each_client_upsert_run (bs : list (list PointStruct)) (w : world) :
  for_each bs client_upsert w =
  match first_failed_upsert bs with
  | None =>
      (inr tt, {| points := upsert (points w) (concat bs); uuid_count := uuid_count w |},
       map QdrantUpsert bs)
  | Some (k, e) =>
      (inl e,
       {| points := upsert (points w) (concat (take k bs)); uuid_count := uuid_count w |},
       map QdrantUpsert (take (S k) bs))
  end.
Proof.
  revert w. induction bs as [|b bs IH]; intros w; simpl.
  - by destruct w.
  - unfold bind at 1. rewrite client_upsert_run.
    destruct (qdrant_upsert_raises (map id b)) as [e|]; [by destruct w|].
    rewrite IH. destruct (first_failed_upsert bs) as [[k e]|]; simpl;
      by rewrite upsert_app.
Qed.

Lemma batches_concat {A} (fuel n : nat) (l : list A) :
  0 < n -> length l <= fuel -> concat (batches fuel n l) = l.
Proof.
  intros Hn. revert l. induction fuel as [|fuel IH]; intros l Hl.
  - destruct l; [done | simpl in Hl; lia].
  - destruct l as [|x l]; [done|]. cbn [batches concat].
    rewrite IH; [apply take_drop|].
    rewrite length_drop. simpl in *. lia.
Qed.

Lemma batches_sizes {A} (fuel n : nat) (l : list A) :
  0 < n -> Forall (fun b => 0 < length b <= n) (batches fuel n l).
Proof.
  intros Hn. revert l. induction fuel as [|fuel IH]; intros l; [constructor|].
  destruct l as [|x l]; [constructor|]. cbn [batches].
  constructor; [|apply IH]. rewrite length_take. simpl. lia.
Qed.

(** What storing a document does when the text splits into chunks and the
    provider answers them. *)
Lemma store_run (document_id text filename : string)
    (metadata : option (gmap string pvalue)) (embeddings : list vector) (w : world) :
  split_text text <> [] ->
  nomic_embed_text (split_text text) model search_document = NomicEmbeddings embeddings ->
  Forall (fun v => length v = dimension) embeddings ->
  let made := make_points document_id filename metadata (uuid_count w) 0
                (zip (split_text text) embeddings) in
  let bs := batches (length made) 100 made in
  process_document document_id text filename metadata w =
  match first_failed_upsert bs with
  | None =>
      (inr (length (split_text text)),
       {| points := upsert (points w) made;
          uuid_count := uuid_count w + length (zip (split_text text) embeddings) |},
       document_call (split_text text) :: map QdrantUpsert bs)
  | Some (k, e) =>
      (inl e,
       {| points := upsert (points w) (concat (take k bs));
          uuid_count := uuid_count w + length (zip (split_text text) embeddings) |},
       document_call (split_text text) :: map QdrantUpsert (take (S k) bs))
  end.
Proof.
  intros Hne Hresp Hdim made bs. unfold process_document.
  destruct (split_text text) as [|c cs] eqn:Hsplit; [done|].
  unfold bind at 1. rewrite get_embeddings_nonempty by done.
  rewrite generate_embeddings_sync_run, Hresp.
  apply (first_bad_dimension_None 0) in Hdim. rewrite Hdim.
  unfold bind at 1. rewrite build_points_run.
  unfold bind at 1. rewrite for_each_client_upsert_run. fold made. fold bs.
  destruct (first_failed_upsert bs) as [[k e]|]; simpl points; simpl uuid_count.
  - done.
  - unfold bs. rewrite batches_concat by lia. unfold ret. simpl.
    by rewrite app_nil_r.
Qed.

Lemma concat_take_prefix {A} (n : nat) (bs : list (list A)) :
  concat (take n bs) `prefix_of` concat bs.
Proof.
  exists (concat (drop n bs)). by rewrite <- concat_app, take_drop.
Qed.

Lemma upsert_one_Forall (P : PointStruct -> Prop) (p : PointStruct)
    (stored : list PointStruct) :
  P p -> Forall P stored -> Forall P (upsert_one p stored).
Proof.
  intros Hp. induction 1 as [|q stored Hq Hs IH]; simpl.
  - by repeat constructor.
  - destruct (String.eqb (id q) (id p)); by constructor.
Qed.

Lemma upsert_Forall (P : PointStruct -> Prop) (stored batch : list PointStruct) :
  Forall P batch -> Forall P stored -> Forall P (upsert stored batch).
Proof.
  unfold upsert. intros Hb. revert stored.
  induction Hb as [|p batch Hp Hb IH]; intros stored Hs; simpl; [done|].
  apply IH. by apply upsert_one_Forall.
Qed.

Lemma make_points_lookup (document_id filename : string)
    (metadata : option (gmap string pvalue)) (n i j : nat)
    (pairs : list (string * vector)) (p : PointStruct) :
  make_points document_id filename metadata n i pairs !! j = Some p ->
  exists chunk embedding,
    pairs !! j = Some (chunk, embedding) /\
    p = {| id := uuid4 (n + j); vector_ := embedding;
           payload := point_metadata document_id filename (i + j) chunk metadata |}.
Proof.
  revert n i j. induction pairs as [|[chunk embedding] rest IH]; intros n i j; [done|].
  destruct j as [|j]; simpl.
  - intros [= <-]. exists chunk, embedding. by rewrite !Nat.add_0_r.
  - intros Hj. destruct (IH _ _ _ Hj) as (c & e & Hl & ->).
    exists c, e. split; [done|].
    by replace (n + S j) with (S n + j) by lia; replace (i + S j) with (S i + j) by lia.
Qed.

Lemma make_points_length (document_id filename : string)
    (metadata : option (gmap string pvalue)) (n i : nat) (pairs : list (string * vector)) :
  length (make_points document_id filename metadata n i pairs) = length pairs.
Proof.
  revert n i. induction pairs as [|[c e] rest IH]; intros n i; simpl; [done|].
  by rewrite IH.
Qed.

Lemma upserted_batches (bs : list (list PointStruct)) :
  upserted (map QdrantUpsert bs) = concat bs.
Proof.
  unfold upserted. induction bs as [|b bs IH]; simpl; [done|]. by rewrite IH.
Qed.

(** The points a store hands to [client.upsert] are the first of the points
    it built. *)
Lemma store_upserted_prefix (document_id text filename : string)
    (metadata : option (gmap string pvalue)) (embeddings : list vector) (w : world) :
  split_text text <> [] ->
  nomic_embed_text (split_text text) model search_document = NomicEmbeddings embeddings ->
  Forall (fun v => length v = dimension) embeddings ->
  upserted (process_document document_id text filename metadata w).2
    `prefix_of` make_points document_id filename metadata (uuid_count w) 0
                  (zip (split_text text) embeddings).
Proof.
  intros Hne Hresp Hdim. rewrite (store_run _ _ _ _ embeddings) by done. cbv zeta.
  destruct (first_failed_upsert _) as [[k e]|]; cbn [snd];
    change (upserted (?e :: ?l)) with (upserted l); rewrite upserted_batches.
  - etrans; [apply concat_take_prefix|]. by rewrite batches_concat by lia.
  - by rewrite batches_concat by lia.
Qed.

(** X1. When a document is stored, the points go to Qdrant in upsert calls
    of at least one and at most 100 points each, in the order they were
    built. When no call raises, the calls together carry every built point
    once and all are stored. When a call raises, [process_document] raises
    the same exception: the batches before that call are stored, that batch
    is the last one sent, and the later batches are never sent. *)
Theorem store_upserts_in_batches (document_id text filename : string)
    (metadata : option (gmap string pvalue)) (embeddings : list vector) (w : world) :
  split_text text <> [] ->
  nomic_embed_text (split_text text) model search_document = NomicEmbeddings embeddings ->
  Forall (fun v => length v = dimension) embeddings ->
  let made := make_points document_id filename metadata (uuid_count w) 0
                (zip (split_text text) embeddings) in
  let r := process_document document_id text filename metadata w in
  Forall (fun e => match e with
                   | QdrantUpsert batch => 0 < length batch <= 100
                   | _ => True
                   end) r.2 /\
  upserted r.2 `prefix_of` made /\
  (upserts_succeed made ->
     r.1.1 = inr (length (split_text text)) /\ upserted r.2 = made /\
     points r.1.2 = upsert (points w) made) /\
  (forall e, r.1.1 = inl e ->
     exists sent batch,
       upserted r.2 = sent ++ batch /\
       qdrant_upsert_raises (map id batch) = Some e /\
       points r.1.2 = upsert (points w) sent).
Proof.
  intros Hne Hresp Hdim. cbv zeta.
  split; [|split; [by apply (store_upserted_prefix _ _ _ _ embeddings)|]].
  - rewrite (store_run _ _ _ _ embeddings) by done. cbv zeta.
    assert (Hsizes : forall bs' : list (list PointStruct),
      Forall (fun b => 0 < length b <= 100) bs' ->
      Forall (fun e => match e with
                       | QdrantUpsert batch => 0 < length batch <= 100
                       | _ => True
                       end) (map QdrantUpsert bs')).
    { intros bs' Hbs. apply Forall_fmap. eapply Forall_impl; [exact Hbs|]. by intros b Hb. }
    destruct (first_failed_upsert _) as [[k e]|]; cbn [snd]; (constructor; [done|]);
      apply Hsizes; [apply Forall_take|]; apply batches_sizes; lia.
  - rewrite (store_run _ _ _ _ embeddings) by done. cbv zeta. split.
    + intros Hok. apply first_failed_upsert_None in Hok. rewrite Hok. cbn [fst snd].
      split; [done|]. split; [|done].
      change (upserted (?e :: ?l)) with (upserted l).
      rewrite upserted_batches. apply batches_concat; lia.
    + intros e. destruct (first_failed_upsert _) as [[k e']|] eqn:Hfail; [|done].
      cbn [fst snd points]. intros [= ->].
      apply first_failed_upsert_Some in Hfail as (batch & _ & Hraises & Htake).
      exists (concat (take k (batches
                (length (make_points document_id filename metadata (uuid_count w) 0
                           (zip (split_text text) embeddings))) 100
                (make_points document_id filename metadata (uuid_count w) 0
                   (zip (split_text text) embeddings))))), batch.
      split; [|done].
      change (upserted (?e :: ?l)) with (upserted l).
      rewrite upserted_batches, Htake, concat_app. simpl. by rewrite app_nil_r.
Qed.

(** X2. The [i]-th point stored for a document carries the [i]-th chunk as
    "content", [i] as "chunk_index", the chunk's length as "chunk_size", the
    document id and filename, and the [i]-th embedding as its vector,
    provided the caller's metadata has none of these five keys. *)
Theorem stored_chunks_are_numbered (document_id text filename : string)
    (metadata : option (gmap string pvalue)) (embeddings : list vector) (w : world)
    (i : nat) (p : PointStruct) :
  split_text text <> [] ->
  nomic_embed_text (split_text text) model search_document = NomicEmbeddings embeddings ->
  Forall (fun v => length v = dimension) embeddings ->
  keeps_chunk_keys metadata ->
  upserted (process_document document_id text filename metadata w).2 !! i = Some p ->
  exists chunk,
    split_text text !! i = Some chunk /\
    embeddings !! i = Some (vector_ p) /\
    payload p !! "document_id" = Some (VStr document_id) /\
    payload p !! "filename" = Some (VStr filename) /\
    payload p !! "chunk_index" = Some (VInt (Z.of_nat i)) /\
    payload p !! "content" = Some (VStr chunk) /\
    payload p !! "chunk_size" = Some (VInt (Z.of_nat (String.length chunk))).
Proof.
  intros Hne Hresp Hdim Hkeys Hp.
  eapply prefix_lookup_Some in Hp;
    [|by apply (store_upserted_prefix _ _ _ _ embeddings)].
  apply make_points_lookup in Hp as (chunk & embedding & Hz & ->).
  apply lookup_zip_with_Some in Hz as (c & e & Heq & Hc & He).
  injection Heq as -> ->.
  exists c. simpl. repeat split; try done; unfold point_metadata, dict_merge;
    (rewrite lookup_union_r; [by simplify_map_eq | apply Hkeys; set_solver]).
Qed.

(** X3. When no upsert call raises, the count [process_document] returns is
    the number of chunks, while the number of points it stores is the
    smaller of the number of chunks and the number of vectors the provider
    returned ([zip] stops at the shorter list): the returned count can
    exceed what was stored. *)
Theorem store_counts_chunks (document_id text filename : string)
    (metadata : option (gmap string pvalue)) (embeddings : list vector) (w : world) :
  split_text text <> [] ->
  nomic_embed_text (split_text text) model search_document = NomicEmbeddings embeddings ->
  Forall (fun v => length v = dimension) embeddings ->
  upserts_succeed (make_points document_id filename metadata (uuid_count w) 0
                     (zip (split_text text) embeddings)) ->
  let r := process_document document_id text filename metadata w in
  r.1.1 = inr (length (split_text text)) /\
  length (upserted r.2) = length (split_text text) `min` length embeddings.
Proof.
  intros Hne Hresp Hdim Hok. cbv zeta.
  rewrite (store_run _ _ _ _ embeddings) by done. cbv zeta.
  apply first_failed_upsert_None in Hok. rewrite Hok.
  cbn [fst snd]. split; [done|].
  change (upserted (?e :: ?l)) with (upserted l).
  rewrite upserted_batches, batches_concat by lia.
  by rewrite make_points_length, length_zip_with.
Qed.

(** X4. Storing a document keeps every stored vector at the configured
    dimension, 768, however the call ends. *)
Theorem store_keeps_dimension (document_id text filename : string)
    (metadata : option (gmap string pvalue)) (w : world) :
  dimension_ok (points w) ->
  dimension = 768 /\
  dimension_ok (points (process_document document_id text filename metadata w).1.2).
Proof.
  intros Hw. split; [done|]. unfold process_document.
  destruct (split_text text) as [|c cs] eqn:Hsplit; [done|].
  unfold bind at 1.
  destruct (get_embeddings (c :: cs) w) as [[[e|embeddings] w1] t1] eqn:Hemb.
  - rewrite get_embeddings_nonempty, generate_embeddings_sync_run in Hemb by done.
    by injection Hemb as _ <- _.
  - pose proof (get_embeddings_dimension _ _ _ _ _ Hemb) as Hdim.
    rewrite get_embeddings_nonempty, generate_embeddings_sync_run in Hemb by done.
    injection Hemb as _ <- _.
    unfold bind at 1. rewrite build_points_run.
    unfold bind at 1. rewrite for_each_client_upsert_run.
    assert (Hmade : Forall (fun p => length (vector_ p) = dimension)
              (make_points document_id filename metadata (uuid_count w) 0
                 (zip (c :: cs) embeddings))).
    { apply Forall_lookup_2. intros j p Hp.
      apply make_points_lookup in Hp as (chunk & embedding & Hz & ->). simpl.
      apply (lookup_zip_with_Some pair (c :: cs) embeddings) in Hz
        as (c' & e' & Heq & _ & He).
      injection Heq as -> ->.
      by eapply Forall_lookup_1 in Hdim. }
    destruct (first_failed_upsert _) as [[k e]|]; simpl.
    + apply upsert_Forall; [|done].
      destruct (concat_take_prefix k
                  (batches (length (make_points document_id filename metadata
                                      (uuid_count w) 0 (zip (c :: cs) embeddings))) 100
                     (make_points document_id filename metadata (uuid_count w) 0
                        (zip (c :: cs) embeddings)))) as [rest Hrest].
      rewrite batches_concat in Hrest by lia. rewrite Hrest in Hmade.
      by apply Forall_app in Hmade as [Hsent _].
    + rewrite batches_concat by lia. by apply upsert_Forall.
Qed.

End Storing.

Section Deleting.
Context `{Env}.
Import Qdrant EmbeddingService VectorStoreService DocumentTasks.

Lemma elem_of_List_filter {A} (f : A -> bool) (l : list A) (x : A) :
  x ∈ List.filter f l <-> x ∈ l /\ f x = true.
Proof. rewrite !list_elem_of_In. apply filter_In. Qed.

Lemma NoDup_map_inj {A B} (g : A -> B) (l : list A) (x y : A) :
  NoDup (map g l) -> x ∈ l -> y ∈ l -> g x = g y -> x = y.
Proof.
  induction l as [|z l IH]; simpl; [by intros _ ?%elem_of_nil|].
  rewrite NoDup_cons, !elem_of_cons. intros [Hz Hl] [->|Hx] [->|Hy] Hg; try done.
  - destruct Hz. rewrite Hg. apply list_elem_of_In, in_map, list_elem_of_In, Hy.
  - destruct Hz. rewrite <- Hg. apply list_elem_of_In, in_map, list_elem_of_In, Hx.
  - by apply IH.
Qed.

Lemma List_filter_ext_elem {A} (f g : A -> bool) (l : list A) :
  (forall x, x ∈ l -> f x = g x) -> List.filter f l = List.filter g l.
Proof.
  intros Hfg. apply filter_ext_in. intros x Hx. apply Hfg. by apply list_elem_of_In.
Qed.

(** Deleting by the ids of the points that satisfy [f] removes exactly these
    points, when no two stored points share an id. *)
Lemma delete_points_of_filter (f : PointStruct -> bool) (stored : list PointStruct) :
  NoDup (map id stored) ->
  delete_points stored (map id (List.filter f stored))
  = List.filter (fun p => negb (f p)) stored.
Proof.
  intros Hnd. unfold delete_points. apply List_filter_ext_elem. intros p Hp.
  destruct (f p) eqn:Hf; simpl.
  - apply bool_decide_eq_false. intros Hn. apply Hn.
    apply list_elem_of_In, in_map, list_elem_of_In, elem_of_List_filter. done.
  - apply bool_decide_eq_true. intros Hin.
    apply list_elem_of_In, in_map_iff in Hin as (q & Hid & Hq).
    apply list_elem_of_In, elem_of_List_filter in Hq as [Hq Hfq].
    assert (q = p) as -> by (by eapply (NoDup_map_inj id)).
    congruence.
Qed.

Lemma List_filter_nil_negb {A} (f : A -> bool) (l : list A) :
  List.filter f l = [] -> List.filter (fun x => negb (f x)) l = l.
Proof.
  induction l as [|x l IH]; simpl; [done|].
  destruct (f x); [done|]. simpl. intros Hl. by rewrite IH.
Qed.

Lemma List_filter_negb_nil {A} (f : A -> bool) (l : list A) :
  List.filter f (List.filter (fun x => negb (f x)) l) = [].
Proof.
  induction l as [|x l IH]; simpl; [done|].
  destruct (f x) eqn:Hf; simpl; [done|]. by rewrite Hf.
Qed.

(** What [delete_document] does within the scroll limit. *)
Lemma delete_document_run (document_id : string) (w : world) :
  NoDup (map id (points w)) ->
  length (List.filter (of_document document_id) (points w)) <= 10000 ->
  VectorStoreService.delete_document document_id w =
  match deletion_error document_id (points w) with
  | Some e => (inl e, w, [QdrantScroll (document_filter document_id)])
  | None =>
      (inr (length (List.filter (of_document document_id) (points w))),
       {| points := List.filter (fun p => negb (of_document document_id p)) (points w);
          uuid_count := uuid_count w |},
       [QdrantScroll (document_filter document_id)])
  end.
Proof.
  intros Hnd Hlen. unfold VectorStoreService.delete_document, deletion_error.
  rewrite bind_emit.
  destruct (qdrant_scroll_raises document_id) as [e|]; [done|].
  unfold bind at 1, get_points. unfold scroll.
  change (fun p => filter_holds (Some (document_filter document_id)) (payload p))
    with (of_document document_id).
  rewrite take_ge by done.
  destruct (List.filter (of_document document_id) (points w)) as [|p found] eqn:Hfound.
  - unfold ret. rewrite List_filter_nil_negb by done. by destruct w.
  - rewrite <- Hfound. unfold client_delete.
    destruct (qdrant_delete_raises _) as [e|]; [done|].
    unfold bind, get_points, set_points, ret. simpl.
    rewrite delete_points_of_filter by done. by rewrite length_map.
Qed.

(** X5. Within the scroll limit (the document has at most 10000 points) and
    with distinct stored point ids: when neither the scroll nor the delete
    call raises, [delete_document] returns the number of stored points whose
    payload carries the document id and removes exactly these, so that
    afterwards a point is stored if and only if it was stored before and
    belongs to another document; when the scroll raises, or the delete call
    (made only when the scroll found points) raises, [delete_document]
    raises the same exception and every point stays stored. *)
Theorem delete_document_removes_the_document (document_id : string) (w : world) :
  NoDup (map id (points w)) ->
  length (List.filter (of_document document_id) (points w)) <= 10000 ->
  let r := VectorStoreService.delete_document document_id w in
  match deletion_error document_id (points w) with
  | Some e => r.1.1 = inl e /\ r.1.2 = w
  | None =>
      r.1.1 = inr (length (List.filter (of_document document_id) (points w))) /\
      (forall p, p ∈ points r.1.2 <-> p ∈ points w /\ of_document document_id p = false)
  end.
Proof.
  intros Hnd Hlen. cbv zeta. rewrite delete_document_run by done.
  destruct (deletion_error document_id (points w)) as [e|]; cbn [fst snd points];
    [done|].
  split; [done|]. intros p. rewrite elem_of_List_filter.
  by rewrite negb_true_iff.
Qed.

(** After the points of a document are gone, a search restricted to it finds
    nothing. *)
Lemma search_without_document (document_id query : string) (limit : nat)
    (score_threshold : Q) (w w' : world) (hits : list hit) (t : list event) :
  document_id <> "" ->
  List.filter (of_document document_id) (points w) = [] ->
  search_similar query (Some document_id) limit score_threshold w = (inr hits, w', t) ->
  hits = [].
Proof.
  intros Hne Hnone Hrun. apply search_similar_inr in Hrun as (_ & q0 & Hfmt).
  destruct document_id as [|c d]; [done|]. unfold search in Hfmt.
  change (search_filter (Some (String c d))) with (Some (document_filter (String c d)))
    in Hfmt.
  change (fun p => filter_holds (Some (document_filter (String c d))) (payload p))
    with (of_document (String c d)) in Hfmt.
  rewrite Hnone in Hfmt. simpl in Hfmt. rewrite take_nil in Hfmt.
  by inversion Hfmt.
Qed.

Lemma cleanup_document_run (env : cleanup_env) (document_id : string)
    (file_path : option string) (w : world) :
  cl_vector_store_init env = None ->
  NoDup (map id (points w)) ->
  length (List.filter (of_document document_id) (points w)) <= 10000 ->
  match deletion_error document_id (points w) with
  | Some e =>
      cleanup_document env document_id file_path w
      = (CleanupFailed ("Cleanup failed: " ++ str e) (str e), w,
         [QdrantScroll (document_filter document_id)])
  | None =>
      points (cleanup_document env document_id file_path w).1.2
      = List.filter (fun p => negb (of_document document_id p)) (points w)
  end.
Proof.
  intros Hinit Hnd Hlen.
  destruct (deletion_error document_id (points w)) as [e|] eqn:Herr;
    unfold cleanup_document, cleanup_block; rewrite Hinit; simpl initialize;
    rewrite bind_ret; unfold bind at 1;
    rewrite delete_document_run by done; rewrite Herr; [done|].
  destruct (truthy_opt_str file_path); simpl;
    destruct (cl_doc_processor_init env), (cl_delete_file env); done.
Qed.

(** X6. Once [cleanup_document] has connected to the vector store and
    Qdrant answers the scroll and the delete, the document's chunks are gone
    whether or not the deletion of the file that follows fails: no stored
    point matches the document's filter, the chunk count is 0 and a search
    restricted to the document returns no hit. When the scroll or the delete
    raises, the task returns the error dict with the exception's message,
    every chunk stays stored and the file is not touched. (Under the
    conditions of [delete_document]: at most 10000 chunks, distinct point
    ids.) *)
Theorem cleanup_then_search_finds_nothing (env : cleanup_env) (document_id : string)
    (file_path : option string) (w : world) :
  cl_vector_store_init env = None ->
  document_id <> "" ->
  NoDup (map id (points w)) ->
  length (List.filter (of_document document_id) (points w)) <= 10000 ->
  let r := cleanup_document env document_id file_path w in
  match deletion_error document_id (points w) with
  | Some e =>
      r = (CleanupFailed ("Cleanup failed: " ++ str e) (str e), w,
           [QdrantScroll (document_filter document_id)])
  | None =>
      List.filter (of_document document_id) (points r.1.2) = [] /\
      (get_document_stats document_id r.1.2).1.1 = inr 0 /\
      (forall query limit score_threshold hits w2 t,
         search_similar query (Some document_id) limit score_threshold r.1.2
         = (inr hits, w2, t) ->
         hits = [])
  end.
Proof.
  intros Hinit Hne Hnd Hlen. cbv zeta.
  pose proof (cleanup_document_run env document_id file_path w Hinit Hnd Hlen) as Hrun.
  destruct (deletion_error document_id (points w)) as [e|] eqn:Herr; [done|].
  assert (Hw1 : forall r : cleanup_result * world * list event,
    points r.1.2 = List.filter (fun p => negb (of_document document_id p)) (points w) ->
    List.filter (of_document document_id) (points r.1.2) = [] /\
    (get_document_stats document_id r.1.2).1.1 = inr 0 /\
    (forall query limit score_threshold hits w2 t,
       search_similar query (Some document_id) limit score_threshold r.1.2
       = (inr hits, w2, t) ->
       hits = [])).
  { intros r Hr.
    assert (Hnone : List.filter (of_document document_id) (points r.1.2) = []).
    { rewrite Hr. apply List_filter_negb_nil. }
    split; [done|]. split.
    - rewrite get_document_stats_run. cbn [fst].
      unfold deletion_error in Herr.
      destruct (qdrant_scroll_raises document_id); [done|]. unfold scroll.
      change (fun p => filter_holds (Some (document_filter document_id)) (payload p))
        with (of_document document_id).
      by rewrite Hnone.
    - intros query limit score_threshold hits w2 t Hsearch.
      by eapply search_without_document. }
  by apply Hw1.
Qed.

End Deleting.

(** ** The registry behind the list, status and delete endpoints *)

Section RegistryMore.
Import DocumentTasks App.

Lemma db_get_None (db : documents_db) (k : string) :
  db_get db k = None <-> k ∉ keys db.
Proof.
  induction db as [|[k' v] db IH]; simpl.
  - split; [intros _; apply not_elem_of_nil | done].
  - rewrite not_elem_of_cons. destruct (String.eqb k' k) eqn:Hk.
    + apply String.eqb_eq in Hk as ->. split; [done | by intros [? _]].
    + apply String.eqb_neq in Hk. rewrite IH. split; [by split | by intros [_ ?]].
Qed.

Lemma db_get_elem (db : documents_db) (k : string) (v : doc_info) :
  db_get db k = Some v -> (k, v) ∈ db.
Proof.
  induction db as [|[k' v'] db IH]; simpl; [done|].
  destruct (String.eqb k' k) eqn:Hk.
  - apply String.eqb_eq in Hk as ->. intros [= ->]. apply elem_of_cons. by left.
  - intros Hg. apply elem_of_cons. right. by apply IH.
Qed.


Lemma keys_db_set_present (db : documents_db) (k : string) (v : doc_info) :
  k ∈ keys db -> keys (db_set db k v) = keys db.
Proof.
  induction db as [|[k' v'] db IH]; simpl; [by intros ?%elem_of_nil|].
  destruct (String.eqb k' k) eqn:Hk.
  - by apply String.eqb_eq in Hk as ->.
  - apply String.eqb_neq in Hk. rewrite elem_of_cons. intros [?|Hin]; [done|].
    simpl. by rewrite IH.
Qed.

Lemma keys_db_set_absent (db : documents_db) (k : string) (v : doc_info) :
  k ∉ keys db -> keys (db_set db k v) = keys db ++ [k].
Proof.
  induction db as [|[k' v'] db IH]; simpl; [done|].
  rewrite not_elem_of_cons. intros [Hne Hin].
  apply not_eq_sym, String.eqb_neq in Hne. rewrite Hne. simpl. by rewrite IH.
Qed.

Lemma db_set_Forall (P : string * doc_info -> Prop) (db : documents_db)
    (k : string) (v : doc_info) :
  P (k, v) -> Forall P db -> Forall P (db_set db k v).
Proof.
  intros Hkv. induction 1 as [|[k' v'] db Hx Hdb IH]; simpl.
  - by repeat constructor.
  - destruct (String.eqb k' k); by constructor.
Qed.

Lemma well_keyed_db_set (db : documents_db) (k : string) (v : doc_info) :
  di_id v = k -> well_keyed db -> well_keyed (db_set db k v).
Proof.
  intros Hid [Hnd Hids]. split; [|by apply db_set_Forall].
  destruct (decide (k ∈ keys db)) as [Hin|Hin].
  - by rewrite keys_db_set_present.
  - rewrite keys_db_set_absent by done. apply NoDup_app. split; [done|].
    split; [|apply NoDup_singleton]. intros x Hx ->%list_elem_of_singleton. done.
Qed.

Lemma db_del_elem (db : documents_db) (k : string) (kv : string * doc_info) :
  kv ∈ db_del db k -> kv ∈ db.
Proof.
  induction db as [|[k' v'] db IH]; simpl; [done|].
  destruct (String.eqb k' k).
  - intros Hin. apply elem_of_cons. by right.
  - rewrite !elem_of_cons. intros [->|Hin]; [by left | right; by apply IH].
Qed.

Lemma keys_db_del_elem (db : documents_db) (k x : string) :
  x ∈ keys (db_del db k) -> x ∈ keys db.
Proof.
  induction db as [|[k' v'] db IH]; simpl; [done|].
  destruct (String.eqb k' k); simpl.
  - intros Hin. apply elem_of_cons. by right.
  - rewrite !elem_of_cons. intros [->|Hin]; [by left | right; by apply IH].
Qed.

Lemma NoDup_keys_db_del (db : documents_db) (k : string) :
  NoDup (keys db) -> NoDup (keys (db_del db k)).
Proof.
  induction db as [|[k' v'] db IH]; simpl; [done|].
  rewrite NoDup_cons. intros [Hk' Hnd].
  destruct (String.eqb k' k); simpl; [done|].
  apply NoDup_cons. split; [|by apply IH].
  intros Hin. by apply Hk', keys_db_del_elem with k.
Qed.

Lemma db_get_del_eq (db : documents_db) (k : string) :
  NoDup (keys db) -> db_get (db_del db k) k = None.
Proof.
  induction db as [|[k' v'] db IH]; simpl; [done|].
  rewrite NoDup_cons. intros [Hk' Hnd].
  destruct (String.eqb k' k) eqn:Hk; simpl.
  - apply String.eqb_eq in Hk as ->. by apply db_get_None.
  - rewrite Hk. by apply IH.
Qed.

Lemma db_get_del_ne (db : documents_db) (k k' : string) :
  k <> k' -> db_get (db_del db k) k' = db_get db k'.
Proof.
  intros Hne. induction db as [|[k0 v0] db IH]; simpl; [done|].
  destruct (String.eqb k0 k) eqn:Hk; simpl.
  - apply String.eqb_eq in Hk as ->. by apply String.eqb_neq in Hne as ->.
  - by rewrite IH.
Qed.

Lemma well_keyed_db_del (db : documents_db) (k : string) :
  well_keyed db -> well_keyed (db_del db k).
Proof.
  intros [Hnd Hids]. split; [by apply NoDup_keys_db_del|].
  rewrite Forall_forall in Hids. apply Forall_forall. intros kv Hin.
  apply db_del_elem in Hin. by apply Hids.
Qed.

Lemma refresh_id (d : doc_info) (results : string -> async_result) :
  di_id (refresh d results) = di_id d.
Proof.
  unfold refresh.
  destruct (bool_decide (di_status d = PROCESSING) && truthy_opt_str (di_task_id d));
    [|done].
  by destruct (results (default "" (di_task_id d))).
Qed.

(** X7. The upload, status and delete endpoints keep the registry well
    keyed: every document id is a key once, and every record sits under its
    own id. *)
Theorem endpoints_keep_registry_well_keyed (db : documents_db) (filename : string)
    (size now1 now2 : nat) (saved : exn + string * string) (enqueued : exn + string)
    (document_id : string) (results : string -> async_result) :
  well_keyed db ->
  well_keyed (upload_document db filename size now1 now2 saved enqueued).1 /\
  well_keyed (get_document_status db document_id results).1 /\
  well_keyed (delete_document db document_id).1.
Proof.
  intros Hdb. split; [|split].
  - unfold upload_document. destruct saved as [e|[doc file_path]]; [done|].
    destruct enqueued as [e|task_id]; simpl.
    + by apply well_keyed_db_set.
    + by repeat apply well_keyed_db_set.
  - unfold get_document_status.
    destruct (db_get db document_id) as [d|] eqn:Hd; [|done]. simpl.
    apply well_keyed_db_set; [|done]. rewrite refresh_id.
    apply db_get_elem in Hd. destruct Hdb as [_ Hids].
    rewrite Forall_forall in Hids. exact (Hids _ Hd).
  - unfold delete_document. destruct (db_get db document_id); [|done].
    by apply well_keyed_db_del.
Qed.

(** X8. Deleting a known document answers with the message and schedules the
    cleanup of its id and file; from then on the status endpoint answers 404
    for it and the list does not show it, while every other document is
    still found. *)
Theorem delete_document_forgets_the_document (db : documents_db) (document_id : string)
    (d : doc_info) (results : string -> async_result) :
  well_keyed db ->
  db_get db document_id = Some d ->
  let r := delete_document db document_id in
  r.2 = inr (("Document " ++ document_id ++ " deleted successfully")%string,
             {| sc_document_id := document_id;
                sc_file_path := Some (di_file_path d) |}) /\
  get_document_status r.1 document_id results
    = (r.1, inl {| status_code := 404; detail := "Document not found" |}) /\
  (forall resp, resp ∈ list_documents r.1 -> dr_id resp <> document_id) /\
  (forall other, other <> document_id -> db_get r.1 other = db_get db other).
Proof.
  intros [Hnd Hids] Hd. cbv zeta. unfold delete_document. rewrite Hd. cbn [fst snd].
  split; [done|]. split; [|split].
  - unfold get_document_status. by rewrite db_get_del_eq.
  - intros resp Hin Hid. apply list_documents_elem in Hin as (k & d' & Hin & ->).
    pose proof (db_del_elem _ _ _ Hin) as Hin0.
    rewrite Forall_forall in Hids. specialize (Hids _ Hin0). simpl in *.
    assert (k = document_id) as -> by congruence.
    assert (Hk : document_id ∈ keys (db_del db document_id)).
    { unfold keys. apply list_elem_of_In, in_map_iff. exists (document_id, d').
      split; [done | by apply list_elem_of_In]. }
    by apply db_get_None in Hk; [|by apply db_get_del_eq].
  - intros other Hne. by apply db_get_del_ne.
Qed.


Lemma insert_newest_sorted (x : DocumentResponse) (l : list DocumentResponse) :
  StronglySorted not_older l -> StronglySorted not_older (insert_newest x l).
Proof.
  induction 1 as [|y l Hl IH Hy]; simpl; [by repeat constructor|].
  destruct (dr_uploaded_at y <=? dr_uploaded_at x)%nat eqn:Hle.
  - apply Nat.leb_le in Hle. constructor; [by constructor|].
    constructor; [done|]. eapply Forall_impl; [exact Hy|].
    unfold not_older. intros z Hz. simpl in Hz. lia.
  - apply Nat.leb_gt in Hle. constructor; [done|].
    apply Forall_forall. intros z Hz. apply insert_newest_elem in Hz as [->|Hz].
    + unfold not_older. lia.
    + rewrite Forall_forall in Hy. by apply Hy.
Qed.

Lemma insert_newest_Permutation (x : DocumentResponse) (l : list DocumentResponse) :
  insert_newest x l ≡ₚ x :: l.
Proof.
  induction l as [|y l IH]; simpl; [done|].
  destruct (dr_uploaded_at y <=? dr_uploaded_at x)%nat; [done|].
  rewrite IH. apply Permutation_swap.
Qed.

Lemma insert_newest_uploaded_at_time (n : nat) (x : DocumentResponse)
    (l : list DocumentResponse) :
  uploaded_at_time n (insert_newest x l) = uploaded_at_time n (x :: l).
Proof.
  unfold uploaded_at_time. induction l as [|y l IH]; simpl; [done|].
  destruct (dr_uploaded_at y <=? dr_uploaded_at x)%nat eqn:Hle; [done|].
  apply Nat.leb_gt in Hle. simpl. rewrite IH. simpl.
  destruct (dr_uploaded_at x =? n)%nat eqn:Hx, (dr_uploaded_at y =? n)%nat eqn:Hy;
    try done.
  apply Nat.eqb_eq in Hx, Hy. lia.
Qed.

(** X10. [list_documents] returns every record of the registry once, ordered
    by upload time with the most recent first, and records uploaded at the
    same time in the order of the registry (the sort is stable). *)
Theorem list_documents_newest_first (db : documents_db) :
  list_documents db ≡ₚ map (fun kv => document_response kv.2) db /\
  StronglySorted not_older (list_documents db) /\
  (forall n, uploaded_at_time n (list_documents db)
             = uploaded_at_time n (map (fun kv => document_response kv.2) db)).
Proof.
  unfold list_documents. split; [|split].
  - induction db as [|kv db IH]; simpl; [done|].
    by rewrite insert_newest_Permutation, IH.
  - induction db as [|kv db IH]; simpl; [constructor|].
    by apply insert_newest_sorted.
  - intros n. induction db as [|kv db IH]; simpl; [done|].
    rewrite insert_newest_uploaded_at_time. unfold uploaded_at_time in *. simpl.
    by rewrite IH.
Qed.

End RegistryMore.

(** ** From upload to chat *)

Section Lifecycle.
Context `{Env}.
Import Qdrant EmbeddingService VectorStoreService LLMService DocumentProcessor
  DocumentTasks App.

Lemma store_returns_chunk_count (document_id text filename : string)
    (metadata : option (gmap string pvalue)) (w w' : world) (n : nat) (t : list event) :
  VectorStoreService.process_document document_id text filename metadata w = (inr n, w', t) ->
  n = length (split_text text).
Proof.
  unfold VectorStoreService.process_document.
  destruct (split_text text) as [|c cs]; [by intros [= <- _ _]|].
  unfold bind at 1.
  destruct (get_embeddings (c :: cs) w) as [[[e|embeddings] w1] t1]; [done|].
  unfold bind at 1. rewrite build_points_run.
  unfold bind at 1. rewrite for_each_client_upsert_run.
  destruct (first_failed_upsert _) as [[k e]|]; simpl; [done|].
  by intros [= <- _ _].
Qed.

Lemma extract_text_sync_page_count (file_path : string) (pdf : pdf_file) :
  get_or_zero (_extract_text_sync file_path pdf).2 "page_count"
  = VInt (Z.of_nat (length (pages pdf))).
Proof.
  unfold get_or_zero, _extract_text_sync. simpl.
  destruct (info pdf) as [i|]; [case_bool_decide|]; unfold dict_merge;
    by simplify_map_eq.
Qed.

(** X11. A COMPLETED result of the ingestion task reports the number of
    pages of the PDF (blank ones included) and, as chunk count, the number
    of chunks the splitter makes of the extracted text. *)
Theorem completed_result_counts (env : attempt_env) (retries : nat)
    (document_id file_path filename : string) (metadata : option (gmap string pvalue))
    (w w' : world) (result : task_meta) (t : list event) :
  process_document env retries document_id file_path filename metadata w
    = (Returned result, w', t) ->
  tm_status result = COMPLETED ->
  exists pdf,
    opened env = inr pdf /\
    tm_pages result = Some (VInt (Z.of_nat (length (pages pdf)))) /\
    tm_chunks result
      = Some (length (split_text (_extract_text_sync file_path pdf).1)) /\
    tm_progress result = 100 /\ tm_error result = None.
Proof.
  rewrite process_document_run, try_block_run.
  destruct (doc_processor_init env) as [e1|].
  { destruct (retries <? max_retries)%nat; [done|]. by intros [= <- _ _]. }
  destruct (vector_store_init env) as [e2|].
  { destruct (retries <? max_retries)%nat; [done|]. by intros [= <- _ _]. }
  destruct (opened env) as [e3|pdf].
  { destruct (retries <? max_retries)%nat; [done|]. by intros [= <- _ _]. }
  cbv zeta.
  destruct (VectorStoreService.process_document _ _ _ _ w) as [[[e|n] w1] t1] eqn:Hstore.
  { destruct (retries <? max_retries)%nat; [done|]. by intros [= <- _ _]. }
  apply store_returns_chunk_count in Hstore as ->.
  intros [= <- _ _] _. exists pdf. split; [done|].
  split; [|done]. cbn [tm_pages success_result].
  exact (f_equal Some (extract_text_sync_page_count file_path pdf)).
Qed.

(** X12. A finished job alone does not open a document for chat: after the
    upload the registry says PROCESSING and chat answers 400 until the
    status endpoint has been called; that call copies COMPLETED and the page
    count from the task result, and chat then no longer answers 400 or
    404. *)
Theorem chat_opens_after_status_poll (db : documents_db) (filename : string)
    (size now1 now2 : nat) (doc file_path task_id : string)
    (results : string -> async_result) (result : task_meta)
    (request : ChatRequest) (w : world) :
  task_id <> "" ->
  results task_id = SUCCESS result ->
  tm_status result = COMPLETED ->
  document_id request = doc ->
  let db1 := (upload_document db filename size now1 now2 (inr (doc, file_path))
                (inr task_id)).1 in
  let db2 := (get_document_status db1 doc results).1 in
  chat_with_document db1 request w = (inl (not_ready PROCESSING), w, []) /\
  (exists d, db_get db2 doc = Some d /\ di_status d = COMPLETED /\
             di_pages d = tm_pages result) /\
  (forall err, (chat_with_document db2 request w).1.1 = inl err ->
     status_code err = 500).
Proof.
  intros Htid Hres Hst Hdoc. cbv zeta. subst doc.
  assert (Hd2 : exists d,
    db_get (get_document_status
              (upload_document db filename size now1 now2
                 (inr (document_id request, file_path)) (inr task_id)).1
              (document_id request) results).1 (document_id request) = Some d /\
    di_status d = COMPLETED /\ di_pages d = tm_pages result).
  { unfold get_document_status, upload_document. cbn [fst].
    rewrite db_get_set_eq. cbn [fst]. rewrite db_get_set_eq.
    eexists. split; [reflexivity|]. unfold refresh. simpl.
    destruct task_id as [|c tid]; [done|]. simpl. rewrite Hres. simpl. by rewrite Hst. }
  split; [|split; [exact Hd2|]].
  - unfold chat_with_document, upload_document. cbn [fst]. by rewrite db_get_set_eq.
  - destruct Hd2 as (d & Hd & Hc & _). intros err.
    unfold chat_with_document. rewrite Hd, bool_decide_eq_true_2 by done.
    destruct (chat_body request d w) as [[[e|r] w1] t1]; [|done].
    by intros [= <-].
Qed.

Lemma search_similar_world (query : string) (document_id : option string)
    (limit : nat) (score_threshold : Q) (w : world) :
  (search_similar query document_id limit score_threshold w).1.2 = w.
Proof.
  rewrite search_similar_run.
  destruct (get_embeddings_query_trace query w) as [_ Hw].
  by destruct (get_embeddings [query] w) as [[[e|[|q0 qs]] w0] t0].
Qed.

Lemma silent_source_documents (hits : list hit) : silent (map_m source_document hits).
Proof.
  apply silent_map_m. intros h w0. unfold source_document.
  destruct (h_content h); [|by eexists].
  destruct (h_metadata h !! "page_number") as [[?|?]|]; by eexists.
Qed.

(** X13. How [chat_with_document] can end: 404 for an unknown document and
    400 for one that is not COMPLETED, both without any outside call and
    with the stored chunks untouched; for a COMPLETED document either the
    answer, for the requested document, or 500 with the fixed detail
    "Failed to process chat request", whatever went wrong inside. A chat
    never changes the stored chunks. *)
Theorem chat_with_document_outcomes (db : documents_db) (request : ChatRequest)
    (w : world) :
  let r := chat_with_document db request w in
  points r.1.2 = points w /\
  match db_get db (document_id request) with
  | None =>
      r = (inl {| status_code := 404; detail := "Document not found" |}, w, [])
  | Some d =>
      if bool_decide (di_status d = COMPLETED)
      then (exists resp, r.1.1 = inr resp /\ cr_document_id resp = document_id request)
           \/ r.1.1 = inl {| status_code := 500;
                             detail := "Failed to process chat request" |}
      else r = (inl (not_ready (di_status d)), w, [])
  end.
Proof.
  cbv zeta. unfold chat_with_document.
  destruct (db_get db (document_id request)) as [d|]; [|done].
  case_bool_decide as Hst; [|done].
  assert (Hbody : forall r w1 t1, chat_body request d w = (r, w1, t1) ->
            w1 = w /\ forall resp, r = inr resp ->
                        cr_document_id resp = document_id request).
  { intros r w1 t1. unfold chat_body. unfold bind at 1. rewrite get_document_stats_run.
    unfold bind at 1.
    pose proof (search_similar_world (message request) (Some (document_id request))
                  5 (1 # 2) w) as Hsw.
    destruct (search_similar _ _ _ _ w) as [[[e|hits] w0] t0]; simpl in Hsw; subst w0.
    { by intros [= <- <- _]. }
    unfold bind at 1.
    destruct (silent_source_documents hits w) as [r0 ->].
    destruct r0 as [e|docs]; [by intros [= <- <- _]|].
    unfold bind at 1. rewrite generate_response_run.
    destruct (llm_create _) as [e|[|a l]]; simpl; intros [= <- <- _]; split; try done.
    by intros resp [= <-]. }
  destruct (chat_body request d w) as [[[e|resp] w1] t1] eqn:Hrun;
    destruct (Hbody _ _ _ eq_refl) as [-> Hid]; simpl.
  - split; [done | by right].
  - split; [done|]. left. exists resp. split; [done | by apply Hid].
Qed.

End Lifecycle.

(** ** Generation gateway: history window and summaries *)

Section Generation.
Context `{Env}.
Import LLMService.

(** X14. The messages sent to the model are the system prompt, then at most
    the last ten messages of the conversation history in their order, then
    the user message with the context and the question. *)
Theorem build_messages_history_window (query context : string)
    (conversation_history : option (list ChatMessage)) :
  let history := default [] conversation_history in
  exists older kept,
    history = older ++ kept /\
    length kept = length history `min` 10 /\
    _build_messages query context conversation_history
    = {| role := "system"; content := system_prompt |}
        :: kept ++ [ {| role := "user"; content := user_message context query |} ].
Proof.
  cbv zeta. set (history := default [] conversation_history).
  exists (take (length history - 10) history), (last_ten history).
  unfold last_ten. split; [by rewrite take_drop|]. split; [|done].
  rewrite length_drop. lia.
Qed.

Lemma string_length_app (a b : string) :
  String.length (a ++ b) = String.length a + String.length b.
Proof.
  induction a as [|c a IH]; [done|].
  change (S (String.length (a ++ b)) = S (String.length a) + String.length b).
  by rewrite IH.
Qed.

Lemma string_app_assoc (a b c : string) : ((a ++ b) ++ c = a ++ (b ++ c))%string.
Proof.
  induction a as [|x a IH]; [done|].
  change (String x ((a ++ b) ++ c) = String x (a ++ (b ++ c)))%string. by rewrite IH.
Qed.

Lemma string_app_nil_r (a : string) : (a ++ "" = a)%string.
Proof.
  induction a as [|x a IH]; [done|].
  change (String x (a ++ "") = String x a)%string. by rewrite IH.
Qed.

Lemma combine_chunks_bound (combined_content : string) (document_chunks : list string) :
  String.length combined_content <= max_content_length + 2 ->
  String.length (combine_chunks combined_content document_chunks)
    <= max_content_length + 2.
Proof.
  revert combined_content.
  induction document_chunks as [|chunk rest IH]; intros combined Hc; simpl; [done|].
  destruct (max_content_length <? String.length combined + String.length chunk)%nat
    eqn:Hfit; [done|].
  apply Nat.ltb_ge in Hfit. apply IH.
  rewrite !string_length_app. change (String.length nl) with 1. lia.
Qed.

Lemma combine_chunks_prefix (combined_content : string) (document_chunks : list string) :
  exists k,
    k <= length document_chunks /\
    combine_chunks combined_content document_chunks
    = (combined_content ++ with_breaks (take k document_chunks))%string /\
    (k = length document_chunks \/
     exists chunk, document_chunks !! k = Some chunk /\
       max_content_length
       < String.length (combined_content ++ with_breaks (take k document_chunks))
         + String.length chunk).
Proof.
  revert combined_content.
  induction document_chunks as [|chunk rest IH]; intros combined; simpl.
  - exists 0. simpl. rewrite string_app_nil_r. split; [done|]. split; [done | by left].
  - destruct (max_content_length <? String.length combined + String.length chunk)%nat
      eqn:Hfit.
    + apply Nat.ltb_lt in Hfit. exists 0. simpl. rewrite string_app_nil_r.
      split; [lia|]. split; [done|]. right. by exists chunk.
    + destruct (IH (combined ++ chunk ++ nl ++ nl)%string) as (k & Hk & Heq & Hstop).
      exists (S k). simpl. rewrite Heq, !string_app_assoc.
      split; [lia|]. split; [done|].
      destruct Hstop as [->|(c & Hc & Hlen)]; [by left|].
      right. exists c. split; [done|]. by rewrite !string_app_assoc in Hlen.
Qed.

(** X15. [summarize_document] never raises and calls the model once; the
    document content it sends is the first chunks of the document, each
    followed by a blank line, up to the first chunk that would take the
    content past 15000 characters (later chunks are left out even when they
    would fit), so it has at most 15002 characters. *)
Theorem summarize_document_content_bounded (document_chunks : list string)
    (filename : string) (w : world) :
  let combined_content := combine_chunks "" document_chunks in
  let r := summarize_document document_chunks filename w in
  r.1.2 = w /\
  r.2 = [LLMCreate (summary_messages combined_content filename)] /\
  String.length combined_content <= 15002 /\
  exists k,
    k <= length document_chunks /\
    combined_content = with_breaks (take k document_chunks) /\
    (k = length document_chunks \/
     exists chunk, document_chunks !! k = Some chunk /\
       15000 < String.length combined_content + String.length chunk).
Proof.
  cbv zeta. split; [done|]. split; [done|]. split.
  - apply (combine_chunks_bound "" document_chunks). simpl. lia.
  - destruct (combine_chunks_prefix "" document_chunks) as (k & Hk & Heq & Hstop).
    simpl in Heq, Hstop. exists k. split; [done|]. split; [done|].
    destruct Hstop as [->|(c & Hc & Hlen)]; [by left|].
    right. exists c. split; [done|]. by rewrite Heq.
Qed.

End Generation.

(** ** Embedding gateway: queries and health *)

Section QueryEmbedding.
Context `{Env}.
Import EmbeddingService.

Lemma generate_query_embedding_run (query : string) (w : world) :
  get_query_embedding query w =
  (match nomic_embed_text [query] model search_query with
   | NomicRaises e => inl (query_generation_failed (str e))
   | NomicFalsy | NomicNoEmbeddings | NomicEmbeddings [] =>
       inl (query_generation_failed "Invalid response from Nomic API")
   | NomicEmbeddings (embedding :: _) =>
       if bool_decide (length embedding = dimension) then inr embedding
       else inl (query_generation_failed
                   ("Unexpected embedding dimension: " ++ pretty (length embedding)
                      ++ " != " ++ pretty dimension))
   end, w, [NomicEmbedText [query] model search_query]).
Proof.
  unfold get_query_embedding, _generate_query_embedding_sync. rewrite bind_emit.
  destruct (nomic_embed_text [query] model search_query) as [e| | |[|v vs]]; try done.
  by case_bool_decide.
Qed.

(** X16. [get_query_embedding] embeds the query with the query task type in
    one call and returns the provider's first vector exactly when that
    vector has 768 components (further vectors in the answer are ignored);
    what it returns always has 768 components. *)
Theorem get_query_embedding_first_vector (query : string) (w : world) :
  (forall v w' t, get_query_embedding query w = (inr v, w', t) ->
     length v = 768 /\ w' = w /\ t = [NomicEmbedText [query] model search_query] /\
     exists others,
       nomic_embed_text [query] model search_query = NomicEmbeddings (v :: others)) /\
  (forall v others,
     nomic_embed_text [query] model search_query = NomicEmbeddings (v :: others) ->
     length v = 768 ->
     get_query_embedding query w
     = (inr v, w, [NomicEmbedText [query] model search_query])).
Proof.
  split.
  - intros v w' t. rewrite generate_query_embedding_run.
    destruct (nomic_embed_text [query] model search_query) as [e| | |[|v0 vs]];
      try done.
    case_bool_decide as Hlen; [|done]. intros [= <- <- <-].
    repeat split; try done. by exists vs.
  - intros v others Hresp Hlen. rewrite generate_query_embedding_run, Hresp.
    by rewrite bool_decide_eq_true_2.
Qed.

(** X17. The embedding service reports healthy exactly when an API key is
    configured and the provider answers the probe text with one vector of
    768 components; in every other case, a provider exception included, it
    reports unhealthy instead of raising. *)
Theorem health_check_healthy_iff (api_key : option string) (w : world) :
  (health_check api_key w).1.1 = Healthy model 768 <->
  truthy_opt_str api_key = true /\
  exists v, nomic_embed_text ["health check"] model search_document = NomicEmbeddings [v]
            /\ length v = 768.
Proof.
  unfold health_check. destruct (truthy_opt_str api_key).
  2: { split; [done | by intros [? _]]. }
  rewrite get_embeddings_nonempty by done. rewrite generate_embeddings_sync_run.
  destruct (nomic_embed_text ["health check"] model search_document)
    as [e| | |embeddings]; simpl.
  1-3: split; [done | by intros (_ & ? & ? & _)].
  destruct (first_bad_dimension 0 embeddings) as [[i n]|] eqn:Hbad; simpl.
  - split; [done|]. intros (_ & v & [= ->] & Hlen). simpl in Hbad.
    by rewrite bool_decide_eq_true_2 in Hbad.
  - apply first_bad_dimension_None in Hbad.
    destruct embeddings as [|v [|v' vs]]; simpl.
    + split; [done | by intros (_ & ? & ? & _)].
    + inversion Hbad as [|? ? Hv _]; subst. rewrite bool_decide_eq_true_2 by done.
      split; [|done]. intros _. split; [done|]. by exists v.
    + split; [done | by intros (_ & ? & ? & _)].
Qed.

End QueryEmbedding.

(** ** The search endpoint *)

Section SearchEndpoint.
Context `{Env}.
Import Qdrant EmbeddingService VectorStoreService App.

Lemma insert_desc_elem (x y : ScoredPoint) (l : list ScoredPoint) :
  x ∈ insert_desc y l <-> x = y \/ x ∈ l.
Proof.
  induction l as [|z l IH]; simpl.
  - rewrite list_elem_of_singleton, elem_of_nil. tauto.
  - destruct (Qle_bool (score z) (score y)).
    + rewrite !elem_of_cons. tauto.
    + rewrite !elem_of_cons, IH. tauto.
Qed.

Lemma insert_desc_sorted (x : ScoredPoint) (l : list ScoredPoint) :
  StronglySorted scores_no_less l -> StronglySorted scores_no_less (insert_desc x l).
Proof.
  induction 1 as [|y l Hl IH Hy]; simpl; [by repeat constructor|].
  destruct (Qle_bool (score y) (score x)) eqn:Hle.
  - apply Qle_bool_iff in Hle. constructor; [by constructor|].
    constructor; [done|]. eapply Forall_impl; [exact Hy|].
    unfold scores_no_less. intros z Hz. simpl in Hz. by eapply Qle_trans.
  - assert (Hlt : (score x <= score y)%Q).
    { apply Qlt_le_weak, Qnot_le_lt. intros Hc. apply Qle_bool_iff in Hc. congruence. }
    constructor; [done|]. apply Forall_forall. intros z Hz.
    apply insert_desc_elem in Hz as [->|Hz]; [done|].
    rewrite Forall_forall in Hy. by apply Hy.
Qed.

Lemma sort_desc_sorted (l : list ScoredPoint) : StronglySorted scores_no_less (sort_desc l).
Proof.
  induction l as [|x l IH]; simpl; [constructor|]. by apply insert_desc_sorted.
Qed.

Lemma StronglySorted_take_prefix {A} (R : A -> A -> Prop) (n : nat) (l : list A) :
  StronglySorted R l -> StronglySorted R (take n l).
Proof.
  intros Hl. revert n. induction Hl as [|x l Hl IH Hx]; intros [|n]; simpl;
    try constructor; [apply IH | by apply Forall_take].
Qed.

(** Qdrant's answer is ordered by score, best first. *)
Lemma search_sorted (stored : list PointStruct) (query_vector : vector)
    (query_filter : option Filter) (limit : nat) (score_threshold : Q) :
  StronglySorted scores_no_less
    (search stored query_vector query_filter limit score_threshold).
Proof. unfold search. apply StronglySorted_take_prefix, sort_desc_sorted. Qed.

Lemma StronglySorted_Forall2 {A B} (P : A -> B -> Prop) (R : A -> A -> Prop)
    (R' : B -> B -> Prop) (l : list A) (k : list B) :
  (forall a b a' b', P a a' -> P b b' -> R a b -> R' a' b') ->
  Forall2 P l k -> StronglySorted R l -> StronglySorted R' k.
Proof.
  intros HP Hlk. induction Hlk as [|a a' l k Ha Hlk IH]; intros Hs; [constructor|].
  inversion Hs as [|? ? Hl Hal]; subst. constructor; [by apply IH|].
  clear IH Hs Hl. induction Hlk as [|b b' l k Hb Hlk IH]; [constructor|].
  inversion Hal as [|? ? Hab Hrest]; subst. constructor; [by eapply HP | by apply IH].
Qed.

Lemma search_result_inr (h : hit) (w w' : world) (r : SearchResult) (t : list event) :
  search_result h w = (inr r, w', t) -> shows h r.
Proof.
  unfold search_result, shows.
  destruct (h_content h) as [c|?], (h_document_id h) as [d|?], (h_filename h) as [f|?];
    try done.
  destruct (h_metadata h !! "page_number") as [[?|?]|]; [done| |];
    by intros [= <- _ _].
Qed.

Lemma map_m_search_result_inr (hits : list hit) (w w' : world)
    (rs : list SearchResult) (t : list event) :
  map_m search_result hits w = (inr rs, w', t) -> Forall2 shows hits rs.
Proof.
  revert rs w w' t. induction hits as [|h hits IH]; intros rs w w' t; simpl.
  - intros [= <- _ _]. constructor.
  - unfold bind at 1.
    destruct (search_result h w) as [[[e|r] w1] t1] eqn:Hr; [done|].
    unfold bind at 1.
    destruct (map_m search_result hits w1) as [[[e|rs'] w2] t2] eqn:Hrs; [done|].
    simpl. intros [= <- _ _]. constructor; [by eapply search_result_inr | by eapply IH].
Qed.

Lemma silent_search_results (hits : list hit) : silent (map_m search_result hits).
Proof.
  apply silent_map_m. intros h w0. unfold search_result.
  destruct (h_content h), (h_document_id h), (h_filename h); try by eexists.
  destruct (h_metadata h !! "page_number") as [[?|?]|]; by eexists.
Qed.

(** X18. A successful answer of the search endpoint lists at most [limit]
    results, each with a score of at least 0.6, ordered by score with the
    best first; [total_results] is their number; when the request names a
    non-empty document id, every result belongs to that document; and the
    stored chunks are left as they were. *)
Theorem search_documents_results (request : SearchRequest) (w w' : world)
    (resp : SearchResponse) (t : list event) :
  search_documents request w = (inr resp, w', t) ->
  w' = w /\
  sr_query resp = query request /\
  total_results resp = length (results resp) /\
  length (results resp) <= limit request /\
  Forall (fun r => (6 # 10 <= sr_confidence_score r)%Q) (results resp) /\
  StronglySorted no_less_relevant (results resp) /\
  (forall d, sr_document_id_filter request = Some d -> d <> "" ->
     Forall (fun r => sr_document_id r = d) (results resp)).
Proof.
  unfold search_documents, search_body. unfold bind at 1.
  destruct (search_similar _ _ _ _ w) as [[[e|hits] w1] t1] eqn:Hsearch; [done|].
  apply search_similar_inr in Hsearch as (-> & q0 & Hfmt).
  unfold bind at 1.
  destruct (silent_search_results hits w) as [r0 Hsilent]. rewrite Hsilent.
  destruct r0 as [e|rs]; [done|]. simpl. intros [= <- <- _]. simpl.
  apply map_m_search_result_inr in Hsilent as Hshows.
  split; [done|]. split; [done|]. split; [done|].
  set (found := search (points w) q0 (search_filter (sr_document_id_filter request))
                  (limit request) (6 # 10)) in *.
  split; [|split; [|split]].
  - rewrite <- (Forall2_length _ _ _ Hshows), <- (Forall2_length _ _ _ Hfmt).
    apply search_length.
  - pose proof (search_respects_threshold (points w) q0
                  (search_filter (sr_document_id_filter request)) (limit request)
                  (6 # 10)) as Hthr. fold found in Hthr.
    clear -Hfmt Hshows Hthr. revert rs Hshows.
    induction Hfmt as [|s h ss hs Hsh _ IH]; intros rs Hshows.
    + inversion Hshows. constructor.
    + inversion Hshows as [|? r ? rs' Hr Hrest]; subst.
      inversion Hthr as [|? ? Hs Hss]; subst.
      constructor; [|by apply IH].
      destruct Hsh as (_ & _ & _ & _ & Hscore & _). destruct Hr as (_ & _ & _ & ->).
      rewrite Hscore. by apply Qle_bool_iff.
  - eapply (StronglySorted_Forall2 shows (fun a b => (h_score b <= h_score a)%Q));
      [..|exact Hshows|].
    { intros a b a' b' (_ & _ & _ & Ha) (_ & _ & _ & Hb) Hab.
      unfold no_less_relevant. by rewrite Ha, Hb. }
    eapply (StronglySorted_Forall2 formats scores_no_less); [..|exact Hfmt|].
    { intros a b a' b' (_ & _ & _ & _ & Ha & _) (_ & _ & _ & _ & Hb & _) Hab.
      unfold scores_no_less in Hab. by rewrite Ha, Hb. }
    apply search_sorted.
  - intros d Hd Hne. unfold found in Hfmt. rewrite Hd in Hfmt.
    pose proof (filtered_hits_document_id d _ hits Hne
                  (search_respects_filter _ _ _ _ _) Hfmt) as Hdoc.
    clear -Hshows Hdoc. induction Hshows as [|h r hs rs' Hr _ IH]; [constructor|].
    inversion Hdoc as [|? ? Hh Hrest]; subst. constructor; [|by apply IH].
    destruct Hr as (_ & Hid & _). congruence.
Qed.

End SearchEndpoint.

(** ** Retries and the uploaded file *)

Section Retries.
Context `{Env}.
Import Qdrant EmbeddingService DocumentProcessor DocumentTasks.

Lemma deleted_files_app (t1 t2 : list event) :
  deleted_files (t1 ++ t2) = deleted_files t1 ++ deleted_files t2.
Proof. unfold deleted_files. by rewrite map_app, concat_app. Qed.

Lemma keeps_files_bind {A B} (m : M A) (k : A -> M B) :
  keeps_files m -> (forall a, keeps_files (k a)) -> keeps_files (bind m k).
Proof.
  intros Hm Hk w. unfold bind. specialize (Hm w).
  destruct (m w) as [[[e|a] w1] t1]; [done|].
  specialize (Hk a w1). destruct (k a w1) as [[r w2] t2]. simpl in *.
  by rewrite deleted_files_app, Hm, Hk.
Qed.

Lemma keeps_files_for_each {A} (l : list A) (body : A -> M unit) :
  (forall x, keeps_files (body x)) -> keeps_files (for_each l body).
Proof.
  intros Hb. induction l as [|x l IH]; simpl; [done|].
  apply keeps_files_bind; [done|]. by intros _.
Qed.

Lemma keeps_files_store (document_id text filename : string)
    (metadata : option (gmap string pvalue)) :
  keeps_files (VectorStoreService.process_document document_id text filename metadata).
Proof.
  unfold VectorStoreService.process_document.
  destruct (split_text text) as [|c cs]; [done|].
  apply keeps_files_bind.
  { intros w. rewrite get_embeddings_nonempty by done.
    by rewrite generate_embeddings_sync_run. }
  intros embeddings. apply keeps_files_bind.
  { intros w. by rewrite build_points_run. }
  intros pts. apply keeps_files_bind; [|done].
  apply keeps_files_for_each. intros b w. rewrite client_upsert_run.
  by destruct (qdrant_upsert_raises (map id b)).
Qed.

Lemma try_block_keeps_files (env : attempt_env) (document_id file_path filename : string)
    (metadata : option (gmap string pvalue)) :
  keeps_files (try_block env document_id file_path filename metadata).
Proof.
  intros w. rewrite try_block_run.
  destruct (doc_processor_init env); [done|].
  destruct (vector_store_init env); [done|].
  destruct (opened env) as [e|pdf]; [done|]. cbv zeta.
  pose proof (keeps_files_store document_id (_extract_text_sync file_path pdf).1 filename
    (Some (combine_metadata metadata (_extract_text_sync file_path pdf).2 (request_id env)))
    w) as Hst.
  destruct (VectorStoreService.process_document _ _ _ _ w) as [[[e|n] w'] t];
    simpl in *; [done|].
  change (extracting ?d :: extracted ?d ?p :: storing ?d ?q :: t ++ [?f])
    with ([extracting d; extracted d p; storing d q] ++ t ++ [f]).
  by rewrite !deleted_files_app, Hst.
Qed.

(** X19. An execution of the ingestion task deletes the uploaded file
    exactly when its [try] block fails, also when it then asks for a retry;
    after a failure it asks for a retry with a delay of 60 * (retries + 1)
    seconds while [retries] is below 3, and returns the FAILED result
    otherwise; a successful execution returns its result and deletes
    nothing. *)
Theorem failed_execution_deletes_file (env : attempt_env) (retries : nat)
    (document_id file_path filename : string) (metadata : option (gmap string pvalue))
    (w : world) :
  let r := process_document env retries document_id file_path filename metadata w in
  match (try_block env document_id file_path filename metadata w).1.1 with
  | inr result => r.1.1 = Returned result /\ deleted_files r.2 = []
  | inl e =>
      deleted_files r.2 = [file_path] /\
      r.1.1 = if (retries <? 3)%nat then RetryRaised (60 * (retries + 1))
              else Returned (error_result e document_id)
  end.
Proof.
  cbv zeta. rewrite process_document_run.
  pose proof (try_block_keeps_files env document_id file_path filename metadata w) as Hk.
  destruct (try_block _ _ _ _ _ w) as [[[e|result] w'] t]; simpl in *.
  - split; [|done]. by rewrite deleted_files_app, Hk.
  - by split.
Qed.

Lemma try_block_unopened (env : attempt_env) (document_id file_path filename : string)
    (metadata : option (gmap string pvalue)) (w : world) (e : exn) :
  opened env = inl e ->
  exists e', (try_block env document_id file_path filename metadata w).1.1 = inl e'.
Proof.
  intros Ho. rewrite try_block_run, Ho.
  destruct (doc_processor_init env); [by eexists|].
  destruct (vector_store_init env); by eexists.
Qed.

Lemma disk_after_missing (files : gmap string (exn + pdf_file)) (io : attempt_io)
    (document_id file_path filename : string) (metadata : option (gmap string pvalue))
    (w : world) :
  files !! file_path = None ->
  disk_after files io document_id file_path filename metadata w !! file_path = None.
Proof.
  intros Hf. unfold disk_after.
  destruct ((try_block _ _ _ _ _ w).1.1); [|done].
  destruct (io_remove_fails io); [done|]. apply lookup_delete_eq.
Qed.

(** Once the file is gone every execution fails, and the job ends FAILED
    after the last retry. *)
Lemma deliver_on_disk_missing (fuel : nat) (ios : nat -> attempt_io)
    (files : gmap string (exn + pdf_file)) (retries : nat)
    (document_id file_path filename : string) (metadata : option (gmap string pvalue))
    (w : world) :
  files !! file_path = None ->
  retries <= max_retries ->
  max_retries - retries < fuel ->
  let j := deliver_on_disk fuel ios files retries document_id file_path filename
             metadata w in
  executions j = S (max_retries - retries) /\
  exists e, final j = SUCCESS (error_result e document_id).
Proof.
  revert files retries w.
  induction fuel as [|fuel IH]; intros files retries w Hf Hr Hfuel; [lia|].
  cbn [deliver_on_disk]. rewrite process_document_run.
  destruct (try_block_unopened (env_on files (ios retries) file_path) document_id
              file_path filename metadata w
              (Exception ("[Errno 2] No such file or directory: '" ++ file_path ++ "'")))
    as [e He].
  { unfold env_on, open_pdf. simpl. by rewrite Hf. }
  destruct (try_block _ _ _ _ _ w) as [[[e'|result] w'] t]; simpl in He; [|done].
  destruct (retries <? max_retries)%nat eqn:Hlt.
  - apply Nat.ltb_lt in Hlt.
    destruct (IH (disk_after files (ios retries) document_id file_path filename
                    metadata w) (S retries) w') as [Hex Hfin];
      [by apply disk_after_missing | lia | lia |].
    cbn [executions final]. split; [unfold max_retries in *; lia | done].
  - apply Nat.ltb_ge in Hlt. cbn [executions final].
    split; [unfold max_retries in *; lia | by eexists].
Qed.

(** X20. A job whose first execution fails cannot succeed on a retry: the
    failed execution removes the uploaded file before it asks for the retry,
    so each of the three retries fails as well (at the latest when it opens
    the file) and the job ends with the FAILED result after four
    executions. *)
Theorem retry_after_failure_never_succeeds (ios : nat -> attempt_io)
    (files : gmap string (exn + pdf_file))
    (document_id file_path filename : string) (metadata : option (gmap string pvalue))
    (w : world) (e0 : exn) :
  (try_block (env_on files (ios 0) file_path) document_id file_path filename
     metadata w).1.1 = inl e0 ->
  io_remove_fails (ios 0) = false ->
  let j := deliver_on_disk (S max_retries) ios files 0 document_id file_path filename
             metadata w in
  executions j = 4 /\
  exists e, final j = SUCCESS (error_result e document_id) /\
            tm_status (error_result e document_id) = FAILED.
Proof.
  intros Hfail Hremove. cbv zeta. cbn [deliver_on_disk].
  rewrite process_document_run.
  assert (Hdisk : disk_after files (ios 0) document_id file_path filename metadata w
                  !! file_path = None).
  { unfold disk_after. rewrite Hfail, Hremove. apply lookup_delete_eq. }
  destruct (try_block _ _ _ _ _ w) as [[[e'|result] w'] t]; simpl in Hfail; [|done].
  change (0 <? max_retries)%nat with true. cbv iota.
  destruct (deliver_on_disk_missing max_retries ios
              (disk_after files (ios 0) document_id file_path filename metadata w)
              1 document_id file_path filename metadata w' Hdisk)
    as [Hex [e Hfin]]; [unfold max_retries; lia.. |].
  cbv zeta in Hex, Hfin. cbn [executions final]. split.
  - rewrite Hex. reflexivity.
  - exists e. by split.
Qed.

End Retries.

(** ** Extraction and the payload of ingested chunks *)

Section Extraction.
Context `{Env}.
Import Qdrant EmbeddingService VectorStoreService DocumentProcessor DocumentTasks.

Lemma join_empty (sep : string) (parts : list string) :
  Forall (fun x => x <> "") parts -> join sep parts = "" -> parts = [].
Proof.
  intros Hne Hj. destruct parts as [|x [|y rest]]; [done| |].
  - simpl in Hj. by inversion Hne.
  - exfalso. inversion Hne as [|? ? Hx _]; subst.
    destruct x as [|c x]; [done|]. cbn [join] in Hj.
    change (String c (x ++ sep ++ join sep (y :: rest)) = "") in Hj. discriminate Hj.
Qed.

Lemma text_parts_nonempty (page_num : nat) (ps : list string) :
  Forall (fun x => x <> "") (text_parts page_num ps).
Proof.
  revert page_num. induction ps as [|page_text rest IH]; intros page_num; simpl;
    [constructor|].
  destruct (blank page_text); [apply IH|]. constructor; [|apply IH]. done.
Qed.

Lemma text_parts_nil (page_num : nat) (ps : list string) :
  text_parts page_num ps = [] <-> Forall (fun page_text => blank page_text = true) ps.
Proof.
  revert page_num. induction ps as [|page_text rest IH]; intros page_num; simpl.
  - split; [constructor | done].
  - destruct (blank page_text) eqn:Hb.
    + rewrite IH. split; [by constructor | by inversion 1].
    + split; [done | inversion 1; congruence].
Qed.

Ltac not_listed :=
  let Hin := fresh "Hin" in
  intros Hin;
  repeat (apply elem_of_cons in Hin as [Hin|Hin]; [discriminate Hin|]);
  by apply elem_of_nil in Hin.

Lemma extract_text_sync_lookup (file_path : string) (pdf : pdf_file) (k : string) :
  k ∉ ["title"; "author"; "subject"; "creator"] ->
  (<["page_count" := VInt (Z.of_nat (length (pages pdf)))]>
     (<["text_length" :=
          VInt (Z.of_nat (String.length (_extract_text_sync file_path pdf).1))]>
        (<["file_size" := VInt (Z.of_nat (file_size pdf))]>
           (<["file_path" := VStr file_path]> (∅ : gmap string pvalue))))) !! k
  = (_extract_text_sync file_path pdf).2 !! k.
Proof.
  intros Hk. unfold _extract_text_sync. cbn [fst snd].
  destruct (info pdf) as [i|]; [|done].
  destruct (bool_decide (i = ∅)); [done|].
  unfold dict_merge. rewrite lookup_union_r; [done|].
  repeat (rewrite lookup_insert_ne by (intros <-; apply Hk; set_solver)).
  done.
Qed.

(** X21. The extracted text is empty exactly when every page is blank,
    while "page_count" counts every page, blank or not; "text_length" is the
    length of the extracted text and "file_path" the path read, also when
    the PDF brings metadata of its own. *)
Theorem extract_text_sync_blank_pages (file_path : string) (pdf : pdf_file) :
  let r := _extract_text_sync file_path pdf in
  (r.1 = "" <-> Forall (fun page_text => blank page_text = true) (pages pdf)) /\
  r.2 !! "page_count" = Some (VInt (Z.of_nat (length (pages pdf)))) /\
  r.2 !! "text_length" = Some (VInt (Z.of_nat (String.length r.1))) /\
  r.2 !! "file_path" = Some (VStr file_path).
Proof.
  cbv zeta. split; [|split; [|split]].
  - unfold _extract_text_sync. cbn [fst]. rewrite <- (text_parts_nil 0). split.
    + apply join_empty, text_parts_nonempty.
    + by intros ->.
  - rewrite <- extract_text_sync_lookup by not_listed. by simplify_map_eq.
  - rewrite <- extract_text_sync_lookup by not_listed. by simplify_map_eq.
  - rewrite <- extract_text_sync_lookup by not_listed. by simplify_map_eq.
Qed.

Lemma upserted_app (t1 t2 : list event) :
  upserted (t1 ++ t2) = upserted t1 ++ upserted t2.
Proof. unfold upserted. by rewrite map_app, concat_app. Qed.

Lemma store_upserted_payloads (document_id text filename : string)
    (metadata : option (gmap string pvalue)) (w : world) :
  Forall (fun p => exists i chunk,
            payload p = point_metadata document_id filename i chunk metadata)
    (upserted (VectorStoreService.process_document document_id text filename metadata
                 w).2).
Proof.
  unfold VectorStoreService.process_document.
  destruct (split_text text) as [|c cs] eqn:Hsplit; [constructor|].
  unfold bind at 1.
  destruct (get_embeddings (c :: cs) w) as [[[e|embeddings] w1] t1] eqn:Hemb;
    rewrite get_embeddings_nonempty, generate_embeddings_sync_run in Hemb by done;
    injection Hemb as _ <- <-; [constructor|].
  unfold bind at 1. rewrite build_points_run.
  unfold bind at 1. rewrite for_each_client_upsert_run.
  assert (Hmade : Forall (fun p => exists i chunk,
                      payload p = point_metadata document_id filename i chunk metadata)
            (make_points document_id filename metadata (uuid_count w) 0
               (zip (c :: cs) embeddings))).
  { apply Forall_lookup_2. intros j p Hp.
    apply make_points_lookup in Hp as (chunk & embedding & _ & ->). by eexists _, _. }
  destruct (first_failed_upsert _) as [[k e]|]; cbn [fst snd ret];
    rewrite ?app_nil_r;
    change (upserted ([document_call ?x] ++ [] ++ ?l)) with (upserted l);
    rewrite upserted_batches.
  - destruct (concat_take_prefix (S k)
                (batches (length (make_points document_id filename metadata
                                    (uuid_count w) 0 (zip (c :: cs) embeddings))) 100
                   (make_points document_id filename metadata (uuid_count w) 0
                      (zip (c :: cs) embeddings)))) as [rest Hrest].
    rewrite batches_concat in Hrest by lia. rewrite Hrest in Hmade.
    by apply Forall_app in Hmade as [Hsent _].
  - by rewrite batches_concat by lia.
Qed.

Lemma combine_metadata_keeps_chunk_keys (metadata : option (gmap string pvalue))
    (file_path request_id : string) (pdf : pdf_file) :
  keeps_chunk_keys metadata ->
  keeps_chunk_keys
    (Some (combine_metadata metadata (_extract_text_sync file_path pdf).2 request_id)).
Proof.
  intros Hkeys k Hk.
  change (combine_metadata metadata (_extract_text_sync file_path pdf).2 request_id
            !! k = None).
  pose proof (Hkeys k Hk) as Huser.
  repeat (apply elem_of_cons in Hk as [->|Hk];
    [unfold combine_metadata, dict_merge; rewrite !lookup_union_None;
     split; [by apply lookup_singleton_None|];
     split; [|exact Huser];
     rewrite <- extract_text_sync_lookup by not_listed; by simplify_map_eq|]).
  by apply elem_of_nil in Hk.
Qed.

(** X22. Every chunk an execution of the ingestion task writes to the
    collection is found by the document's filter and carries the filename,
    the path of the uploaded file as "file_path" and the id of the Celery
    task as "processing_timestamp", provided the caller's metadata has none
    of the five chunk keys. *)
Theorem ingested_chunks_carry_document (env : attempt_env) (retries : nat)
    (document_id file_path filename : string) (metadata : option (gmap string pvalue))
    (w : world) :
  keeps_chunk_keys metadata ->
  Forall (fun p =>
            of_document document_id p = true /\
            payload p !! "filename" = Some (VStr filename) /\
            payload p !! "file_path" = Some (VStr file_path) /\
            payload p !! "processing_timestamp" = Some (VStr (request_id env)))
    (upserted (process_document env retries document_id file_path filename metadata
                 w).2).
Proof.
  intros Hkeys. rewrite process_document_run, try_block_run.
  destruct (doc_processor_init env); [destruct (_ <? _)%nat; constructor|].
  destruct (vector_store_init env); [destruct (_ <? _)%nat; constructor|].
  destruct (opened env) as [e|pdf]; [destruct (_ <? _)%nat; constructor|]. cbv zeta.
  pose proof (store_upserted_payloads document_id (_extract_text_sync file_path pdf).1
    filename
    (Some (combine_metadata metadata (_extract_text_sync file_path pdf).2
             (request_id env))) w) as Hst.
  pose proof (combine_metadata_keeps_chunk_keys metadata file_path (request_id env) pdf
                Hkeys) as Hkeys'.
  assert (Hpoints : forall t,
    Forall (fun p => exists i chunk,
              payload p = point_metadata document_id filename i chunk
                (Some (combine_metadata metadata (_extract_text_sync file_path pdf).2
                         (request_id env)))) t ->
    Forall (fun p =>
              of_document document_id p = true /\
              payload p !! "filename" = Some (VStr filename) /\
              payload p !! "file_path" = Some (VStr file_path) /\
              payload p !! "processing_timestamp" = Some (VStr (request_id env))) t).
  { intros t Ht. eapply Forall_impl; [exact Ht|]. clear Ht.
    intros p (i & chunk & Hp). unfold of_document. rewrite Hp. clear Hp.
    assert (Hfixed : forall k v,
      k ∈ ["document_id"; "filename"] ->
      (<["document_id" := VStr document_id]>
         (<["filename" := VStr filename]>
            (<["chunk_index" := VInt (Z.of_nat i)]>
               (<["content" := VStr chunk]>
                  (<["chunk_size" := VInt (Z.of_nat (String.length chunk))]>
                     (∅ : gmap string pvalue)))))) !! k = Some v ->
      point_metadata document_id filename i chunk
        (Some (combine_metadata metadata (_extract_text_sync file_path pdf).2
                 (request_id env))) !! k = Some v).
    { intros k v Hk Hv. unfold point_metadata, dict_merge.
      rewrite lookup_union_r; [done|]. apply Hkeys'.
      apply elem_of_cons in Hk as [->|Hk]; [set_solver|].
      apply elem_of_cons in Hk as [->|Hk]; [set_solver|].
      by apply elem_of_nil in Hk. }
    split; [|split; [|split]].
    - unfold filter_holds, document_filter. cbn [must forallb].
      rewrite andb_true_r. unfold condition_holds. cbn [key match_value].
      apply bool_decide_eq_true. apply Hfixed; [set_solver | by simplify_map_eq].
    - apply Hfixed; [set_solver | by simplify_map_eq].
    - unfold point_metadata, dict_merge. cbn [default from_option].
      apply lookup_union_Some_l. unfold combine_metadata, dict_merge, Datatypes.id.
      rewrite lookup_union_r by (by apply lookup_singleton_None).
      apply lookup_union_Some_l.
      rewrite <- extract_text_sync_lookup by not_listed. by simplify_map_eq.
    - unfold point_metadata, dict_merge. cbn [default from_option].
      apply lookup_union_Some_l. unfold combine_metadata, dict_merge, Datatypes.id.
      apply lookup_union_Some_l. by simplify_map_eq. }
  destruct (VectorStoreService.process_document _ _ _ _ w) as [[[e|n] w'] t];
    cbn [fst snd] in *; unfold extracting, extracted, storing, finalizing;
    rewrite ?app_comm_cons, ?upserted_app;
    repeat change (upserted (UpdateState ?m :: ?l)) with (upserted l);
    change (upserted [?e]) with (@nil PointStruct); rewrite app_nil_r;
    by apply Hpoints.
Qed.

End Extraction.

(** ** Runs of the services *)

Section ServiceRuns.
Import Qdrant EmbeddingService VectorStoreService LLMService DocumentProcessor
  DocumentTasks App Fixtures.

Lemma well_behaved_splits : @split_text well_behaved invoice_text <> [].
Proof. vm_compute. discriminate. Qed.

Lemma well_behaved_embeds :
  @nomic_embed_text well_behaved (@split_text well_behaved invoice_text) model
    search_document = NomicEmbeddings [zeros].
Proof. reflexivity. Qed.

Lemma zeros_dimension : Forall (fun v : vector => length v = dimension) [zeros].
Proof. repeat constructor. Qed.

Lemma two_documents_ids : NoDup (map id (points two_documents)).
Proof. apply (bool_decide_unpack _). vm_compute. exact I. Qed.

Lemma two_documents_small :
  length (List.filter (of_document "doc-a") (points two_documents)) <= 10000.
Proof. vm_compute. lia. Qed.

Lemma registry_a_well_keyed : well_keyed [("doc-a", entry_a COMPLETED)].
Proof.
  split.
  - apply (bool_decide_unpack _). vm_compute. exact I.
  - repeat constructor.
Qed.

Lemma long_text_splits : @split_text second_batch_fails long_text <> [].
Proof. vm_compute. discriminate. Qed.

Lemma long_text_dimension :
  Forall (fun v : vector => length v = dimension)
    (map (fun _ => zeros) (@split_text second_batch_fails long_text)).
Proof.
  apply Forall_forall. intros v Hv.
  apply list_elem_of_fmap in Hv as (c & -> & _). reflexivity.
Qed.

(** X1 at a document of 250 chunks whose second upsert call is refused: two
    calls of 100 points are made, the first 100 points are stored, the last
    50 are never sent. *)
Lemma store_upserts_in_batches_witness :
  @split_text second_batch_fails long_text <> [] /\
  Forall (fun v : vector => length v = dimension)
    (map (fun _ => zeros) (@split_text second_batch_fails long_text)) /\
  stored_long.1.1 = inl (Exception "timed out") /\
  map (fun e => match e with QdrantUpsert batch => length batch | _ => 0 end)
    stored_long.2 = [0; 100; 100] /\
  length (points stored_long.1.2) = 100 /\
  let made := @make_points second_batch_fails "doc-a" "a.pdf" uploaded_by_user 0 0
                (zip (@split_text second_batch_fails long_text)
                   (map (fun _ => zeros) (@split_text second_batch_fails long_text))) in
  Forall (fun e => match e with
                   | QdrantUpsert batch => 0 < length batch <= 100
                   | _ => True
                   end) stored_long.2 /\
  upserted stored_long.2 `prefix_of` made /\
  (@upserts_succeed second_batch_fails made ->
     stored_long.1.1 = inr (length (@split_text second_batch_fails long_text)) /\
     upserted stored_long.2 = made /\
     points stored_long.1.2 = upsert (points empty_world) made) /\
  (forall e, stored_long.1.1 = inl e ->
     exists sent batch,
       upserted stored_long.2 = sent ++ batch /\
       @qdrant_upsert_raises second_batch_fails (map id batch) = Some e /\
       points stored_long.1.2 = upsert (points empty_world) sent).
Proof.
  split; [exact long_text_splits|]. split; [exact long_text_dimension|].
  split; [vm_compute; reflexivity|]. split; [vm_compute; reflexivity|].
  split; [vm_compute; reflexivity|].
  exact (@store_upserts_in_batches second_batch_fails "doc-a" long_text "a.pdf"
           uploaded_by_user
           (map (fun _ => zeros) (@split_text second_batch_fails long_text))
           empty_world long_text_splits eq_refl long_text_dimension).
Defined.

Lemma uploaded_by_user_keeps_chunk_keys : keeps_chunk_keys uploaded_by_user.
Proof.
  intros k Hk.
  repeat (apply elem_of_cons in Hk as [->|Hk]; [reflexivity|]).
  by apply elem_of_nil in Hk.
Qed.

Lemma stored_point_first :
  upserted (@VectorStoreService.process_document well_behaved "doc-a" invoice_text
              "a.pdf" uploaded_by_user empty_world).2 !! 0 = Some stored_point.
Proof. vm_compute. reflexivity. Qed.

(** X2 at the first point of the one-chunk document. *)
Lemma stored_chunks_are_numbered_witness :
  keeps_chunk_keys uploaded_by_user /\
  upserted (@VectorStoreService.process_document well_behaved "doc-a" invoice_text
              "a.pdf" uploaded_by_user empty_world).2 !! 0 = Some stored_point /\
  exists chunk,
    @split_text well_behaved invoice_text !! 0 = Some chunk /\
    [zeros] !! 0 = Some (vector_ stored_point) /\
    payload stored_point !! "document_id" = Some (VStr "doc-a") /\
    payload stored_point !! "filename" = Some (VStr "a.pdf") /\
    payload stored_point !! "chunk_index" = Some (VInt (Z.of_nat 0)) /\
    payload stored_point !! "content" = Some (VStr chunk) /\
    payload stored_point !! "chunk_size" = Some (VInt (Z.of_nat (String.length chunk))).
Proof.
  split; [exact uploaded_by_user_keeps_chunk_keys|]. split; [exact stored_point_first|].
  exact (@stored_chunks_are_numbered well_behaved "doc-a" invoice_text "a.pdf"
           uploaded_by_user [zeros] empty_world 0 stored_point well_behaved_splits
           well_behaved_embeds zeros_dimension uploaded_by_user_keeps_chunk_keys
           stored_point_first).
Defined.

Lemma short_answer_succeeds :
  @upserts_succeed short_answer
    (@make_points short_answer "doc-a" "a.pdf" uploaded_by_user 0 0
       (zip (@split_text short_answer "ab") [zeros])).
Proof. apply Forall_forall. intros batch _. reflexivity. Qed.

(** X3 at a document of two chunks that the provider answers with one
    vector: the count returned is 2, one point is stored. *)
Lemma store_counts_chunks_witness :
  @split_text short_answer "ab" = ["a"; "b"] /\
  @nomic_embed_text short_answer ["a"; "b"] model search_document
    = NomicEmbeddings [zeros] /\
  (@VectorStoreService.process_document short_answer "doc-a" "ab" "a.pdf"
     uploaded_by_user empty_world).1.1 = inr 2 /\
  length (upserted (@VectorStoreService.process_document short_answer "doc-a" "ab"
                      "a.pdf" uploaded_by_user empty_world).2) = 1.
Proof.
  split; [reflexivity|]. split; [reflexivity|].
  exact (@store_counts_chunks short_answer "doc-a" "ab" "a.pdf" uploaded_by_user
           [zeros] empty_world ltac:(discriminate) eq_refl zeros_dimension
           short_answer_succeeds).
Defined.

Lemma two_documents_dimension : dimension_ok (points two_documents).
Proof. repeat constructor. Qed.

(** X4 at a third document stored beside the two. *)
Lemma store_keeps_dimension_witness :
  dimension_ok (points two_documents) /\
  dimension = 768 /\
  dimension_ok (points (@VectorStoreService.process_document well_behaved "doc-c"
                          invoice_text "c.pdf" uploaded_by_user two_documents).1.2).
Proof.
  split; [exact two_documents_dimension|].
  exact (@store_keeps_dimension well_behaved "doc-c" invoice_text "c.pdf"
           uploaded_by_user two_documents two_documents_dimension).
Defined.

(** X5 at the collection of two documents: one point is deleted. *)
Lemma delete_document_removes_the_document_witness :
  NoDup (map id (points two_documents)) /\
  length (List.filter (of_document "doc-a") (points two_documents)) = 1 /\
  @deletion_error well_behaved "doc-a" (points two_documents) = None /\
  (@VectorStoreService.delete_document well_behaved "doc-a" two_documents).1.1 = inr 1 /\
  (forall p,
     p ∈ points (@VectorStoreService.delete_document well_behaved "doc-a"
                   two_documents).1.2
     <-> p ∈ points two_documents /\ of_document "doc-a" p = false).
Proof.
  split; [exact two_documents_ids|]. split; [vm_compute; reflexivity|].
  split; [vm_compute; reflexivity|].
  exact (@delete_document_removes_the_document well_behaved "doc-a" two_documents
           two_documents_ids two_documents_small).
Defined.

(** When Qdrant cannot be reached, the deletion raises and nothing is
    removed. *)
Example delete_document_fails_when_qdrant_is_down :
  @VectorStoreService.delete_document qdrant_down "doc-a" two_documents
  = (inl (Exception "Connection refused"), two_documents,
     [QdrantScroll (document_filter "doc-a")]).
Proof. vm_compute. reflexivity. Qed.

(** X6 at the collection of two documents, with a file that cannot be
    removed: the task reports the failure, the chunks are gone. *)
Lemma cleanup_then_search_finds_nothing_witness :
  cl_vector_store_init cleanup_file_locked = None /\
  "doc-a" <> "" /\
  (@cleanup_document well_behaved cleanup_file_locked "doc-a" (Some "/uploads/a.pdf")
     two_documents).1.1
    = CleanupFailed "Cleanup failed: Permission denied" "Permission denied" /\
  List.filter (of_document "doc-a")
    (points (@cleanup_document well_behaved cleanup_file_locked "doc-a"
               (Some "/uploads/a.pdf") two_documents).1.2) = [] /\
  (@get_document_stats well_behaved "doc-a"
     (@cleanup_document well_behaved cleanup_file_locked "doc-a"
        (Some "/uploads/a.pdf") two_documents).1.2).1.1 = inr 0 /\
  (forall query limit score_threshold hits w2 t,
     @search_similar well_behaved query (Some "doc-a") limit score_threshold
       (@cleanup_document well_behaved cleanup_file_locked "doc-a"
          (Some "/uploads/a.pdf") two_documents).1.2
     = (inr hits, w2, t) ->
     hits = []).
Proof.
  assert (H1 : cl_vector_store_init cleanup_file_locked = None) by reflexivity.
  assert (H2 : "doc-a" <> "") by done.
  split; [exact H1|]. split; [exact H2|]. split; [vm_compute; reflexivity|].
  exact (@cleanup_then_search_finds_nothing well_behaved cleanup_file_locked "doc-a"
           (Some "/uploads/a.pdf") two_documents H1 H2 two_documents_ids
           two_documents_small).
Defined.

(** When Qdrant cannot be reached, the cleanup returns the error dict and
    leaves the chunks and the file. *)
Example cleanup_fails_when_qdrant_is_down :
  @cleanup_document qdrant_down cleanup_file_locked "doc-a" (Some "/uploads/a.pdf")
    two_documents
  = (CleanupFailed "Cleanup failed: Connection refused" "Connection refused",
     two_documents, [QdrantScroll (document_filter "doc-a")]).
Proof. vm_compute. reflexivity. Qed.

(** When Qdrant cannot be reached, a chat about a COMPLETED document is
    answered with 500, and the ingestion of a document fails at the first
    upsert. *)
Example chat_fails_when_qdrant_is_down :
  (@chat_with_document qdrant_down [("doc-a", entry_a COMPLETED)] request_a
     two_documents).1.1
  = inl {| status_code := 500; detail := "Failed to process chat request" |}.
Proof. vm_compute. reflexivity. Qed.

Example store_fails_when_qdrant_is_down :
  (@VectorStoreService.process_document qdrant_down "doc-c" invoice_text "c.pdf"
     uploaded_by_user two_documents).1
  = (inl (Exception "Connection refused"),
     {| points := points two_documents; uuid_count := 3 |}).
Proof. vm_compute. reflexivity. Qed.

(** X21 at a PDF whose only page holds one no-break space: no text. *)
Example no_break_space_page_is_blank :
  (_extract_text_sync "/uploads/blank.pdf" blank_page_pdf).1 = "" /\
  (_extract_text_sync "/uploads/blank.pdf" blank_page_pdf).2 !! "page_count"
    = Some (VInt 1).
Proof. vm_compute. by split. Qed.

(** X7 at a registry of one document. *)
Lemma endpoints_keep_registry_well_keyed_witness :
  well_keyed [("doc-a", entry_a COMPLETED)] /\
  well_keyed (upload_document [("doc-a", entry_a COMPLETED)] "b.pdf" 2048 2 2
                (inr ("doc-b", "/uploads/b.pdf")) (inr "task-2")).1 /\
  well_keyed (get_document_status [("doc-a", entry_a COMPLETED)] "doc-a" finished).1 /\
  well_keyed (delete_document [("doc-a", entry_a COMPLETED)] "doc-a").1.
Proof.
  split; [exact registry_a_well_keyed|].
  exact (endpoints_keep_registry_well_keyed [("doc-a", entry_a COMPLETED)] "b.pdf" 2048
           2 2 (inr ("doc-b", "/uploads/b.pdf")) (inr "task-2") "doc-a" finished
           registry_a_well_keyed).
Defined.

(** X8 at a registry of one document. *)
Lemma delete_document_forgets_the_document_witness :
  db_get [("doc-a", entry_a COMPLETED)] "doc-a" = Some (entry_a COMPLETED) /\
  (delete_document [("doc-a", entry_a COMPLETED)] "doc-a").2
    = inr ("Document doc-a deleted successfully",
           {| sc_document_id := "doc-a"; sc_file_path := Some "/uploads/a.pdf" |}) /\
  get_document_status (delete_document [("doc-a", entry_a COMPLETED)] "doc-a").1 "doc-a"
    finished
    = ((delete_document [("doc-a", entry_a COMPLETED)] "doc-a").1,
       inl {| status_code := 404; detail := "Document not found" |}) /\
  (forall resp,
     resp ∈ list_documents (delete_document [("doc-a", entry_a COMPLETED)] "doc-a").1 ->
     dr_id resp <> "doc-a") /\
  (forall other, other <> "doc-a" ->
     db_get (delete_document [("doc-a", entry_a COMPLETED)] "doc-a").1 other
     = db_get [("doc-a", entry_a COMPLETED)] other).
Proof.
  assert (H1 : db_get [("doc-a", entry_a COMPLETED)] "doc-a"
               = Some (entry_a COMPLETED)) by reflexivity.
  split; [exact H1|].
  exact (delete_document_forgets_the_document [("doc-a", entry_a COMPLETED)] "doc-a"
           (entry_a COMPLETED) finished registry_a_well_keyed H1).
Defined.


(** X11 at the job of the one-page document: one page, one chunk. *)
Lemma completed_result_counts_witness :
  first_execution = (Returned result_a, after_a, first_execution.2) /\
  tm_status result_a = COMPLETED /\
  exists pdf,
    opened one_page = inr pdf /\
    tm_pages result_a = Some (VInt (Z.of_nat (length (pages pdf)))) /\
    tm_chunks result_a
      = Some (length (@split_text well_behaved
                        (_extract_text_sync "/uploads/a.pdf" pdf).1)) /\
    tm_progress result_a = 100 /\ tm_error result_a = None.
Proof.
  assert (H1 : first_execution = (Returned result_a, after_a, first_execution.2))
    by (vm_compute; reflexivity).
  assert (H2 : tm_status result_a = COMPLETED) by (vm_compute; reflexivity).
  split; [exact H1|]. split; [exact H2|].
  exact (@completed_result_counts well_behaved one_page 0 "doc-a" "/uploads/a.pdf"
           "a.pdf" uploaded_by_user empty_world after_a result_a first_execution.2
           H1 H2).
Defined.

Example result_a_counts :
  tm_pages result_a = Some (VInt 1) /\ tm_chunks result_a = Some 1.
Proof. vm_compute. by split. Qed.

(** X12 at the upload of the one-page document into an empty registry. *)
Lemma chat_opens_after_status_poll_witness :
  "task-1" <> "" /\
  finished "task-1" = SUCCESS result_a /\
  tm_status result_a = COMPLETED /\
  document_id request_a = "doc-a" /\
  @chat_with_document well_behaved
    (upload_document [] "a.pdf" 1024 1 1 (inr ("doc-a", "/uploads/a.pdf"))
       (inr "task-1")).1 request_a after_a
    = (inl (@not_ready well_behaved PROCESSING), after_a, []) /\
  (exists d,
     db_get (get_document_status
               (upload_document [] "a.pdf" 1024 1 1 (inr ("doc-a", "/uploads/a.pdf"))
                  (inr "task-1")).1 "doc-a" finished).1 "doc-a" = Some d /\
     di_status d = COMPLETED /\ di_pages d = tm_pages result_a) /\
  (forall err,
     (@chat_with_document well_behaved
        (get_document_status
           (upload_document [] "a.pdf" 1024 1 1 (inr ("doc-a", "/uploads/a.pdf"))
              (inr "task-1")).1 "doc-a" finished).1 request_a after_a).1.1 = inl err ->
     status_code err = 500).
Proof.
  assert (H1 : "task-1" <> "") by done.
  assert (H2 : finished "task-1" = SUCCESS result_a) by reflexivity.
  assert (H3 : tm_status result_a = COMPLETED) by (vm_compute; reflexivity).
  assert (H4 : document_id request_a = "doc-a") by reflexivity.
  split; [exact H1|]. split; [exact H2|]. split; [exact H3|]. split; [exact H4|].
  exact (@chat_opens_after_status_poll well_behaved [] "a.pdf" 1024 1 1 "doc-a"
           "/uploads/a.pdf" "task-1" finished result_a request_a after_a H1 H2 H3 H4).
Defined.

(** X18 at a search restricted to the first of two documents. *)
Lemma search_documents_results_witness :
  searched_a = (inr response_a, two_documents, searched_a.2) /\
  length (results response_a) = 1 /\
  two_documents = two_documents /\
  sr_query response_a = query search_request_a /\
  total_results response_a = length (results response_a) /\
  length (results response_a) <= limit search_request_a /\
  Forall (fun r => (6 # 10 <= sr_confidence_score r)%Q) (results response_a) /\
  StronglySorted no_less_relevant (results response_a) /\
  (forall d, sr_document_id_filter search_request_a = Some d -> d <> "" ->
     Forall (fun r => sr_document_id r = d) (results response_a)).
Proof.
  assert (H1 : searched_a = (inr response_a, two_documents, searched_a.2))
    by (vm_compute; reflexivity).
  split; [exact H1|]. split; [vm_compute; reflexivity|].
  exact (@search_documents_results well_behaved search_request_a two_documents
           two_documents response_a searched_a.2 H1).
Defined.

(** X22 at the job of the one-page document: its one chunk. *)
Lemma ingested_chunks_carry_document_witness :
  keeps_chunk_keys uploaded_by_user /\
  length (upserted first_execution.2) = 1 /\
  Forall (fun p =>
            of_document "doc-a" p = true /\
            payload p !! "filename" = Some (VStr "a.pdf") /\
            payload p !! "file_path" = Some (VStr "/uploads/a.pdf") /\
            payload p !! "processing_timestamp" = Some (VStr "task-1"))
    (upserted first_execution.2).
Proof.
  split; [exact uploaded_by_user_keeps_chunk_keys|]. split; [vm_compute; reflexivity|].
  exact (@ingested_chunks_carry_document well_behaved one_page 0 "doc-a"
           "/uploads/a.pdf" "a.pdf" uploaded_by_user empty_world
           uploaded_by_user_keeps_chunk_keys).
Defined.

(** X20 at a job whose file [PdfReader] cannot parse. *)
Lemma retry_after_failure_never_succeeds_witness :
  (@try_block well_behaved (env_on disk_unreadable io_ok "/uploads/a.pdf") "doc-a"
     "/uploads/a.pdf" "a.pdf" uploaded_by_user empty_world).1.1 = inl first_failure /\
  io_remove_fails io_ok = false /\
  executions (@deliver_on_disk well_behaved 4 (fun _ => io_ok) disk_unreadable 0 "doc-a"
                "/uploads/a.pdf" "a.pdf" uploaded_by_user empty_world) = 4 /\
  exists e,
    final (@deliver_on_disk well_behaved 4 (fun _ => io_ok) disk_unreadable 0 "doc-a"
             "/uploads/a.pdf" "a.pdf" uploaded_by_user empty_world)
      = SUCCESS (error_result e "doc-a") /\
    tm_status (error_result e "doc-a") = FAILED.
Proof.
  assert (H1 : (@try_block well_behaved (env_on disk_unreadable io_ok "/uploads/a.pdf")
                  "doc-a" "/uploads/a.pdf" "a.pdf" uploaded_by_user empty_world).1.1
               = inl first_failure) by (vm_compute; reflexivity).
  assert (H2 : io_remove_fails io_ok = false) by reflexivity.
  split; [exact H1|]. split; [exact H2|].
  exact (@retry_after_failure_never_succeeds well_behaved (fun _ => io_ok)
           disk_unreadable "doc-a" "/uploads/a.pdf" "a.pdf" uploaded_by_user
           empty_world first_failure H1 H2).
Defined.

Example retried_job_fails_on_the_missing_file :
  tm_error (error_result first_failure "doc-a")
    = Some "PDF processing error: EOF marker not found" /\
  final (@deliver_on_disk well_behaved 4 (fun _ => io_ok) disk_unreadable 0 "doc-a"
           "/uploads/a.pdf" "a.pdf" uploaded_by_user empty_world)
    = SUCCESS (error_result
        (Exception "PDF processing error: [Errno 2] No such file or directory: '/uploads/a.pdf'")
        "doc-a").
Proof. split; vm_compute; reflexivity. Qed.

End ServiceRuns.
